(** * Loongson-3 SPI controller driver (flashrom, loongson3_spi.c)

    A shallow embedding of the driver: the register constants, the two
    platform tests, bring-up ([loongson3_spi_init]), tear-down
    ([loongson3_spi_shutdown]) and the byte-at-a-time transaction engine
    ([loongson3_spi_send_command]), followed by the properties of the
    driver's register traffic. *)

From Stdlib Require Import ZArith String List Bool Lia PeanoNat.
Import ListNotations.
Local Open Scope Z_scope.

(** ** Register constants (the [#define]s of the source) *)

Definition LOONGSON64C_SPI_BASE : Z := 0x1fe00220.
Definition LOONGSON64G_SPI_BASE : Z := 0x1fe001f0.
Definition LOONGSON3_SPI_REG_SIZE : Z := 0x10.

Definition SPICTRL_SPCR : Z := 0x0.
Definition SPCR_MSTR : Z := Z.shiftl 1 4.
Definition SPCR_SPE : Z := Z.shiftl 1 6.

Definition SPICTRL_SPSR : Z := 0x1.
Definition SPSR_RFEMPTY : Z := Z.shiftl 1 0.
Definition SPSR_RFFULL : Z := Z.shiftl 1 1.
Definition SPSR_WFEMPTY : Z := Z.shiftl 1 2.
Definition SPSR_WFFULL : Z := Z.shiftl 1 3.
Definition SPSR_WCOL : Z := Z.shiftl 1 6.

Definition SPICTRL_FIFO : Z := 0x2.

Definition SPICTRL_SFCP : Z := 0x4.
Definition SFCP_MEMEN : Z := Z.shiftl 1 0.

Definition SPICTRL_SOFTCS : Z := 0x5.
(* Firmware flash is always connected to CS0 *)
Definition SOFTCS_ASSERT : Z := Z.lor (Z.shiftl 0 4) (Z.shiftl 1 0).
Definition SOFTCS_DESSERT : Z := Z.lor (Z.shiftl 1 4) (Z.shiftl 1 0).

(** A [uint8_t] is a [Z] reduced modulo 2^8 wherever the source converts
    to that type (the value parameter of [mmio_writeb], the result of
    [mmio_readb], the compound assignments on [reg]). *)
Definition u8 (v : Z) : Z := v mod 2 ^ 8.

(** ** The register block

    Modelled from the spec: the hardware behind [mmio_readb] and
    [mmio_writeb] (hwaccess.c and the controller itself are not part of
    the driver file).  Control, Read-Engine-Enable and Soft-Chip-Select
    are storage registers.  Status and the read side of FIFO are driven by
    the hardware: [spsr_feed n] is the value Status presents at its n-th
    read and [fifo_feed n] the byte popped by the n-th FIFO read, for
    arbitrary response sequences.  Writes to FIFO are queued in
    [fifo_pushed]. *)
Record regblock : Type := mkRegblock {
  spcr : Z;
  sfcp : Z;
  softcs : Z;
  spsr_feed : nat -> Z;
  spsr_reads : nat;
  fifo_feed : nat -> Z;
  fifo_reads : nat;
  fifo_pushed : list Z
}.

Definition dev_readb (off : Z) (d : regblock) : Z * regblock :=
  if off =? SPICTRL_SPCR then (u8 (spcr d), d)
  else if off =? SPICTRL_SPSR then
    (u8 (spsr_feed d (spsr_reads d)),
     mkRegblock (spcr d) (sfcp d) (softcs d) (spsr_feed d) (S (spsr_reads d))
                (fifo_feed d) (fifo_reads d) (fifo_pushed d))
  else if off =? SPICTRL_FIFO then
    (u8 (fifo_feed d (fifo_reads d)),
     mkRegblock (spcr d) (sfcp d) (softcs d) (spsr_feed d) (spsr_reads d)
                (fifo_feed d) (S (fifo_reads d)) (fifo_pushed d))
  else if off =? SPICTRL_SFCP then (u8 (sfcp d), d)
  else if off =? SPICTRL_SOFTCS then (u8 (softcs d), d)
  else (0, d).

Definition dev_writeb (v : Z) (off : Z) (d : regblock) : regblock :=
  if off =? SPICTRL_SPCR then
    mkRegblock v (sfcp d) (softcs d) (spsr_feed d) (spsr_reads d)
               (fifo_feed d) (fifo_reads d) (fifo_pushed d)
  else if off =? SPICTRL_FIFO then
    mkRegblock (spcr d) (sfcp d) (softcs d) (spsr_feed d) (spsr_reads d)
               (fifo_feed d) (fifo_reads d) (fifo_pushed d ++ [v])
  else if off =? SPICTRL_SFCP then
    mkRegblock (spcr d) v (softcs d) (spsr_feed d) (spsr_reads d)
               (fifo_feed d) (fifo_reads d) (fifo_pushed d)
  else if off =? SPICTRL_SOFTCS then
    mkRegblock (spcr d) (sfcp d) v (spsr_feed d) (spsr_reads d)
               (fifo_feed d) (fifo_reads d) (fifo_pushed d)
  else d.

(** ** The process state *)

(** One byte-wide bus access, with the absolute address it went to. *)
Inductive event : Type :=
| Rd (addr : Z) (val : Z)
| Wr (val : Z) (addr : Z).

Definition ev_addr (e : event) : Z :=
  match e with Rd a _ => a | Wr _ a => a end.

(** The diagnostics of the source ([msg_perr] and [msg_pwarn]). *)
Inductive message : Type :=
| MsgNoCpu            (* "No -cpu specified" *)
| MsgInvalidCpu       (* "Invalid -cpu specified" *)
| Msg64c              (* "64c" *)
| Msg64g              (* "64g" *)
| MsgMapFailed        (* "Failed to map base" *)
| MsgReadEngineOff    (* "Read engine is not enabled, SPI is not system firmware?" *)
| MsgCounts (writecnt readcnt : nat).  (* "writecnt: %d, readcnt: %d" *)

(** A call of [rphysmap]: label, physical address, length. *)
Record physmap_call : Type := mkPhysmapCall {
  pm_descr : string;
  pm_phys : Z;
  pm_len : Z
}.

Record world : Type := mkWorld {
  spictrl_base : Z;             (* static uint8_t *spictrl_base; 0 is NULL *)
  mapped_at : Z;                (* where the register block is visible; 0: nowhere *)
  hw : regblock;
  trace : list event;           (* bus accesses, oldest first *)
  msgs : list message;
  physmaps : list physmap_call;
  shutdown_hooks : nat;         (* callbacks accepted by register_shutdown *)
  spi_masters : nat             (* descriptors handed to register_spi_master *)
}.

(** What the environment answers during bring-up. *)
Record env : Type := mkEnv {
  cpu_param : option string;              (* extract_programmer_param("cpu") *)
  rphysmap_result : string -> Z -> Z -> Z; (* mapped address, 0 on failure *)
  register_shutdown_rc : Z                (* 0 when the callback is accepted *)
}.

(** ** Outcomes

    The driver's loops that poll Status have no bound, so the embedding
    gives every polling loop a budget of [fuel] polls and reports [Spin]
    when a loop uses it up.  [writearr] and [readarr] are lists: the
    bytes that can be accessed at each pointer, that is the caller's array
    and, where memory goes on behind it, the bytes that follow (see
    [readable_at]).  The loops index them with [nth_error]; an index past
    the end of the list is an access that nothing serves, and ends the run
    with [Fault]. *)
Inductive buffer : Type := Writearr | Readarr.
Inductive phase : Type := WritePhase | ReadPhase.
Inductive fault : Type := BadIndex (b : buffer) (p : phase) (i : nat).

Inductive outcome (A : Type) : Type :=
| Done (a : A) (w : world)
| Fault (f : fault) (w : world)
| Spin (w : world).
Arguments Done {A} a w.
Arguments Fault {A} f w.
Arguments Spin {A} w.

Definition M (A : Type) : Type := world -> outcome A.

Definition ret {A} (a : A) : M A := fun w => Done a w.

Definition bind {A B} (m : M A) (k : A -> M B) : M B := fun w =>
  match m w with
  | Done a w' => k a w'
  | Fault f w' => Fault f w'
  | Spin w' => Spin w'
  end.

Notation "x <- m ;; k" := (bind m (fun x => k))
  (at level 61, m at next level, right associativity).
Notation "m ;;; k" := (bind m (fun _ => k))
  (at level 61, right associativity).

(** The state in which a run ended, whatever its outcome. *)
Definition final {A} (o : outcome A) : world :=
  match o with Done _ w => w | Fault _ w => w | Spin w => w end.

(** ** Primitive operations *)

Definition set_hw (d : regblock) (w : world) : world :=
  mkWorld (spictrl_base w) (mapped_at w) d (trace w) (msgs w) (physmaps w)
          (shutdown_hooks w) (spi_masters w).

Definition log_event (e : event) (w : world) : world :=
  mkWorld (spictrl_base w) (mapped_at w) (hw w) (trace w ++ [e]) (msgs w)
          (physmaps w) (shutdown_hooks w) (spi_masters w).

Definition msg (m : message) : M unit := fun w =>
  Done tt (mkWorld (spictrl_base w) (mapped_at w) (hw w) (trace w)
                   (msgs w ++ [m]) (physmaps w) (shutdown_hooks w)
                   (spi_masters w)).

(** The value of the global [spictrl_base] plus a register offset. *)
Definition reg (off : Z) : M Z := fun w => Done (spictrl_base w + off) w.

Definition get_base : M Z := fun w => Done (spictrl_base w) w.

(** Does [addr] fall into the mapped 16-byte register block? *)
Definition on_block (w : world) (addr : Z) : bool :=
  negb (mapped_at w =? 0) && (mapped_at w <=? addr)
  && (addr <? mapped_at w + LOONGSON3_SPI_REG_SIZE).

(** Modelled from the spec: [mmio_readb] and [mmio_writeb] (hwaccess.c),
    single-byte accesses.  An access inside the mapped block reaches the
    register at that offset.  Any other address is not backed by the
    controller, and the environment does not define what an access to it
    does; the embedding lets the run go on (reads give 0, writes are
    lost) and keeps the access in the trace, where [stray] tells it from
    an access to the block. *)
Definition mmio_readb (addr : Z) : M Z := fun w =>
  if on_block w addr then
    let r := dev_readb (addr - mapped_at w) (hw w) in
    Done (fst r) (log_event (Rd addr (fst r)) (set_hw (snd r) w))
  else Done 0 (log_event (Rd addr 0) w).

Definition mmio_writeb (val : Z) (addr : Z) : M unit := fun w =>
  if on_block w addr then
    Done tt (log_event (Wr (u8 val) addr)
                       (set_hw (dev_writeb (u8 val) (addr - mapped_at w) (hw w)) w))
  else Done tt (log_event (Wr (u8 val) addr) w).

(** Modelled from the spec: [extract_programmer_param("cpu")]; the string
    stands for the characters before the terminating NUL, so
    [strcmp(a, b) == 0] is [String.eqb a b]. *)
Definition extract_programmer_param (e : env) : M (option string) :=
  fun w => Done (cpu_param e) w.

(** Modelled from the spec: [rphysmap], which makes the register block
    visible at the address it returns (0 when the mapping fails). *)
Definition rphysmap (e : env) (descr : string) (phys len : Z) : M Z := fun w =>
  let va := rphysmap_result e descr phys len in
  Done va (mkWorld (spictrl_base w) va (hw w) (trace w) (msgs w)
                   (physmaps w ++ [mkPhysmapCall descr phys len])
                   (shutdown_hooks w) (spi_masters w)).

Definition set_spictrl_base (p : Z) : M unit := fun w =>
  Done tt (mkWorld p (mapped_at w) (hw w) (trace w) (msgs w) (physmaps w)
                   (shutdown_hooks w) (spi_masters w)).

(** Modelled from the spec: [register_shutdown], which may refuse. *)
Definition register_shutdown (e : env) : M Z := fun w =>
  if register_shutdown_rc e =? 0 then
    Done 0 (mkWorld (spictrl_base w) (mapped_at w) (hw w) (trace w) (msgs w)
                    (physmaps w) (S (shutdown_hooks w)) (spi_masters w))
  else Done (register_shutdown_rc e) w.

(** Modelled from the spec: [register_spi_master]; the driver ignores
    its result. *)
Definition register_spi_master : M unit := fun w =>
  Done tt (mkWorld (spictrl_base w) (mapped_at w) (hw w) (trace w) (msgs w)
                   (physmaps w) (shutdown_hooks w) (S (spi_masters w))).

(** [writearr[i]] and [readarr[i] = v]. *)
Definition load (p : phase) (writearr : list Z) (i : nat) : M Z := fun w =>
  match nth_error writearr i with
  | Some b => Done b w
  | None => Fault (BadIndex Writearr p i) w
  end.

Fixpoint update (l : list Z) (i : nat) (v : Z) : option (list Z) :=
  match l, i with
  | [], _ => None
  | _ :: t, O => Some (v :: t)
  | h :: t, S j => option_map (cons h) (update t j v)
  end.

Definition store (readarr : list Z) (i : nat) (v : Z) : M (list Z) := fun w =>
  match update readarr i v with
  | Some l => Done l w
  | None => Fault (BadIndex Readarr ReadPhase i) w
  end.

(** ** The driver *)

Definition cpu_is_loongson64c (cpu : string) : Z :=
  if String.eqb cpu "3b1500" then 1
  else if String.eqb cpu "3a2000" then 1
  else if String.eqb cpu "3b2000" then 1
  else if String.eqb cpu "3a3000" then 1
  else if String.eqb cpu "3b3000" then 1
  else 0.

Definition cpu_is_loongson64g (cpu : string) : Z :=
  if String.eqb cpu "3a4000" then 1
  else if String.eqb cpu "3b4000" then 1
  else 0.

(** [while (mmio_readb(spictrl_base + SPICTRL_SPSR) & SPSR_RFEMPTY);] *)
Fixpoint wait_rf_not_empty (fuel : nat) : M unit :=
  match fuel with
  | O => fun w => Spin w
  | S f =>
      a <- reg SPICTRL_SPSR ;;
      s <- mmio_readb a ;;
      if Z.land s SPSR_RFEMPTY =? 0 then ret tt else wait_rf_not_empty f
  end.

(** [while (!(mmio_readb(spictrl_base + SPICTRL_SPSR) & SPSR_RFEMPTY))
       mmio_readb(spictrl_base + SPICTRL_FIFO);] *)
Fixpoint drain_fifo (fuel : nat) : M unit :=
  match fuel with
  | O => fun w => Spin w
  | S f =>
      a <- reg SPICTRL_SPSR ;;
      s <- mmio_readb a ;;
      if Z.land s SPSR_RFEMPTY =? 0 then
        a <- reg SPICTRL_FIFO ;;
        _ <- mmio_readb a ;;
        drain_fifo f
      else ret tt
  end.

(** [loongson3_spi_shutdown]: the guard is [if (!spictrl_base)], as in the
    source. *)
Definition loongson3_spi_shutdown : M Z :=
  base <- get_base ;;
  (if base =? 0 then
     (* Disable soft CS *)
     a <- reg SPICTRL_SOFTCS ;;
     mmio_writeb 0x0 a ;;;
     (* Enable read engine again *)
     a <- reg SPICTRL_SFCP ;;
     r <- mmio_readb a ;;
     a <- reg SPICTRL_SFCP ;;
     mmio_writeb (u8 (Z.lor r SFCP_MEMEN)) a
   else ret tt) ;;;
  ret 0.

(** The part of [loongson3_spi_init] that follows the platform branch
    (from [if (!spictrl_base)] to the final [return 0]). *)
Definition init_configure (e : env) (fuel : nat) : M Z :=
  base <- get_base ;;
  if base =? 0 then msg MsgMapFailed ;;; ret 1
  else
    a <- reg SPICTRL_SFCP ;;
    r <- mmio_readb a ;;
    (if Z.land r SFCP_MEMEN =? 0 then msg MsgReadEngineOff else ret tt) ;;;
    rc <- register_shutdown e ;;
    if negb (rc =? 0) then ret 1
    else
      (* Dessert CS *)
      a <- reg SPICTRL_SOFTCS ;;
      mmio_writeb SOFTCS_DESSERT a ;;;
      (* Enable SPI Controller *)
      a <- reg SPICTRL_SPCR ;;
      r <- mmio_readb a ;;
      a <- reg SPICTRL_SPCR ;;
      mmio_writeb (u8 (Z.lor r (Z.lor SPCR_MSTR SPCR_SPE))) a ;;;
      (* Disable read engine for software control *)
      a <- reg SPICTRL_SFCP ;;
      r <- mmio_readb a ;;
      a <- reg SPICTRL_SFCP ;;
      mmio_writeb (u8 (Z.land r (Z.lnot SFCP_MEMEN))) a ;;;
      (* Sometimes Read FIFO is not empty at boot time *)
      drain_fifo fuel ;;;
      register_spi_master ;;;
      ret 0.

(** [loongson3_spi_init]; [free(cpu)] has no counterpart here.  The
    flag [known] stands for not having taken the early [return 1] of the
    last [else]. *)
Definition loongson3_spi_init (e : env) (fuel : nat) : M Z :=
  cpu <- extract_programmer_param e ;;
  match cpu with
  | None => msg MsgNoCpu ;;; ret 1
  | Some cpu =>
      known <-
        (if negb (cpu_is_loongson64c cpu =? 0) then
           p <- rphysmap e "Loongson64C SPICTRL" LOONGSON64C_SPI_BASE
                         LOONGSON3_SPI_REG_SIZE ;;
           set_spictrl_base p ;;;
           msg Msg64c ;;;
           ret true
         else if negb (cpu_is_loongson64g cpu =? 0) then
           p <- rphysmap e "Loongson64G SPICTRL" LOONGSON64G_SPI_BASE
                         LOONGSON3_SPI_REG_SIZE ;;
           set_spictrl_base p ;;;
           msg Msg64g ;;;
           ret true
         else
           msg MsgInvalidCpu ;;;
           ret false) ;;
      if negb known then ret 1 else init_configure e fuel
  end.

(** The first loop of [loongson3_spi_send_command]: iterations
    [i, i+1, ..., i+n-1] of [for (i = 0; i < writecnt; i++)]. *)
Fixpoint write_phase (fuel : nat) (writearr : list Z) (i n : nat) : M unit :=
  match n with
  | O => ret tt
  | S n' =>
      b <- load WritePhase writearr i ;;
      a <- reg SPICTRL_FIFO ;;
      mmio_writeb b a ;;;
      (* Wait until Read FIFO not empty *)
      wait_rf_not_empty fuel ;;;
      a <- reg SPICTRL_FIFO ;;
      _ <- mmio_readb a ;;
      write_phase fuel writearr (S i) n'
  end.

(** The second loop: iterations [i, ..., i+n-1] of
    [for (i = 0; i < readcnt; i++)]. *)
Fixpoint read_phase (fuel : nat) (writearr : list Z) (i n : nat)
    (readarr : list Z) : M (list Z) :=
  match n with
  | O => ret readarr
  | S n' =>
      b <- load ReadPhase writearr i ;;
      a <- reg SPICTRL_FIFO ;;
      mmio_writeb b a ;;;
      (* Wait until Read FIFO not empty *)
      wait_rf_not_empty fuel ;;;
      a <- reg SPICTRL_FIFO ;;
      v <- mmio_readb a ;;
      readarr' <- store readarr i v ;;
      read_phase fuel writearr (S i) n' readarr'
  end.

(** [loongson3_spi_send_command]; the [flash] argument is unused.  The
    result pairs the returned status with the contents of [readarr]. *)
Definition loongson3_spi_send_command (fuel : nat) (writecnt readcnt : nat)
    (writearr readarr : list Z) : M (Z * list Z) :=
  msg (MsgCounts writecnt readcnt) ;;;
  a <- reg SPICTRL_SOFTCS ;;
  mmio_writeb SOFTCS_ASSERT a ;;;
  write_phase fuel writearr 0 writecnt ;;;
  readarr' <- read_phase fuel writearr 0 readcnt readarr ;;
  a <- reg SPICTRL_SOFTCS ;;
  mmio_writeb SOFTCS_DESSERT a ;;;
  ret (0, readarr').

(** ** A simulated register block for concrete runs *)

(** Status as a full-duplex exchange paces it: the read FIFO shows empty
    on [busy] polls, then non-empty on the next one, over and over. *)
Definition paced (busy : nat) : nat -> Z :=
  fun n => if (n mod (S busy) =? busy)%nat then 0x04 else 0x05.

(** Status at boot with [k] stale bytes in the read FIFO: non-empty on
    the first [k] polls, empty from then on. *)
Definition stale (k : nat) : nat -> Z :=
  fun n => if (n <? k)%nat then 0x04 else 0x05.

Definition sim_block (feed : nat -> Z) (spcr0 sfcp0 : Z) : regblock :=
  mkRegblock spcr0 sfcp0 0 feed 0 (fun n => 0xC0 + Z.of_nat n) 0 [].

Definition sim_world (base : Z) (d : regblock) : world :=
  mkWorld base base d [] [] [] 0 0.

Definition sim_env (cpu : option string) (va : Z) (rc : Z) : env :=
  mkEnv cpu (fun _ _ _ => va) rc.

(** ** Vocabulary of the statements

    Predicates on states and traces, the expected traffic of bring-up, and
    the concrete machines used in the examples. *)

(** The five register offsets of the block. *)
Definition offsets : list Z :=
  [SPICTRL_SPCR; SPICTRL_SPSR; SPICTRL_FIFO; SPICTRL_SFCP; SPICTRL_SOFTCS].

Definition at_register (base : Z) (e : event) : Prop :=
  In (ev_addr e - base) offsets.

(** [extends w w']: [w'] is [w] after some register traffic through the
    handle of [w]; the handle, the mapping, the hardware's response
    sequences and the bookkeeping of mappings are those of [w]. *)
Record extends (w w' : world) : Prop := mkExtends {
  ext_base : spictrl_base w' = spictrl_base w;
  ext_map : mapped_at w' = mapped_at w;
  ext_sfeed : spsr_feed (hw w') = spsr_feed (hw w);
  ext_ffeed : fifo_feed (hw w') = fifo_feed (hw w);
  ext_physmaps : physmaps w' = physmaps w;
  ext_trace : exists evs,
      trace w' = trace w ++ evs /\ Forall (at_register (spictrl_base w)) evs
}.

(** A computation is [framed] when every run of it, finished or not,
    only extends the state it started from. *)
Definition framed {A} (m : M A) : Prop :=
  forall w, extends w (final (m w)).

Definition rf_empty (s : Z) : bool := negb (Z.land s SPSR_RFEMPTY =? 0).

(** The polls of one busy-wait: Status reads that show the read FIFO
    empty, closed by one that shows it non-empty. *)
Inductive waited (base : Z) : list event -> Prop :=
| waited_ready (s : Z) :
    rf_empty s = false -> waited base [Rd (base + SPICTRL_SPSR) s]
| waited_busy (s : Z) (evs : list event) :
    rf_empty s = true -> waited base evs ->
    waited base (Rd (base + SPICTRL_SPSR) s :: evs).

(** [transfers base pushed popped evs]: [evs] is a sequence of byte
    exchanges, one per element of [pushed]: the byte is written to FIFO,
    Status is polled until the read FIFO is non-empty, and one byte (the
    matching element of [popped]) is read from FIFO. *)
Inductive transfers (base : Z) : list Z -> list Z -> list event -> Prop :=
| transfers_nil : transfers base [] [] []
| transfers_cons (b v : Z) (bs vs : list Z) (polls rest : list event) :
    waited base polls -> transfers base bs vs rest ->
    transfers base (b :: bs) (v :: vs)
      (Wr b (base + SPICTRL_FIFO) :: polls ++ Rd (base + SPICTRL_FIFO) v :: rest).

Definition bump_spsr (d : regblock) : regblock :=
  mkRegblock (spcr d) (sfcp d) (softcs d) (spsr_feed d) (S (spsr_reads d))
             (fifo_feed d) (fifo_reads d) (fifo_pushed d).

Definition bump_fifo (d : regblock) : regblock :=
  mkRegblock (spcr d) (sfcp d) (softcs d) (spsr_feed d) (spsr_reads d)
             (fifo_feed d) (S (fifo_reads d)) (fifo_pushed d).

(** One poll of Status through a mapped handle. *)
Definition polled (w : world) : world :=
  log_event (Rd (spictrl_base w + SPICTRL_SPSR)
                (u8 (spsr_feed (hw w) (spsr_reads (hw w)))))
            (set_hw (bump_spsr (hw w)) w).

(** One pop of FIFO through a mapped handle. *)
Definition popped_one (w : world) : world :=
  log_event (Rd (spictrl_base w + SPICTRL_FIFO)
                (u8 (fifo_feed (hw w) (fifo_reads (hw w)))))
            (set_hw (bump_fifo (hw w)) w).

(** Whatever the number of Status reads so far, a later read shows the
    read FIFO non-empty. *)
Definition unblocks (d : regblock) : Prop :=
  forall n : nat, exists m : nat, rf_empty (u8 (spsr_feed d (n + m))) = false.

(** The handle is the address at which the block is mapped (both are 0
    before bring-up), and the busy-waits end. *)
Definition live (w : world) : Prop :=
  mapped_at w = spictrl_base w /\ unblocks (hw w).

(** The label and physical address [loongson3_spi_init] hands to
    [rphysmap] for a platform identifier, if it maps anything. *)
Definition platform (cpu : string) : option (string * Z) :=
  if negb (cpu_is_loongson64c cpu =? 0) then
    Some ("Loongson64C SPICTRL"%string, LOONGSON64C_SPI_BASE)
  else if negb (cpu_is_loongson64g cpu =? 0) then
    Some ("Loongson64G SPICTRL"%string, LOONGSON64G_SPI_BASE)
  else None.

(** The storage registers once bring-up has programmed them. *)
Definition configured (d : regblock) : regblock :=
  mkRegblock (u8 (Z.lor (u8 (spcr d)) (Z.lor SPCR_MSTR SPCR_SPE)))
             (u8 (Z.land (u8 (sfcp d)) (Z.lnot SFCP_MEMEN)))
             (u8 SOFTCS_DESSERT)
             (spsr_feed d) (spsr_reads d) (fifo_feed d) (fifo_reads d)
             (fifo_pushed d).

(** The accesses of bring-up up to the drain loop. *)
Definition setup_events (va : Z) (d : regblock) : list event :=
  [ Rd (va + SPICTRL_SFCP) (u8 (sfcp d));
    Wr (u8 SOFTCS_DESSERT) (va + SPICTRL_SOFTCS);
    Rd (va + SPICTRL_SPCR) (u8 (spcr d));
    Wr (u8 (Z.lor (u8 (spcr d)) (Z.lor SPCR_MSTR SPCR_SPE))) (va + SPICTRL_SPCR);
    Rd (va + SPICTRL_SFCP) (u8 (sfcp d));
    Wr (u8 (Z.land (u8 (sfcp d)) (Z.lnot SFCP_MEMEN))) (va + SPICTRL_SFCP) ].

(** The state right after the mapping branch of bring-up. *)
Definition mapped_world (va : Z) (c : physmap_call) (m : message) (w : world)
    : world :=
  mkWorld va va (hw w) (trace w) (msgs w ++ [m]) (physmaps w ++ [c])
          (shutdown_hooks w) (spi_masters w).

Definition add_msg (m : message) (w : world) : world :=
  mkWorld (spictrl_base w) (mapped_at w) (hw w) (trace w) (msgs w ++ [m])
          (physmaps w) (shutdown_hooks w) (spi_masters w).

Definition hooked (w : world) : world :=
  mkWorld (spictrl_base w) (mapped_at w) (hw w) (trace w) (msgs w)
          (physmaps w) (S (shutdown_hooks w)) (spi_masters w).

(** The optional warning of bring-up, by the value read from
    Read-Engine-Enable. *)
Definition warned (r : Z) (w : world) : world :=
  if Z.land r SFCP_MEMEN =? 0 then add_msg MsgReadEngineOff w else w.

(** The accesses of a drain loop that meets [K] non-empty polls. *)
Fixpoint drain_events (base : Z) (d : regblock) (K : nat) : list event :=
  match K with
  | O => [Rd (base + SPICTRL_SPSR) (u8 (spsr_feed d (spsr_reads d)))]
  | S k =>
      Rd (base + SPICTRL_SPSR) (u8 (spsr_feed d (spsr_reads d)))
      :: Rd (base + SPICTRL_FIFO) (u8 (fifo_feed d (fifo_reads d)))
      :: drain_events base (bump_fifo (bump_spsr d)) k
  end.

Fixpoint drained (d : regblock) (K : nat) : regblock :=
  match K with
  | O => bump_spsr d
  | S k => drained (bump_fifo (bump_spsr d)) k
  end.

Definition names_64c : list string :=
  ["3b1500"; "3a2000"; "3b2000"; "3a3000"; "3b3000"]%string.

Definition names_64g : list string := ["3a4000"; "3b4000"]%string.

(** The number of FIFO reads among some accesses. *)
Definition fifo_pops (base : Z) (evs : list event) : nat :=
  length (filter (fun ev => match ev with
                            | Rd a _ => a =? base + SPICTRL_FIFO
                            | Wr _ _ => false
                            end) evs).

(** The value a run returned, if it returned. *)
Definition returned {A} (o : outcome A) : option A :=
  match o with Done a _ => Some a | _ => None end.

(** The bytes written to FIFO among some accesses, in order. *)
Definition fifo_writes (base : Z) (evs : list event) : list Z :=
  flat_map (fun ev => match ev with
                      | Wr v a => if a =? base + SPICTRL_FIFO then [v] else []
                      | Rd _ _ => []
                      end) evs.

(** The specification's wording of the FIFO writes of a transaction,
    for comparison with the code: the write bytes, then [readcnt] more
    bytes of [writearr] taken from index [writecnt] on. *)
Definition spec_fifo_writes (writecnt readcnt : nat) (writearr : list Z)
    : list Z :=
  map u8 (firstn writecnt writearr)
  ++ map u8 (firstn readcnt (skipn writecnt writearr)).

(** The first [n] bytes that memory holds at a pointer to [array] when
    it goes on behind the array with the bytes [after 0], [after 1], ...:
    the array itself and, past its end, as many of the following bytes as
    it takes to reach [n]. *)
Definition readable_at (array : list Z) (after : nat -> Z) (n : nat) : list Z :=
  array ++ map after (seq 0 (n - length array)).



(** The first [n] (poll, pop) pairs of a drain loop, without the poll
    that closes it. *)
Fixpoint drain_pairs (base : Z) (d : regblock) (n : nat) : list event :=
  match n with
  | O => []
  | S k =>
      Rd (base + SPICTRL_SPSR) (u8 (spsr_feed d (spsr_reads d)))
      :: Rd (base + SPICTRL_FIFO) (u8 (fifo_feed d (fifo_reads d)))
      :: drain_pairs base (bump_fifo (bump_spsr d)) k
  end.

(** A controller mapped at 0x1000 whose Status shows the read FIFO empty
    once before each byte arrives. *)
Definition bench_world : world := sim_world 0x1000 (sim_block (paced 1) 0 0).

(** An identify command followed by three more bytes in the same
    array. *)
Definition long_buffer : list Z := [0x9F; 0x11; 0x22; 0x33].

(** A 3A4000 machine: the block gets mapped at 0x1000, the shutdown hook
    is accepted, Control and Read-Engine-Enable hold 0x8F and 0xFF, and
    two stale bytes sit in the read FIFO. *)
Definition boot_env : env := sim_env (Some "3a4000"%string) 0x1000 0.
Definition boot_world : world := sim_world 0 (sim_block (stale 2) 0x8F 0xFF).

(** ** Vocabulary of the further properties *)

(** An access to Status or to FIFO through the handle [base]. *)
Definition data_access (base : Z) (e : event) : Prop :=
  ev_addr e = base + SPICTRL_SPSR \/ ev_addr e = base + SPICTRL_FIFO.

(** Every run of [m], finished or not, keeps the handle and only adds
    accesses to Status and FIFO. *)
Definition data_only {A} (m : M A) : Prop :=
  forall w,
    spictrl_base (final (m w)) = spictrl_base w /\
    exists evs,
      trace (final (m w)) = trace w ++ evs /\
      Forall (data_access (spictrl_base w)) evs.

(** The handle is non-null and is where the block is mapped: the state
    bring-up leaves behind. *)
Definition mapped_handle (w : world) : Prop :=
  mapped_at w = spictrl_base w /\ spictrl_base w <> 0.

(** [w'] has the handle, the mapping, the storage registers other than
    Soft-Chip-Select and the response sequences of [w]. *)
Record same_controller (w w' : world) : Prop := mkSameController {
  sc_base : spictrl_base w' = spictrl_base w;
  sc_map : mapped_at w' = mapped_at w;
  sc_spcr : spcr (hw w') = spcr (hw w);
  sc_sfcp : sfcp (hw w') = sfcp (hw w);
  sc_sfeed : spsr_feed (hw w') = spsr_feed (hw w);
  sc_ffeed : fifo_feed (hw w') = fifo_feed (hw w)
}.

(** The messages of the warning step. *)
Definition warning_for (r : Z) : list message :=
  if Z.land r SFCP_MEMEN =? 0 then [MsgReadEngineOff] else [].

(** The environment lets bring-up through: a recognised platform
    identifier, a mapping that succeeds, a shutdown hook that is
    accepted. *)
Definition accepts (e : env) : Prop :=
  exists cpu descr phys,
    cpu_param e = Some cpu /\ platform cpu = Some (descr, phys) /\
    rphysmap_result e descr phys LOONGSON3_SPI_REG_SIZE <> 0 /\
    register_shutdown_rc e = 0.

(** A poll of Status that shows the read FIFO empty. *)
Definition busy_poll (base : Z) (e : event) : Prop :=
  exists s, e = Rd (base + SPICTRL_SPSR) s /\ rf_empty s = true.

(** A controller mapped at 0x1000 whose Status shows the read FIFO
    empty at every read. *)
Definition silent_world : world :=
  sim_world 0x1000 (sim_block (fun _ => 0x05) 0 0).

(** A machine whose Status shows the read FIFO non-empty at every
    read. *)
Definition flooded_world : world := sim_world 0 (sim_block (fun _ => 0x04) 0 0).

(** The [n] Status reads that start at read number [r] of the
    hardware's response sequence. *)
Definition polls_from (base : Z) (d : regblock) (r n : nat) : list event :=
  map (fun j => Rd (base + SPICTRL_SPSR) (u8 (spsr_feed d (r + j)))) (seq 0 n).

Definition is_write (e : event) : bool :=
  match e with Wr _ _ => true | Rd _ _ => false end.

(** The three register writes of bring-up, in program order. *)
Definition setup_writes (va : Z) (d : regblock) : list event :=
  [ Wr (u8 SOFTCS_DESSERT) (va + SPICTRL_SOFTCS);
    Wr (u8 (Z.lor (u8 (spcr d)) (Z.lor SPCR_MSTR SPCR_SPE))) (va + SPICTRL_SPCR);
    Wr (u8 (Z.land (u8 (sfcp d)) (Z.lnot SFCP_MEMEN))) (va + SPICTRL_SFCP) ].

(** ** Reasoning about runs *)

Lemma bind_done {A B} (m : M A) (k : A -> M B) (w w2 : world) (b : B) :
  bind m k w = Done b w2 ->
  exists a w1, m w = Done a w1 /\ k a w1 = Done b w2.
Proof.
  unfold bind. destruct (m w) as [a w1 | f w1 | w1]; intros H.
  - exists a, w1. split; [reflexivity | exact H].
  - discriminate H.
  - discriminate H.
Qed.

Lemma bind_intro {A B} (m : M A) (k : A -> M B) (w w1 w2 : world) (a : A)
    (b : B) :
  m w = Done a w1 -> k a w1 = Done b w2 -> bind m k w = Done b w2.
Proof. unfold bind. intros -> H. exact H. Qed.

Lemma bind_step {A B} (m : M A) (k : A -> M B) (w w1 : world) (a : A) :
  m w = Done a w1 -> bind m k w = k a w1.
Proof. unfold bind. intros ->. reflexivity. Qed.

Lemma extends_refl (w : world) : extends w w.
Proof.
  constructor; try reflexivity.
  exists []. split; [symmetry; apply app_nil_r | constructor].
Qed.

Lemma extends_trans (w1 w2 w3 : world) :
  extends w1 w2 -> extends w2 w3 -> extends w1 w3.
Proof.
  intros [b1 m1 s1 f1 p1 [e1 [t1 a1]]] [b2 m2 s2 f2 p2 [e2 [t2 a2]]].
  constructor; try congruence.
  exists (e1 ++ e2). split.
  - rewrite t2, t1. symmetry. apply app_assoc.
  - apply Forall_app. split; [exact a1 |]. rewrite b1 in a2. exact a2.
Qed.

Lemma framed_ret {A} (a : A) : framed (ret a).
Proof. intros w. apply extends_refl. Qed.

Lemma framed_bind {A B} (m : M A) (k : A -> M B) :
  framed m -> (forall a, framed (k a)) -> framed (bind m k).
Proof.
  intros Hm Hk w. unfold bind. specialize (Hm w).
  destruct (m w) as [a w1 | f w1 | w1]; simpl in *; try exact Hm.
  eapply extends_trans; [exact Hm | apply Hk].
Qed.

Lemma framed_msg (m : message) : framed (msg m).
Proof.
  intros w. constructor; try reflexivity.
  exists []. split; [symmetry; apply app_nil_r | constructor].
Qed.

Lemma framed_get_base : framed get_base.
Proof. intros w. apply extends_refl. Qed.

Lemma dev_readb_feeds (off : Z) (d : regblock) :
  spsr_feed (snd (dev_readb off d)) = spsr_feed d /\
  fifo_feed (snd (dev_readb off d)) = fifo_feed d.
Proof.
  unfold dev_readb.
  repeat match goal with
         | |- context [if ?c then _ else _] => destruct c
         end; split; reflexivity.
Qed.

Lemma dev_writeb_feeds (v off : Z) (d : regblock) :
  spsr_feed (dev_writeb v off d) = spsr_feed d /\
  fifo_feed (dev_writeb v off d) = fifo_feed d.
Proof.
  unfold dev_writeb.
  repeat match goal with
         | |- context [if ?c then _ else _] => destruct c
         end; split; reflexivity.
Qed.

Lemma extends_one (w w' : world) (e : event) :
  spictrl_base w' = spictrl_base w -> mapped_at w' = mapped_at w ->
  spsr_feed (hw w') = spsr_feed (hw w) ->
  fifo_feed (hw w') = fifo_feed (hw w) ->
  physmaps w' = physmaps w ->
  trace w' = trace w ++ [e] -> at_register (spictrl_base w) e ->
  extends w w'.
Proof.
  intros. constructor; try assumption.
  exists [e]. split; [assumption | constructor; [assumption | constructor]].
Qed.

Lemma offset_in (base off : Z) : In off offsets -> In (base + off - base) offsets.
Proof. intros H. replace (base + off - base) with off by lia. exact H. Qed.

Lemma extends_bind {A B} (m : M A) (k : A -> M B) (w : world) :
  extends w (final (m w)) -> (forall a, framed (k a)) ->
  extends w (final (bind m k w)).
Proof.
  intros Hm Hk. unfold bind.
  destruct (m w) as [a w1 | f w1 | w1]; simpl in *; try exact Hm.
  eapply extends_trans; [exact Hm | apply Hk].
Qed.

Lemma extends_mmio_readb (off : Z) (w : world) :
  In off offsets ->
  extends w (final (mmio_readb (spictrl_base w + off) w)).
Proof.
  intros Hoff. unfold mmio_readb.
  destruct (on_block w (spictrl_base w + off)); simpl.
  - destruct (dev_readb_feeds (spictrl_base w + off - mapped_at w) (hw w))
      as [Hs Hf].
    eapply extends_one; simpl; try reflexivity; try assumption.
    apply offset_in, Hoff.
  - eapply extends_one; simpl; try reflexivity.
    apply offset_in, Hoff.
Qed.

Lemma extends_mmio_writeb (v off : Z) (w : world) :
  In off offsets ->
  extends w (final (mmio_writeb v (spictrl_base w + off) w)).
Proof.
  intros Hoff. unfold mmio_writeb.
  destruct (on_block w (spictrl_base w + off)); simpl.
  - destruct (dev_writeb_feeds (u8 v) (spictrl_base w + off - mapped_at w) (hw w))
      as [Hs Hf].
    eapply extends_one; simpl; try reflexivity; try assumption.
    apply offset_in, Hoff.
  - eapply extends_one; simpl; try reflexivity.
    apply offset_in, Hoff.
Qed.

Lemma framed_reg_read {B} (off : Z) (k : Z -> M B) :
  In off offsets -> (forall v, framed (k v)) ->
  framed (a <- reg off ;; v <- mmio_readb a ;; k v).
Proof.
  intros Hoff Hk w. unfold bind at 1. unfold reg.
  apply extends_bind; [apply extends_mmio_readb, Hoff | exact Hk].
Qed.

Lemma framed_reg_write {B} (off v : Z) (k : M B) :
  In off offsets -> framed k ->
  framed (a <- reg off ;; mmio_writeb v a ;;; k).
Proof.
  intros Hoff Hk w. unfold bind at 1. unfold reg.
  apply extends_bind; [apply extends_mmio_writeb, Hoff | intros _; exact Hk].
Qed.

Lemma in_offsets_spcr : In SPICTRL_SPCR offsets.
Proof. simpl; auto. Qed.
Lemma in_offsets_spsr : In SPICTRL_SPSR offsets.
Proof. simpl; auto. Qed.
Lemma in_offsets_fifo : In SPICTRL_FIFO offsets.
Proof. simpl; auto. Qed.
Lemma in_offsets_sfcp : In SPICTRL_SFCP offsets.
Proof. simpl; auto 6. Qed.
Lemma in_offsets_softcs : In SPICTRL_SOFTCS offsets.
Proof. simpl; auto 6. Qed.

Create HintDb frame discriminated.
#[local] Hint Resolve framed_ret framed_msg framed_get_base
  in_offsets_spcr in_offsets_spsr in_offsets_fifo in_offsets_sfcp
  in_offsets_softcs : frame.

Lemma framed_wait (fuel : nat) : framed (wait_rf_not_empty fuel).
Proof.
  induction fuel as [| f IH]; simpl.
  - intros w. apply extends_refl.
  - apply framed_reg_read; auto with frame.
    intros v. destruct (Z.land v SPSR_RFEMPTY =? 0); auto with frame.
Qed.

Lemma framed_drain (fuel : nat) : framed (drain_fifo fuel).
Proof.
  induction fuel as [| f IH]; simpl.
  - intros w. apply extends_refl.
  - apply framed_reg_read; auto with frame.
    intros v. destruct (Z.land v SPSR_RFEMPTY =? 0); auto with frame.
    apply framed_reg_read; auto with frame.
Qed.

Lemma framed_load (p : phase) (l : list Z) (i : nat) : framed (load p l i).
Proof.
  intros w. unfold load. destruct (nth_error l i); apply extends_refl.
Qed.

Lemma framed_store (l : list Z) (i : nat) (v : Z) : framed (store l i v).
Proof.
  intros w. unfold store. destruct (update l i v); apply extends_refl.
Qed.

#[local] Hint Resolve framed_wait framed_drain framed_load framed_store : frame.

Lemma framed_write_phase (fuel : nat) (writearr : list Z) (n i : nat) :
  framed (write_phase fuel writearr i n).
Proof.
  revert i. induction n as [| n IH]; intros i; simpl; auto with frame.
  apply framed_bind; auto with frame. intros b.
  apply framed_reg_write; auto with frame.
  apply framed_bind; auto with frame. intros _.
  apply framed_reg_read; auto with frame.
Qed.

Lemma framed_read_phase (fuel : nat) (writearr : list Z) (n i : nat)
    (readarr : list Z) :
  framed (read_phase fuel writearr i n readarr).
Proof.
  revert i readarr. induction n as [| n IH]; intros i readarr; simpl;
    auto with frame.
  apply framed_bind; auto with frame. intros b.
  apply framed_reg_write; auto with frame.
  apply framed_bind; auto with frame. intros _.
  apply framed_reg_read; auto with frame. intros v.
  apply framed_bind; auto with frame.
Qed.

Lemma framed_send_command (fuel writecnt readcnt : nat)
    (writearr readarr : list Z) :
  framed (loongson3_spi_send_command fuel writecnt readcnt writearr readarr).
Proof.
  unfold loongson3_spi_send_command.
  apply framed_bind; auto with frame. intros _.
  apply framed_reg_write; auto with frame.
  apply framed_bind; [apply framed_write_phase |]. intros _.
  apply framed_bind; [apply framed_read_phase |]. intros ra.
  apply framed_reg_write; auto with frame.
Qed.

Lemma framed_shutdown : framed loongson3_spi_shutdown.
Proof.
  unfold loongson3_spi_shutdown.
  apply framed_bind; auto with frame. intros base.
  apply framed_bind; auto with frame.
  destruct (base =? 0); auto with frame.
  apply framed_reg_write; auto with frame.
  apply framed_reg_read; auto with frame. intros r.
  unfold framed. intros w. unfold bind at 1. unfold reg.
  apply extends_mmio_writeb. auto with frame.
Qed.

(** ** The exact traffic of a finished transaction *)

Lemma transfers_length (base : Z) (bs vs : list Z) (evs : list event) :
  transfers base bs vs evs -> length vs = length bs.
Proof. induction 1; simpl; congruence. Qed.

Lemma reg_done (off a : Z) (w w' : world) :
  reg off w = Done a w' -> a = spictrl_base w + off /\ w' = w.
Proof. unfold reg. intros H. inversion H. split; reflexivity. Qed.

Lemma mmio_readb_done (a v : Z) (w w' : world) :
  mmio_readb a w = Done v w' ->
  trace w' = trace w ++ [Rd a v] /\ spictrl_base w' = spictrl_base w.
Proof.
  unfold mmio_readb. destruct (on_block w a); intros H; inversion H;
    split; reflexivity.
Qed.

Lemma mmio_writeb_done (a v : Z) (w w' : world) (u : unit) :
  mmio_writeb v a w = Done u w' ->
  trace w' = trace w ++ [Wr (u8 v) a] /\ spictrl_base w' = spictrl_base w.
Proof.
  unfold mmio_writeb. destruct (on_block w a); intros H; inversion H;
    split; reflexivity.
Qed.

Lemma load_done (p : phase) (l : list Z) (i : nat) (b : Z) (w w' : world) :
  load p l i w = Done b w' -> nth_error l i = Some b /\ w' = w.
Proof.
  unfold load. destruct (nth_error l i); intros H; inversion H.
  split; reflexivity.
Qed.

Lemma store_done (l l' : list Z) (i : nat) (v : Z) (w w' : world) :
  store l i v w = Done l' w' -> update l i v = Some l' /\ w' = w.
Proof.
  unfold store. destruct (update l i v); intros H; inversion H.
  split; reflexivity.
Qed.

Tactic Notation "inv_bind" hyp(H) "as" ident(a) ident(w) ident(H1) :=
  apply bind_done in H; destruct H as (a & w & H1 & H).

Lemma wait_done (fuel : nat) (w w' : world) (u : unit) :
  wait_rf_not_empty fuel w = Done u w' ->
  spictrl_base w' = spictrl_base w /\
  exists polls, waited (spictrl_base w) polls /\ trace w' = trace w ++ polls.
Proof.
  revert w. induction fuel as [| f IH]; intros w H; simpl in H.
  - discriminate H.
  - inv_bind H as a w1 E1. apply reg_done in E1 as [-> ->].
    inv_bind H as s w2 E2. apply mmio_readb_done in E2 as [Ht Hb].
    destruct (Z.land s SPSR_RFEMPTY =? 0) eqn:E.
    + inversion H; subst. split; [exact Hb |].
      eexists. split; [| exact Ht].
      apply waited_ready. unfold rf_empty. rewrite E. reflexivity.
    + apply IH in H as [Hb' (polls & Hw & Ht')].
      split; [congruence |].
      exists (Rd (spictrl_base w + SPICTRL_SPSR) s :: polls). split.
      * apply waited_busy; [unfold rf_empty; rewrite E; reflexivity |].
        rewrite Hb in Hw. exact Hw.
      * rewrite Ht', Ht, <- app_assoc. reflexivity.
Qed.

Lemma nth_error_skipn_cons {A} (l : list A) (i : nat) (b : A) :
  nth_error l i = Some b -> skipn i l = b :: skipn (S i) l.
Proof.
  revert i. induction l as [| h t IH]; intros [| i] H; simpl in *;
    try discriminate.
  - inversion H. reflexivity.
  - apply IH in H. rewrite H. destruct t; reflexivity.
Qed.

Lemma update_spec (l l' : list Z) (i : nat) (v : Z) :
  update l i v = Some l' ->
  (i < length l)%nat /\ length l' = length l /\
  nth_error l' i = Some v /\
  forall j, j <> i -> nth_error l' j = nth_error l j.
Proof.
  revert i l'. induction l as [| h t IH]; intros i l' H; simpl in H.
  - discriminate H.
  - destruct i as [| i].
    + inversion H; subst. simpl. repeat split; try lia.
      intros [| j] Hj; [congruence | reflexivity].
    + destruct (update t i v) as [t' |] eqn:E; simpl in H; [| discriminate H].
      inversion H; subst. destruct (IH _ _ E) as (Hi & Hl & Hn & Ho).
      simpl. repeat split; try lia; [exact Hn |].
      intros [| j] Hj; [reflexivity | apply Ho; lia].
Qed.

Lemma update_in_range (l : list Z) (i : nat) (v : Z) :
  (i < length l)%nat -> exists l', update l i v = Some l'.
Proof.
  revert i. induction l as [| h t IH]; intros i Hi; simpl in *; [lia |].
  destruct i as [| i]; [eexists; reflexivity |].
  destruct (IH i) as [t' Ht]; [lia |]. rewrite Ht. eexists; reflexivity.
Qed.

Lemma write_phase_done (fuel : nat) (writearr : list Z) (n i : nat)
    (w w' : world) (u : unit) :
  write_phase fuel writearr i n w = Done u w' ->
  spictrl_base w' = spictrl_base w /\
  exists popped evs,
    length popped = n /\
    transfers (spictrl_base w) (map u8 (firstn n (skipn i writearr))) popped evs /\
    trace w' = trace w ++ evs.
Proof.
  revert i w. induction n as [| n IH]; intros i w H; simpl in H.
  - inversion H; subst. split; [reflexivity |].
    exists [], []. simpl. repeat split; [constructor | symmetry; apply app_nil_r].
  - inv_bind H as b w1 E1. apply load_done in E1 as [Hnth ->].
    inv_bind H as a w2 E2. apply reg_done in E2 as [-> ->].
    inv_bind H as u1 w3 E3. apply mmio_writeb_done in E3 as [Ht1 Hb1].
    inv_bind H as u2 w4 E4. apply wait_done in E4 as [Hb2 (polls & Hw & Ht2)].
    inv_bind H as a' w5 E5. apply reg_done in E5 as [-> ->].
    inv_bind H as v w6 E6. apply mmio_readb_done in E6 as [Ht3 Hb3].
    apply IH in H as (Hb4 & popped & evs & Hlen & Htr & Ht4).
    split; [congruence |].
    rewrite (nth_error_skipn_cons _ _ _ Hnth). simpl.
    exists (v :: popped). eexists. split; [simpl; congruence |]. split.
    + apply transfers_cons.
      * rewrite Hb1 in Hw. exact Hw.
      * replace (spictrl_base w) with (spictrl_base w6) by congruence.
        exact Htr.
    + rewrite Ht4, Ht3, Ht2, Ht1, Hb2, Hb1. simpl.
      repeat rewrite <- app_assoc. simpl. reflexivity.
Qed.

Lemma read_phase_done (fuel : nat) (writearr : list Z) (n i : nat)
    (readarr readarr' : list Z) (w w' : world) :
  read_phase fuel writearr i n readarr w = Done readarr' w' ->
  spictrl_base w' = spictrl_base w /\
  length readarr' = length readarr /\
  exists popped evs,
    length popped = n /\
    transfers (spictrl_base w) (map u8 (firstn n (skipn i writearr))) popped evs /\
    trace w' = trace w ++ evs /\
    (forall k, (k < n)%nat -> nth_error readarr' (i + k) = nth_error popped k) /\
    (forall j, (j < i \/ i + n <= j)%nat ->
               nth_error readarr' j = nth_error readarr j).
Proof.
  revert i readarr w. induction n as [| n IH]; intros i readarr w H; simpl in H.
  - inversion H; subst. split; [reflexivity |]. split; [reflexivity |].
    exists [], []. simpl.
    repeat split; [constructor | symmetry; apply app_nil_r | lia].
  - inv_bind H as b w1 E1. apply load_done in E1 as [Hnth ->].
    inv_bind H as a w2 E2. apply reg_done in E2 as [-> ->].
    inv_bind H as u1 w3 E3. apply mmio_writeb_done in E3 as [Ht1 Hb1].
    inv_bind H as u2 w4 E4. apply wait_done in E4 as [Hb2 (polls & Hw & Ht2)].
    inv_bind H as a' w5 E5. apply reg_done in E5 as [-> ->].
    inv_bind H as v w6 E6. apply mmio_readb_done in E6 as [Ht3 Hb3].
    inv_bind H as ra1 w7 E7. apply store_done in E7 as [Hupd ->].
    apply update_spec in Hupd as (Hi & Hl1 & Hv & Hoth).
    apply IH in H
      as (Hb4 & Hl2 & popped & evs & Hlen & Htr & Ht4 & Hin & Hout).
    split; [congruence |]. split; [congruence |].
    rewrite (nth_error_skipn_cons _ _ _ Hnth). simpl.
    exists (v :: popped). eexists. split; [simpl; congruence |]. split.
    { apply transfers_cons.
      - rewrite Hb1 in Hw. exact Hw.
      - replace (spictrl_base w) with (spictrl_base w6) by congruence.
        exact Htr. }
    split.
    { rewrite Ht4, Ht3, Ht2, Ht1, Hb2, Hb1. simpl.
      repeat rewrite <- app_assoc. simpl. reflexivity. }
    split.
    + intros [| k] Hk.
      * rewrite Nat.add_0_r. rewrite Hout by lia. exact Hv.
      * replace (i + S k)%nat with (S i + k)%nat by lia.
        simpl nth_error at 2. apply Hin. lia.
    + intros j Hj. rewrite Hout by lia. apply Hoth. lia.
Qed.

(** A finished transaction, whatever the hardware answered: status 0,
    chip-select asserted, one exchange per write byte, one exchange per
    read iteration pushing [writearr[i]] again from index 0, chip-select
    released; [readarr] holds the bytes popped in the second loop. *)
Lemma send_command_done (fuel writecnt readcnt : nat)
    (writearr readarr readarr' : list Z) (rc : Z) (w w' : world) :
  loongson3_spi_send_command fuel writecnt readcnt writearr readarr w
    = Done (rc, readarr') w' ->
  rc = 0 /\
  exists discarded popped wevs revs,
    length discarded = writecnt /\ length popped = readcnt /\
    transfers (spictrl_base w) (map u8 (firstn writecnt writearr)) discarded wevs /\
    transfers (spictrl_base w) (map u8 (firstn readcnt writearr)) popped revs /\
    trace w' = trace w
      ++ [Wr SOFTCS_ASSERT (spictrl_base w + SPICTRL_SOFTCS)]
      ++ wevs ++ revs
      ++ [Wr SOFTCS_DESSERT (spictrl_base w + SPICTRL_SOFTCS)] /\
    length readarr' = length readarr /\
    (forall k, (k < readcnt)%nat -> nth_error readarr' k = nth_error popped k) /\
    (forall j, (readcnt <= j)%nat -> nth_error readarr' j = nth_error readarr j).
Proof.
  unfold loongson3_spi_send_command. intros H.
  inv_bind H as u0 w0 E0.
  assert (Hw0 : trace w0 = trace w /\ spictrl_base w0 = spictrl_base w).
  { unfold msg in E0. inversion E0. split; reflexivity. }
  destruct Hw0 as [Ht0 Hb0]. clear E0.
  inv_bind H as a w1 E1. apply reg_done in E1 as [-> ->].
  inv_bind H as u1 w2 E2. apply mmio_writeb_done in E2 as [Ht1 Hb1].
  inv_bind H as u2 w3 E3.
  apply write_phase_done in E3 as (Hb2 & discarded & wevs & Hl2 & Htr2 & Ht2).
  inv_bind H as ra w4 E4.
  apply read_phase_done in E4
    as (Hb3 & Hl3 & popped & revs & Hlp & Htr3 & Ht3 & Hin & Hout).
  inv_bind H as a' w5 E5. apply reg_done in E5 as [-> ->].
  inv_bind H as u3 w6 E6. apply mmio_writeb_done in E6 as [Ht4 Hb4].
  inversion H; subst rc readarr' w6. clear H.
  split; [reflexivity |].
  exists discarded, popped, wevs, revs.
  split; [exact Hl2 |]. split; [exact Hlp |].
  simpl skipn in Htr2, Htr3.
  split; [replace (spictrl_base w) with (spictrl_base w2) by congruence;
          exact Htr2 |].
  split; [replace (spictrl_base w) with (spictrl_base w3) by congruence;
          exact Htr3 |].
  split.
  { rewrite Ht4, Ht3, Ht2, Ht1, Ht0.
    replace (spictrl_base w4) with (spictrl_base w) by congruence.
    rewrite Hb0. repeat rewrite <- app_assoc. reflexivity. }
  split; [exact Hl3 |]. split.
  - intros k Hk. apply (Hin k Hk).
  - intros j Hj. apply Hout. lia.
Qed.

(** ** Accesses through a handle that matches the mapping *)

Lemma block_hit (va off : Z) :
  va <> 0 -> 0 <= off < LOONGSON3_SPI_REG_SIZE ->
  negb (va =? 0) && (va <=? va + off) && (va + off <? va + LOONGSON3_SPI_REG_SIZE)
  = true.
Proof.
  intros Hva Hoff.
  destruct (Z.eqb_spec va 0); [contradiction |].
  destruct (Z.leb_spec va (va + off)); [| lia].
  destruct (Z.ltb_spec (va + off) (va + LOONGSON3_SPI_REG_SIZE)); [| lia].
  reflexivity.
Qed.

Lemma offsets_in_block (off : Z) :
  In off offsets -> 0 <= off < LOONGSON3_SPI_REG_SIZE.
Proof.
  unfold offsets, LOONGSON3_SPI_REG_SIZE. simpl.
  intros [<- | [<- | [<- | [<- | [<- | []]]]]]; cbv; split; congruence.
Qed.

Lemma mmio_readb_hit (off : Z) (w : world) :
  mapped_at w = spictrl_base w -> spictrl_base w <> 0 -> In off offsets ->
  mmio_readb (spictrl_base w + off) w
  = Done (fst (dev_readb off (hw w)))
         (log_event (Rd (spictrl_base w + off) (fst (dev_readb off (hw w))))
                    (set_hw (snd (dev_readb off (hw w))) w)).
Proof.
  intros Hm Hb Hoff. unfold mmio_readb, on_block. rewrite Hm.
  rewrite block_hit by (auto using offsets_in_block).
  replace (spictrl_base w + off - spictrl_base w) with off by lia.
  reflexivity.
Qed.

Lemma mmio_writeb_hit (v off : Z) (w : world) :
  mapped_at w = spictrl_base w -> spictrl_base w <> 0 -> In off offsets ->
  mmio_writeb v (spictrl_base w + off) w
  = Done tt (log_event (Wr (u8 v) (spictrl_base w + off))
                       (set_hw (dev_writeb (u8 v) off (hw w)) w)).
Proof.
  intros Hm Hb Hoff. unfold mmio_writeb, on_block. rewrite Hm.
  rewrite block_hit by (auto using offsets_in_block).
  replace (spictrl_base w + off - spictrl_base w) with off by lia.
  reflexivity.
Qed.

Lemma mmio_readb_miss (off : Z) (w : world) :
  mapped_at w = 0 ->
  mmio_readb (spictrl_base w + off) w
  = Done 0 (log_event (Rd (spictrl_base w + off) 0) w).
Proof.
  intros Hm. unfold mmio_readb, on_block. rewrite Hm. reflexivity.
Qed.

Lemma mmio_readb_total (a : Z) (w : world) :
  exists v w', mmio_readb a w = Done v w'.
Proof.
  unfold mmio_readb. destruct (on_block w a); eexists; eexists; reflexivity.
Qed.

Lemma mmio_writeb_total (v a : Z) (w : world) :
  exists w', mmio_writeb v a w = Done tt w'.
Proof.
  unfold mmio_writeb. destruct (on_block w a); eexists; reflexivity.
Qed.

Lemma dev_readb_spsr (d : regblock) :
  dev_readb SPICTRL_SPSR d = (u8 (spsr_feed d (spsr_reads d)), bump_spsr d).
Proof. reflexivity. Qed.

Lemma dev_readb_fifo (d : regblock) :
  dev_readb SPICTRL_FIFO d = (u8 (fifo_feed d (fifo_reads d)), bump_fifo d).
Proof. reflexivity. Qed.

Lemma dev_readb_spcr (d : regblock) : dev_readb SPICTRL_SPCR d = (u8 (spcr d), d).
Proof. reflexivity. Qed.

Lemma dev_readb_sfcp (d : regblock) : dev_readb SPICTRL_SFCP d = (u8 (sfcp d), d).
Proof. reflexivity. Qed.

Lemma poll_hit (w : world) :
  mapped_at w = spictrl_base w -> spictrl_base w <> 0 ->
  mmio_readb (spictrl_base w + SPICTRL_SPSR) w
  = Done (u8 (spsr_feed (hw w) (spsr_reads (hw w)))) (polled w).
Proof.
  intros Hm Hb. rewrite mmio_readb_hit by auto using in_offsets_spsr.
  rewrite dev_readb_spsr. reflexivity.
Qed.

Lemma pop_hit (w : world) :
  mapped_at w = spictrl_base w -> spictrl_base w <> 0 ->
  mmio_readb (spictrl_base w + SPICTRL_FIFO) w
  = Done (u8 (fifo_feed (hw w) (fifo_reads (hw w)))) (popped_one w).
Proof.
  intros Hm Hb. rewrite mmio_readb_hit by auto using in_offsets_fifo.
  rewrite dev_readb_fifo. reflexivity.
Qed.

Lemma wait_unfold (f : nat) (w : world) :
  wait_rf_not_empty (S f) w
  = match mmio_readb (spictrl_base w + SPICTRL_SPSR) w with
    | Done s w1 =>
        if Z.land s SPSR_RFEMPTY =? 0 then Done tt w1
        else wait_rf_not_empty f w1
    | Fault x w1 => Fault x w1
    | Spin w1 => Spin w1
    end.
Proof.
  simpl. unfold bind at 1. unfold reg. unfold bind.
  destruct (mmio_readb (spictrl_base w + SPICTRL_SPSR) w) as [s w1 | x w1 | w1];
    try reflexivity.
  destruct (Z.land s SPSR_RFEMPTY =? 0); reflexivity.
Qed.

(** ** Hardware under which every busy-wait ends *)

Lemma live_extends (w w' : world) : live w -> extends w w' -> live w'.
Proof.
  intros [Hm Hu] [Hb Hm' Hs _ _ _]. split; [congruence |].
  unfold unblocks in *. rewrite Hs. exact Hu.
Qed.

Lemma wait_hits (m : nat) :
  forall w, mapped_at w = spictrl_base w -> spictrl_base w <> 0 ->
    rf_empty (u8 (spsr_feed (hw w) (spsr_reads (hw w) + m))) = false ->
    exists w', forall fuel, (m < fuel)%nat ->
      wait_rf_not_empty fuel w = Done tt w'.
Proof.
  induction m as [| m IH]; intros w Hm Hb Hready.
  - rewrite Nat.add_0_r in Hready.
    exists (polled w). intros [| f] Hf; [lia |].
    rewrite wait_unfold, poll_hit by assumption.
    unfold rf_empty in Hready.
    apply negb_false_iff in Hready. rewrite Hready. reflexivity.
  - destruct (rf_empty (u8 (spsr_feed (hw w) (spsr_reads (hw w))))) eqn:E.
    + destruct (IH (polled w)) as [w' Hw']; try assumption.
      { simpl. rewrite Nat.add_succ_r in Hready. exact Hready. }
      exists w'. intros [| f] Hf; [lia |].
      rewrite wait_unfold, poll_hit by assumption.
      unfold rf_empty in E. apply negb_true_iff in E. rewrite E.
      apply Hw'. lia.
    + exists (polled w). intros [| f] Hf; [lia |].
      rewrite wait_unfold, poll_hit by assumption.
      unfold rf_empty in E.
      apply negb_false_iff in E. rewrite E. reflexivity.
Qed.

Lemma wait_live (w : world) :
  live w ->
  exists f0 w', forall fuel, (f0 <= fuel)%nat ->
    wait_rf_not_empty fuel w = Done tt w'.
Proof.
  intros [Hm Hu]. destruct (Z.eq_dec (spictrl_base w) 0) as [Hz | Hnz].
  - exists 1%nat. eexists. intros [| f] Hf; [lia |].
    rewrite wait_unfold, mmio_readb_miss by congruence. reflexivity.
  - destruct (Hu (spsr_reads (hw w))) as [m Hready].
    destruct (wait_hits m w Hm Hnz Hready) as [w' Hw'].
    exists (S m), w'. intros fuel Hf. apply Hw'. lia.
Qed.

Lemma load_in_range (p : phase) (l : list Z) (i : nat) (w : world) :
  (i < length l)%nat -> exists b, nth_error l i = Some b /\ load p l i w = Done b w.
Proof.
  intros Hi. unfold load. destruct (nth_error l i) as [b |] eqn:E.
  - exists b. split; reflexivity.
  - apply nth_error_None in E. lia.
Qed.

Lemma reg_eq (off : Z) (w : world) : reg off w = Done (spictrl_base w + off) w.
Proof. reflexivity. Qed.

Ltac step_by E := rewrite (bind_step _ _ _ _ _ E).

(** One exchange on live hardware: push, wait, pop. *)
Lemma exchange_live (b : Z) (w : world) :
  live w ->
  exists f0 v w3, live w3 /\
    forall fuel, (f0 <= fuel)%nat ->
      forall (B : Type) (k : Z -> M B),
        (a <- reg SPICTRL_FIFO ;;
         mmio_writeb b a ;;;
         wait_rf_not_empty fuel ;;;
         a <- reg SPICTRL_FIFO ;;
         v <- mmio_readb a ;;
         k v) w = k v w3.
Proof.
  intros Hl.
  destruct (mmio_writeb_total b (spictrl_base w + SPICTRL_FIFO) w) as [w1 E1].
  assert (L1 : live w1).
  { apply (live_extends w); [exact Hl |].
    pose proof (extends_mmio_writeb b SPICTRL_FIFO w in_offsets_fifo) as X.
    rewrite E1 in X. exact X. }
  destruct (wait_live w1 L1) as (f1 & w2 & E2).
  assert (L2 : live w2).
  { apply (live_extends w1); [exact L1 |].
    pose proof (framed_wait f1 w1) as X.
    rewrite (E2 f1) in X by lia. exact X. }
  destruct (mmio_readb_total (spictrl_base w2 + SPICTRL_FIFO) w2)
    as (v & w3 & E3).
  assert (L3 : live w3).
  { apply (live_extends w2); [exact L2 |].
    pose proof (extends_mmio_readb SPICTRL_FIFO w2 in_offsets_fifo) as X.
    rewrite E3 in X. exact X. }
  exists f1, v, w3. split; [exact L3 |].
  intros fuel Hf B k.
  step_by (reg_eq SPICTRL_FIFO w). step_by E1.
  step_by (E2 fuel Hf). step_by (reg_eq SPICTRL_FIFO w2). step_by E3.
  reflexivity.
Qed.

Lemma write_phase_live (writearr : list Z) (n : nat) :
  forall i w, (i + n <= length writearr)%nat -> live w ->
    exists f0 w', live w' /\
      forall fuel, (f0 <= fuel)%nat ->
        write_phase fuel writearr i n w = Done tt w'.
Proof.
  induction n as [| n IH]; intros i w Hlen Hl.
  - exists 0%nat, w. split; [exact Hl |]. intros fuel _. reflexivity.
  - destruct (load_in_range WritePhase writearr i w) as (b & Hb & Eload); [lia |].
    destruct (exchange_live b w Hl) as (f1 & v & w3 & L3 & Ex).
    destruct (IH (S i) w3) as (f2 & w' & L' & E'); [lia | exact L3 |].
    exists (Nat.max f1 f2), w'. split; [exact L' |].
    intros fuel Hf. simpl. step_by Eload.
    rewrite Ex by lia. apply E'. lia.
Qed.

Lemma read_phase_live (writearr : list Z) (n : nat) :
  forall i readarr w,
    (i + n <= length writearr)%nat -> (i + n <= length readarr)%nat ->
    live w ->
    exists f0 readarr' w', live w' /\
      forall fuel, (f0 <= fuel)%nat ->
        read_phase fuel writearr i n readarr w = Done readarr' w'.
Proof.
  induction n as [| n IH]; intros i readarr w Hlen Hlen' Hl.
  - exists 0%nat, readarr, w. split; [exact Hl |]. intros fuel _. reflexivity.
  - destruct (load_in_range ReadPhase writearr i w) as (b & Hb & Eload); [lia |].
    destruct (exchange_live b w Hl) as (f1 & v & w3 & L3 & Ex).
    destruct (update_in_range readarr i v) as [ra1 Hupd]; [lia |].
    destruct (update_spec _ _ _ _ Hupd) as (_ & Hl1 & _ & _).
    destruct (IH (S i) ra1 w3) as (f2 & ra' & w' & L' & E');
      [lia | lia | exact L3 |].
    exists (Nat.max f1 f2), ra', w'. split; [exact L' |].
    intros fuel Hf. simpl. step_by Eload.
    rewrite Ex by lia.
    assert (Es : store readarr i v w3 = Done ra1 w3).
    { unfold store. rewrite Hupd. reflexivity. }
    step_by Es. apply E'. lia.
Qed.

(** On live hardware and with every index of both loops inside the lists, a
    large enough polling budget lets the transaction finish. *)
Lemma send_command_live (writecnt readcnt : nat) (writearr readarr : list Z)
    (w : world) :
  (writecnt <= length writearr)%nat -> (readcnt <= length writearr)%nat ->
  (readcnt <= length readarr)%nat -> live w ->
  exists f0 readarr' w',
    forall fuel, (f0 <= fuel)%nat ->
      loongson3_spi_send_command fuel writecnt readcnt writearr readarr w
      = Done (0, readarr') w'.
Proof.
  intros Hw Hr Hr' Hl.
  destruct (msg (MsgCounts writecnt readcnt) w) as [u0 w0 | |] eqn:E0;
    try discriminate E0.
  assert (L0 : live w0).
  { apply (live_extends w); [exact Hl |].
    pose proof (framed_msg (MsgCounts writecnt readcnt) w) as X.
    rewrite E0 in X. exact X. }
  destruct (mmio_writeb_total SOFTCS_ASSERT (spictrl_base w0 + SPICTRL_SOFTCS) w0)
    as [w1 E1].
  assert (L1 : live w1).
  { apply (live_extends w0); [exact L0 |].
    pose proof (extends_mmio_writeb SOFTCS_ASSERT SPICTRL_SOFTCS w0
                  in_offsets_softcs) as X.
    rewrite E1 in X. exact X. }
  destruct (write_phase_live writearr writecnt 0 w1) as (f1 & w2 & L2 & E2);
    [lia | exact L1 |].
  destruct (read_phase_live writearr readcnt 0 readarr w2)
    as (f2 & ra' & w3 & L3 & E3); [lia | lia | exact L2 |].
  destruct (mmio_writeb_total SOFTCS_DESSERT (spictrl_base w3 + SPICTRL_SOFTCS) w3)
    as [w4 E4].
  exists (Nat.max f1 f2), ra', w4. intros fuel Hf.
  unfold loongson3_spi_send_command.
  destruct u0. step_by E0. step_by (reg_eq SPICTRL_SOFTCS w0). step_by E1.
  assert (E2' := E2 fuel). step_by (E2' ltac:(lia)).
  assert (E3' := E3 fuel). step_by (E3' ltac:(lia)).
  step_by (reg_eq SPICTRL_SOFTCS w3). step_by E4. reflexivity.
Qed.

Lemma bind_fault {A B} (m : M A) (k : A -> M B) (w w1 : world) (f : fault) :
  m w = Fault f w1 -> bind m k w = Fault f w1.
Proof. unfold bind. intros ->. reflexivity. Qed.

(** One exchange on live hardware, with the accesses it makes. *)
Lemma exchange_live_trace (b : Z) (w : world) :
  live w ->
  exists f0 v w3 polls, live w3 /\
    spictrl_base w3 = spictrl_base w /\
    waited (spictrl_base w) polls /\
    trace w3 = trace w
      ++ Wr (u8 b) (spictrl_base w + SPICTRL_FIFO)
         :: polls ++ [Rd (spictrl_base w + SPICTRL_FIFO) v] /\
    forall fuel, (f0 <= fuel)%nat ->
      forall (B : Type) (k : Z -> M B),
        (a <- reg SPICTRL_FIFO ;;
         mmio_writeb b a ;;;
         wait_rf_not_empty fuel ;;;
         a <- reg SPICTRL_FIFO ;;
         v <- mmio_readb a ;;
         k v) w = k v w3.
Proof.
  intros Hl.
  destruct (mmio_writeb_total b (spictrl_base w + SPICTRL_FIFO) w) as [w1 E1].
  assert (L1 : live w1).
  { apply (live_extends w); [exact Hl |].
    pose proof (extends_mmio_writeb b SPICTRL_FIFO w in_offsets_fifo) as X.
    rewrite E1 in X. exact X. }
  destruct (wait_live w1 L1) as (f1 & w2 & E2).
  assert (L2 : live w2).
  { apply (live_extends w1); [exact L1 |].
    pose proof (framed_wait f1 w1) as X.
    rewrite (E2 f1) in X by lia. exact X. }
  destruct (mmio_readb_total (spictrl_base w2 + SPICTRL_FIFO) w2)
    as (v & w3 & E3).
  assert (L3 : live w3).
  { apply (live_extends w2); [exact L2 |].
    pose proof (extends_mmio_readb SPICTRL_FIFO w2 in_offsets_fifo) as X.
    rewrite E3 in X. exact X. }
  destruct (mmio_writeb_done _ _ _ _ _ E1) as [T1 B1].
  destruct (wait_done f1 w1 w2 tt (E2 f1 (Nat.le_refl f1)))
    as [B2 (polls & Hw & T2)].
  destruct (mmio_readb_done _ _ _ _ E3) as [T3 B3].
  exists f1, v, w3, polls. split; [exact L3 |].
  split; [congruence |].
  split; [rewrite B1 in Hw; exact Hw |].
  split.
  { rewrite T3, T2, T1, B2, B1. rewrite <- !app_assoc. reflexivity. }
  intros fuel Hf B k.
  step_by (reg_eq SPICTRL_FIFO w). step_by E1.
  step_by (E2 fuel Hf). step_by (reg_eq SPICTRL_FIFO w2). step_by E3.
  reflexivity.
Qed.

(** The accesses of the second loop up to the index at which it leaves
    [writearr]: one exchange for every byte from [i] to the end of the
    list. *)
Lemma read_phase_fault_trace (writearr : list Z) (n : nat) :
  forall i readarr w,
    (i <= length writearr)%nat -> (length writearr < i + n)%nat ->
    (length writearr <= length readarr)%nat -> live w ->
    exists f0 w' popped evs,
      transfers (spictrl_base w) (map u8 (skipn i writearr)) popped evs /\
      trace w' = trace w ++ evs /\
      forall fuel, (f0 <= fuel)%nat ->
        read_phase fuel writearr i n readarr w
        = Fault (BadIndex Writearr ReadPhase (length writearr)) w'.
Proof.
  induction n as [| n IH]; intros i readarr w Hi Hover Hra Hl; [lia |].
  destruct (Nat.eq_dec i (length writearr)) as [-> | Hne].
  - exists 0%nat, w, [], []. rewrite skipn_all. split; [constructor |].
    split; [symmetry; apply app_nil_r |].
    intros fuel _. simpl. apply bind_fault.
    unfold load. replace (nth_error writearr (length writearr)) with (@None Z).
    + reflexivity.
    + symmetry. apply nth_error_None. lia.
  - destruct (load_in_range ReadPhase writearr i w) as (b & Hb & Eload); [lia |].
    destruct (exchange_live_trace b w Hl)
      as (f1 & v & w3 & polls & L3 & B3 & Hw & T3 & Ex).
    destruct (update_in_range readarr i v) as [ra1 Hupd]; [lia |].
    destruct (update_spec _ _ _ _ Hupd) as (_ & Hl1 & _ & _).
    destruct (IH (S i) ra1 w3) as (f2 & w' & popped & evs & Tr & T' & E');
      [lia | lia | lia | exact L3 |].
    exists (Nat.max f1 f2), w', (v :: popped).
    exists (Wr (u8 b) (spictrl_base w + SPICTRL_FIFO)
            :: polls ++ Rd (spictrl_base w + SPICTRL_FIFO) v :: evs).
    split; [| split].
    + rewrite (nth_error_skipn_cons _ _ _ Hb). cbn [map].
      apply transfers_cons; [exact Hw |].
      rewrite <- B3. exact Tr.
    + rewrite T', T3. rewrite <- !app_assoc. simpl.
      rewrite <- !app_assoc. reflexivity.
    + intros fuel Hf. simpl. step_by Eload.
      rewrite Ex by lia.
      assert (Es : store readarr i v w3 = Done ra1 w3).
      { unfold store. rewrite Hupd. reflexivity. }
      step_by Es. apply E'. lia.
Qed.

(** A transaction on live hardware whose read count goes beyond the
    end of [writearr]: chip-select is asserted, the first loop runs, the
    second loop exchanges every byte of [writearr], and the run ends at
    the index that follows. *)
Lemma send_command_fault_trace (writecnt readcnt : nat)
    (writearr readarr : list Z) (w : world) :
  (writecnt <= length writearr)%nat -> (length writearr < readcnt)%nat ->
  (readcnt <= length readarr)%nat -> live w ->
  exists f0 w' discarded popped wevs revs,
    (forall fuel, (f0 <= fuel)%nat ->
       loongson3_spi_send_command fuel writecnt readcnt writearr readarr w
       = Fault (BadIndex Writearr ReadPhase (length writearr)) w') /\
    length popped = length writearr /\
    transfers (spictrl_base w) (map u8 (firstn writecnt writearr)) discarded wevs /\
    transfers (spictrl_base w) (map u8 writearr) popped revs /\
    trace w' = trace w
      ++ [Wr SOFTCS_ASSERT (spictrl_base w + SPICTRL_SOFTCS)]
      ++ wevs ++ revs.
Proof.
  intros Hw Hr Hr' Hl.
  destruct (msg (MsgCounts writecnt readcnt) w) as [u0 w0 | |] eqn:E0;
    try discriminate E0.
  assert (Hw0 : trace w0 = trace w /\ spictrl_base w0 = spictrl_base w).
  { unfold msg in E0. inversion E0. split; reflexivity. }
  destruct Hw0 as [T0 B0].
  assert (L0 : live w0).
  { apply (live_extends w); [exact Hl |].
    pose proof (framed_msg (MsgCounts writecnt readcnt) w) as X.
    rewrite E0 in X. exact X. }
  destruct (mmio_writeb_total SOFTCS_ASSERT (spictrl_base w0 + SPICTRL_SOFTCS) w0)
    as [w1 E1].
  destruct (mmio_writeb_done _ _ _ _ _ E1) as [T1 B1].
  assert (L1 : live w1).
  { apply (live_extends w0); [exact L0 |].
    pose proof (extends_mmio_writeb SOFTCS_ASSERT SPICTRL_SOFTCS w0
                  in_offsets_softcs) as X.
    rewrite E1 in X. exact X. }
  destruct (write_phase_live writearr writecnt 0 w1) as (f1 & w2 & L2 & E2);
    [lia | exact L1 |].
  destruct (write_phase_done f1 writearr writecnt 0 w1 w2 tt
              (E2 f1 (Nat.le_refl f1)))
    as (B2 & discarded & wevs & _ & Tr2 & T2).
  destruct (read_phase_fault_trace writearr readcnt 0 readarr w2)
    as (f2 & w3 & popped & revs & Tr3 & T3 & E3); [lia | lia | lia | exact L2 |].
  exists (Nat.max f1 f2), w3, discarded, popped, wevs, revs.
  simpl skipn in Tr2, Tr3.
  split; [| split; [| split; [| split]]].
  - intros fuel Hf. unfold loongson3_spi_send_command.
    destruct u0. step_by E0. step_by (reg_eq SPICTRL_SOFTCS w0). step_by E1.
    assert (E2' := E2 fuel). step_by (E2' ltac:(lia)).
    apply bind_fault. apply E3. lia.
  - apply transfers_length in Tr3. rewrite length_map in Tr3. exact Tr3.
  - replace (spictrl_base w) with (spictrl_base w1) by congruence. exact Tr2.
  - replace (spictrl_base w) with (spictrl_base w2) by congruence. exact Tr3.
  - rewrite T3, T2, T1, T0, B0. rewrite <- !app_assoc. reflexivity.
Qed.

(** A transaction that finishes has found every index of both loops
    inside the lists. *)
Lemma send_command_done_in_range (fuel writecnt readcnt : nat)
    (writearr readarr : list Z) (r : Z * list Z) (w w' : world) :
  loongson3_spi_send_command fuel writecnt readcnt writearr readarr w
    = Done r w' ->
  (writecnt <= length writearr)%nat /\ (readcnt <= length writearr)%nat /\
  (readcnt <= length readarr)%nat.
Proof.
  destruct r as [rc ra]. intros H.
  apply send_command_done in H
    as (_ & disc & pop & wevs & revs & Hl1 & Hl2 & T1 & T2 & _ & Hlen & Hin & _).
  apply transfers_length in T1, T2.
  rewrite length_map, length_firstn in T1, T2.
  split; [lia |]. split; [lia |].
  destruct readcnt as [| k]; [lia |].
  assert (Hk : nth_error ra k <> None).
  { rewrite (Hin k) by lia. apply nth_error_Some. lia. }
  apply nth_error_Some in Hk. lia.
Qed.

(** ** Bring-up, branch by branch *)

Ltac run_reg :=
  match goal with
  | |- context [bind (reg ?off) _ ?W] =>
      rewrite (bind_step _ _ _ _ _ (reg_eq off W)); cbv beta
  end.

Ltac attached :=
  first [assumption | reflexivity | simpl; assumption | simpl; congruence].

Ltac run_read :=
  run_reg;
  match goal with
  | |- context [bind (mmio_readb (spictrl_base ?W + ?off)) _ ?W] =>
      rewrite (bind_step _ _ _ _ _
                 (mmio_readb_hit off W ltac:(attached) ltac:(attached)
                    ltac:(auto with frame)));
      cbv beta
  end.

Ltac run_write :=
  run_reg;
  match goal with
  | |- context [bind (mmio_writeb ?v (spictrl_base ?W + ?off)) _ ?W] =>
      rewrite (bind_step _ _ _ _ _
                 (mmio_writeb_hit v off W ltac:(attached) ltac:(attached)
                    ltac:(auto with frame)));
      cbv beta
  end.

Lemma init_no_cpu (e : env) (fuel : nat) (w : world) :
  cpu_param e = None ->
  exists w', loongson3_spi_init e fuel w = Done 1 w' /\
    trace w' = trace w /\ hw w' = hw w /\ physmaps w' = physmaps w /\
    spictrl_base w' = spictrl_base w.
Proof.
  intros Hcpu. unfold loongson3_spi_init.
  unfold bind at 1. unfold extract_programmer_param. rewrite Hcpu.
  eexists. split; [reflexivity |]. repeat split.
Qed.

Lemma init_unknown_cpu (e : env) (fuel : nat) (w : world) (cpu : string) :
  cpu_param e = Some cpu -> platform cpu = None ->
  exists w', loongson3_spi_init e fuel w = Done 1 w' /\
    trace w' = trace w /\ hw w' = hw w /\ physmaps w' = physmaps w /\
    spictrl_base w' = spictrl_base w.
Proof.
  intros Hcpu Hp. unfold loongson3_spi_init.
  unfold bind at 1. unfold extract_programmer_param. rewrite Hcpu.
  unfold platform in Hp.
  destruct (negb (cpu_is_loongson64c cpu =? 0)); [discriminate Hp |].
  destruct (negb (cpu_is_loongson64g cpu =? 0)); [discriminate Hp |].
  eexists. split; [reflexivity |]. repeat split.
Qed.

Lemma map_branch (e : env) (descr : string) (phys len : Z) (m : message)
    (w : world) :
  (p <- rphysmap e descr phys len ;;
   set_spictrl_base p ;;;
   msg m ;;;
   ret true) w
  = Done true (mapped_world (rphysmap_result e descr phys len)
                            (mkPhysmapCall descr phys len) m w).
Proof. reflexivity. Qed.

Lemma get_base_eq (w : world) : get_base w = Done (spictrl_base w) w.
Proof. reflexivity. Qed.

Lemma msg_eq (m : message) (w : world) : msg m w = Done tt (add_msg m w).
Proof. reflexivity. Qed.

Lemma register_shutdown_ok (e : env) (w : world) :
  register_shutdown_rc e = 0 -> register_shutdown e w = Done 0 (hooked w).
Proof. intros H. unfold register_shutdown. rewrite H. reflexivity. Qed.

Lemma register_shutdown_refused (e : env) (w : world) :
  register_shutdown_rc e <> 0 ->
  register_shutdown e w = Done (register_shutdown_rc e) w.
Proof.
  intros H. unfold register_shutdown.
  destruct (Z.eqb_spec (register_shutdown_rc e) 0); [contradiction | reflexivity].
Qed.

Lemma dev_writeb_spcr (v : Z) (d : regblock) :
  dev_writeb v SPICTRL_SPCR d
  = mkRegblock v (sfcp d) (softcs d) (spsr_feed d) (spsr_reads d)
               (fifo_feed d) (fifo_reads d) (fifo_pushed d).
Proof. reflexivity. Qed.

Lemma dev_writeb_sfcp (v : Z) (d : regblock) :
  dev_writeb v SPICTRL_SFCP d
  = mkRegblock (spcr d) v (softcs d) (spsr_feed d) (spsr_reads d)
               (fifo_feed d) (fifo_reads d) (fifo_pushed d).
Proof. reflexivity. Qed.

Lemma dev_writeb_softcs (v : Z) (d : regblock) :
  dev_writeb v SPICTRL_SOFTCS d
  = mkRegblock (spcr d) (sfcp d) v (spsr_feed d) (spsr_reads d)
               (fifo_feed d) (fifo_reads d) (fifo_pushed d).
Proof. reflexivity. Qed.

Lemma u8_idem (v : Z) : u8 (u8 v) = u8 v.
Proof. unfold u8. apply Z.mod_mod. lia. Qed.

Lemma warn_eq (r : Z) (w : world) :
  (if Z.land r SFCP_MEMEN =? 0 then msg MsgReadEngineOff else ret tt) w
  = Done tt (warned r w).
Proof. unfold warned. destruct (Z.land r SFCP_MEMEN =? 0); reflexivity. Qed.

Lemma warned_fields (r : Z) (w : world) :
  spictrl_base (warned r w) = spictrl_base w /\
  mapped_at (warned r w) = mapped_at w /\
  hw (warned r w) = hw w /\ trace (warned r w) = trace w /\
  physmaps (warned r w) = physmaps w /\
  shutdown_hooks (warned r w) = shutdown_hooks w /\
  spi_masters (warned r w) = spi_masters w.
Proof.
  unfold warned. destruct (Z.land r SFCP_MEMEN =? 0); repeat split.
Qed.

(** Bring-up from a state in which the block is mapped at the handle. *)
Lemma configure_ok (e : env) (fuel : nat) (w : world) :
  mapped_at w = spictrl_base w -> spictrl_base w <> 0 ->
  register_shutdown_rc e = 0 ->
  exists w1,
    init_configure e fuel w
    = (drain_fifo fuel ;;; register_spi_master ;;; ret 0) w1 /\
    spictrl_base w1 = spictrl_base w /\
    mapped_at w1 = spictrl_base w /\
    hw w1 = configured (hw w) /\
    trace w1 = trace w ++ setup_events (spictrl_base w) (hw w) /\
    physmaps w1 = physmaps w /\
    shutdown_hooks w1 = S (shutdown_hooks w) /\
    spi_masters w1 = spi_masters w.
Proof.
  intros Hm Hb Hrc. unfold init_configure.
  rewrite (bind_step _ _ _ _ _ (get_base_eq w)).
  destruct (Z.eqb_spec (spictrl_base w) 0) as [Hz | _]; [contradiction |].
  run_read. rewrite dev_readb_sfcp. cbn [fst snd].
  rewrite (bind_step _ _ _ _ _ (warn_eq _ _)).
  rewrite (bind_step _ _ _ _ _ (register_shutdown_ok e _ Hrc)).
  change (negb (0 =? 0)) with false. cbv iota.
  match goal with
  | |- context [warned ?r ?W] =>
      destruct (warned_fields r W) as (F1 & F2 & F3 & F4 & F5 & F6 & F7);
      generalize dependent (warned r W)
  end.
  intros W F1 F2 F3 F4 F5 F6 F7. simpl in F1, F2, F3, F4, F5, F6, F7.
  unfold hooked.
  run_write. run_read. rewrite dev_readb_spcr. cbn [fst snd].
  run_write. run_read. rewrite dev_readb_sfcp. cbn [fst snd].
  run_write.
  eexists. split; [reflexivity |].
  cbn [spictrl_base mapped_at hw trace physmaps shutdown_hooks spi_masters
       log_event set_hw].
  rewrite !dev_writeb_sfcp, !dev_writeb_spcr, !dev_writeb_softcs.
  cbn [spcr sfcp softcs spsr_feed spsr_reads fifo_feed fifo_reads fifo_pushed].
  rewrite !u8_idem, F1, F2, F3, F4, F5, F6, F7.
  repeat split; try assumption.
  unfold setup_events. repeat rewrite <- app_assoc. reflexivity.
Qed.

Lemma configure_null (e : env) (fuel : nat) (w : world) :
  spictrl_base w = 0 ->
  init_configure e fuel w = Done 1 (add_msg MsgMapFailed w).
Proof.
  intros Hz. unfold init_configure.
  rewrite (bind_step _ _ _ _ _ (get_base_eq w)). rewrite Hz. reflexivity.
Qed.

Lemma configure_refused (e : env) (fuel : nat) (w : world) :
  mapped_at w = spictrl_base w -> spictrl_base w <> 0 ->
  register_shutdown_rc e <> 0 ->
  exists w1,
    init_configure e fuel w = Done 1 w1 /\
    spictrl_base w1 = spictrl_base w /\
    hw w1 = hw w /\
    trace w1 = trace w
      ++ [Rd (spictrl_base w + SPICTRL_SFCP) (u8 (sfcp (hw w)))] /\
    physmaps w1 = physmaps w.
Proof.
  intros Hm Hb Hrc. unfold init_configure.
  rewrite (bind_step _ _ _ _ _ (get_base_eq w)).
  destruct (Z.eqb_spec (spictrl_base w) 0) as [Hz | _]; [contradiction |].
  run_read. rewrite dev_readb_sfcp. cbn [fst snd].
  rewrite (bind_step _ _ _ _ _ (warn_eq _ _)).
  rewrite (bind_step _ _ _ _ _ (register_shutdown_refused e _ Hrc)).
  destruct (Z.eqb_spec (register_shutdown_rc e) 0) as [Hz | _]; [contradiction |].
  cbn [negb].
  match goal with
  | |- context [warned ?r ?W] =>
      destruct (warned_fields r W) as (F1 & F2 & F3 & F4 & F5 & F6 & F7)
  end.
  eexists. split; [reflexivity |].
  rewrite F1, F3, F4, F5. repeat split.
Qed.

(** A recognised platform identifier: the block is mapped, the result
    becomes the handle, and bring-up goes on from there. *)
Lemma init_mapped (e : env) (fuel : nat) (w : world) (cpu descr : string)
    (phys : Z) :
  cpu_param e = Some cpu -> platform cpu = Some (descr, phys) ->
  exists m,
    loongson3_spi_init e fuel w
    = init_configure e fuel
        (mapped_world (rphysmap_result e descr phys LOONGSON3_SPI_REG_SIZE)
                      (mkPhysmapCall descr phys LOONGSON3_SPI_REG_SIZE) m w).
Proof.
  intros Hcpu Hp. unfold loongson3_spi_init.
  unfold bind at 1. unfold extract_programmer_param. rewrite Hcpu.
  unfold platform in Hp.
  destruct (negb (cpu_is_loongson64c cpu =? 0)).
  - inversion Hp; subst descr phys. exists Msg64c.
    rewrite (bind_step _ _ _ _ _ (map_branch _ _ _ _ _ _)). reflexivity.
  - destruct (negb (cpu_is_loongson64g cpu =? 0)); [| discriminate Hp].
    inversion Hp; subst descr phys. exists Msg64g.
    rewrite (bind_step _ _ _ _ _ (map_branch _ _ _ _ _ _)). reflexivity.
Qed.

Lemma init_map_failed (e : env) (fuel : nat) (w : world) (cpu descr : string)
    (phys : Z) :
  cpu_param e = Some cpu -> platform cpu = Some (descr, phys) ->
  rphysmap_result e descr phys LOONGSON3_SPI_REG_SIZE = 0 ->
  exists w',
    loongson3_spi_init e fuel w = Done 1 w' /\
    spictrl_base w' = 0 /\ hw w' = hw w /\ trace w' = trace w /\
    physmaps w'
    = physmaps w ++ [mkPhysmapCall descr phys LOONGSON3_SPI_REG_SIZE].
Proof.
  intros Hcpu Hp Hva.
  destruct (init_mapped e fuel w cpu descr phys Hcpu Hp) as [m ->].
  rewrite Hva. rewrite configure_null by reflexivity.
  eexists. split; [reflexivity |]. repeat split.
Qed.

Lemma init_hook_refused (e : env) (fuel : nat) (w : world) (cpu descr : string)
    (phys : Z) :
  cpu_param e = Some cpu -> platform cpu = Some (descr, phys) ->
  rphysmap_result e descr phys LOONGSON3_SPI_REG_SIZE <> 0 ->
  register_shutdown_rc e <> 0 ->
  exists w',
    loongson3_spi_init e fuel w = Done 1 w' /\
    spictrl_base w' = rphysmap_result e descr phys LOONGSON3_SPI_REG_SIZE /\
    hw w' = hw w /\
    trace w' = trace w
      ++ [Rd (rphysmap_result e descr phys LOONGSON3_SPI_REG_SIZE + SPICTRL_SFCP)
             (u8 (sfcp (hw w)))] /\
    physmaps w'
    = physmaps w ++ [mkPhysmapCall descr phys LOONGSON3_SPI_REG_SIZE].
Proof.
  intros Hcpu Hp Hva Hrc.
  destruct (init_mapped e fuel w cpu descr phys Hcpu Hp) as [m ->].
  destruct (configure_refused e fuel
              (mapped_world (rphysmap_result e descr phys LOONGSON3_SPI_REG_SIZE)
                 (mkPhysmapCall descr phys LOONGSON3_SPI_REG_SIZE) m w))
    as (w1 & E & F1 & F2 & F3 & F4); try assumption; try reflexivity.
  exists w1. split; [exact E |]. simpl in F1, F2, F3, F4. auto.
Qed.

Lemma init_setup (e : env) (fuel : nat) (w : world) (cpu descr : string)
    (phys : Z) :
  cpu_param e = Some cpu -> platform cpu = Some (descr, phys) ->
  rphysmap_result e descr phys LOONGSON3_SPI_REG_SIZE <> 0 ->
  register_shutdown_rc e = 0 ->
  exists w1,
    loongson3_spi_init e fuel w
      = (drain_fifo fuel ;;; register_spi_master ;;; ret 0) w1 /\
    spictrl_base w1 = rphysmap_result e descr phys LOONGSON3_SPI_REG_SIZE /\
    mapped_at w1 = rphysmap_result e descr phys LOONGSON3_SPI_REG_SIZE /\
    hw w1 = configured (hw w) /\
    trace w1 = trace w
      ++ setup_events (rphysmap_result e descr phys LOONGSON3_SPI_REG_SIZE) (hw w) /\
    physmaps w1 = physmaps w ++ [mkPhysmapCall descr phys LOONGSON3_SPI_REG_SIZE] /\
    shutdown_hooks w1 = S (shutdown_hooks w) /\
    spi_masters w1 = spi_masters w.
Proof.
  intros Hcpu Hp Hva Hrc.
  destruct (init_mapped e fuel w cpu descr phys Hcpu Hp) as [m ->].
  destruct (configure_ok e fuel
              (mapped_world (rphysmap_result e descr phys LOONGSON3_SPI_REG_SIZE)
                 (mkPhysmapCall descr phys LOONGSON3_SPI_REG_SIZE) m w))
    as (w1 & E & F); try assumption; try reflexivity.
  exists w1. split; [exact E |]. simpl in F. exact F.
Qed.

(** What a successful bring-up says about the environment. *)
Lemma init_success_inv (e : env) (fuel : nat) (w w' : world) :
  loongson3_spi_init e fuel w = Done 0 w' ->
  exists cpu descr phys,
    cpu_param e = Some cpu /\ platform cpu = Some (descr, phys) /\
    rphysmap_result e descr phys LOONGSON3_SPI_REG_SIZE <> 0 /\
    register_shutdown_rc e = 0.
Proof.
  intros H.
  destruct (cpu_param e) as [cpu |] eqn:Hcpu.
  2: { destruct (init_no_cpu e fuel w Hcpu) as (w1 & E & _).
       rewrite E in H. discriminate H. }
  destruct (platform cpu) as [[descr phys] |] eqn:Hp.
  2: { destruct (init_unknown_cpu e fuel w cpu Hcpu Hp) as (w1 & E & _).
       rewrite E in H. discriminate H. }
  destruct (Z.eq_dec (rphysmap_result e descr phys LOONGSON3_SPI_REG_SIZE) 0)
    as [Hz | Hnz].
  { destruct (init_map_failed e fuel w cpu descr phys Hcpu Hp Hz) as (w1 & E & _).
    rewrite E in H. discriminate H. }
  destruct (Z.eq_dec (register_shutdown_rc e) 0) as [Hrc | Hrc].
  2: { destruct (init_hook_refused e fuel w cpu descr phys Hcpu Hp Hnz Hrc)
         as (w1 & E & _).
       rewrite E in H. discriminate H. }
  exists cpu, descr, phys. auto.
Qed.

(** ** The drain loop *)

Lemma drain_unfold (f : nat) (w : world) :
  mapped_at w = spictrl_base w -> spictrl_base w <> 0 ->
  drain_fifo (S f) w
  = if rf_empty (u8 (spsr_feed (hw w) (spsr_reads (hw w))))
    then Done tt (polled w)
    else drain_fifo f (popped_one (polled w)).
Proof.
  intros Hm Hb. simpl.
  rewrite (bind_step _ _ _ _ _ (reg_eq SPICTRL_SPSR w)).
  rewrite (bind_step _ _ _ _ _ (poll_hit w Hm Hb)).
  unfold rf_empty.
  destruct (Z.land (u8 (spsr_feed (hw w) (spsr_reads (hw w)))) SPSR_RFEMPTY =? 0);
    [| reflexivity].
  cbn [negb].
  rewrite (bind_step _ _ _ _ _ (reg_eq SPICTRL_FIFO (polled w))).
  rewrite (bind_step _ _ _ _ _ (pop_hit (polled w) Hm Hb)).
  reflexivity.
Qed.

Lemma drain_exact (K : nat) :
  forall w, mapped_at w = spictrl_base w -> spictrl_base w <> 0 ->
    (forall j, (j < K)%nat ->
       rf_empty (u8 (spsr_feed (hw w) (spsr_reads (hw w) + j))) = false) ->
    rf_empty (u8 (spsr_feed (hw w) (spsr_reads (hw w) + K))) = true ->
    exists w',
      (forall fuel, (K < fuel)%nat -> drain_fifo fuel w = Done tt w') /\
      spictrl_base w' = spictrl_base w /\ mapped_at w' = mapped_at w /\
      hw w' = drained (hw w) K /\
      trace w' = trace w ++ drain_events (spictrl_base w) (hw w) K /\
      physmaps w' = physmaps w /\ shutdown_hooks w' = shutdown_hooks w /\
      spi_masters w' = spi_masters w.
Proof.
  induction K as [| K IH]; intros w Hm Hb Hbusy Hempty.
  - rewrite Nat.add_0_r in Hempty. exists (polled w). split.
    + intros [| f] Hf; [lia |]. rewrite drain_unfold by assumption.
      rewrite Hempty. reflexivity.
    + repeat split.
  - assert (H0 := Hbusy 0%nat ltac:(lia)). rewrite Nat.add_0_r in H0.
    destruct (IH (popped_one (polled w)))
      as (w' & E & F1 & F2 & F3 & F4 & F5 & F6 & F7); try assumption.
    { intros j Hj. simpl. specialize (Hbusy (S j) ltac:(lia)).
      rewrite Nat.add_succ_r in Hbusy. exact Hbusy. }
    { simpl. rewrite Nat.add_succ_r in Hempty. exact Hempty. }
    exists w'. split.
    + intros [| f] Hf; [lia |]. rewrite drain_unfold by assumption.
      rewrite H0. apply E. lia.
    + simpl in F1, F2, F3, F4, F5, F6, F7.
      repeat split; try assumption.
      rewrite F4. simpl. repeat rewrite <- app_assoc. reflexivity.
Qed.

(** Whatever it reads, the drain loop leaves the storage registers
    alone. *)
Lemma drain_keeps (fuel : nat) :
  forall w w' u, mapped_at w = spictrl_base w -> spictrl_base w <> 0 ->
    drain_fifo fuel w = Done u w' ->
    spcr (hw w') = spcr (hw w) /\ sfcp (hw w') = sfcp (hw w) /\
    softcs (hw w') = softcs (hw w).
Proof.
  induction fuel as [| f IH]; intros w w' u Hm Hb H.
  - discriminate H.
  - rewrite drain_unfold in H by assumption.
    destruct (rf_empty (u8 (spsr_feed (hw w) (spsr_reads (hw w))))).
    + inversion H; subst. repeat split.
    + apply IH in H; assumption.
Qed.

Lemma framed_register_spi_master : framed register_spi_master.
Proof.
  intros w. constructor; try reflexivity.
  exists []. split; [symmetry; apply app_nil_r | constructor].
Qed.

(** The shape of every successful bring-up. *)
Lemma init_success_shape (e : env) (fuel : nat) (w w' : world) :
  loongson3_spi_init e fuel w = Done 0 w' ->
  exists cpu descr phys w1 w2,
    cpu_param e = Some cpu /\ platform cpu = Some (descr, phys) /\
    rphysmap_result e descr phys LOONGSON3_SPI_REG_SIZE <> 0 /\
    register_shutdown_rc e = 0 /\
    spictrl_base w1 = rphysmap_result e descr phys LOONGSON3_SPI_REG_SIZE /\
    mapped_at w1 = rphysmap_result e descr phys LOONGSON3_SPI_REG_SIZE /\
    hw w1 = configured (hw w) /\
    trace w1 = trace w
      ++ setup_events (rphysmap_result e descr phys LOONGSON3_SPI_REG_SIZE) (hw w) /\
    drain_fifo fuel w1 = Done tt w2 /\
    extends w1 w2 /\
    spictrl_base w' = spictrl_base w2 /\ mapped_at w' = mapped_at w2 /\
    hw w' = hw w2 /\ trace w' = trace w2.
Proof.
  intros H.
  destruct (init_success_inv e fuel w w' H)
    as (cpu & descr & phys & Hcpu & Hp & Hva & Hrc).
  destruct (init_setup e fuel w cpu descr phys Hcpu Hp Hva Hrc)
    as (w1 & E & F1 & F2 & F3 & F4 & _).
  rewrite E in H.
  inv_bind H as u w2 Ed. destruct u.
  inv_bind H as u' w3 Er. inversion H; subst w3. clear H.
  unfold register_spi_master in Er. inversion Er; subst w'. clear Er.
  exists cpu, descr, phys, w1, w2.
  repeat match goal with |- _ /\ _ => split end;
    try assumption; try reflexivity.
  pose proof (framed_drain fuel w1) as X. rewrite Ed in X. exact X.
Qed.

(** ** Platform identifiers *)

Lemma platform_64c (cpu : string) :
  In cpu names_64c ->
  platform cpu = Some ("Loongson64C SPICTRL"%string, LOONGSON64C_SPI_BASE).
Proof.
  unfold names_64c. simpl.
  intros [<- | [<- | [<- | [<- | [<- | []]]]]]; reflexivity.
Qed.

Lemma platform_64g (cpu : string) :
  In cpu names_64g ->
  platform cpu = Some ("Loongson64G SPICTRL"%string, LOONGSON64G_SPI_BASE).
Proof.
  unfold names_64g. simpl. intros [<- | [<- | []]]; reflexivity.
Qed.

Lemma platform_other (cpu : string) :
  ~ In cpu names_64c -> ~ In cpu names_64g -> platform cpu = None.
Proof.
  unfold names_64c, names_64g. simpl. intros Hc Hg.
  unfold platform, cpu_is_loongson64c, cpu_is_loongson64g.
  repeat match goal with
         | |- context [String.eqb cpu ?s] =>
             destruct (String.eqb_spec cpu s) as [-> | ?]; [tauto |]
         end.
  reflexivity.
Qed.

Lemma init_final_mapped (e : env) (fuel : nat) (w : world) (cpu descr : string)
    (phys : Z) :
  cpu_param e = Some cpu -> platform cpu = Some (descr, phys) ->
  physmaps (final (loongson3_spi_init e fuel w))
  = physmaps w ++ [mkPhysmapCall descr phys LOONGSON3_SPI_REG_SIZE] /\
  spictrl_base (final (loongson3_spi_init e fuel w))
  = rphysmap_result e descr phys LOONGSON3_SPI_REG_SIZE.
Proof.
  intros Hcpu Hp.
  destruct (Z.eq_dec (rphysmap_result e descr phys LOONGSON3_SPI_REG_SIZE) 0)
    as [Hz | Hnz].
  { destruct (init_map_failed e fuel w cpu descr phys Hcpu Hp Hz)
      as (w1 & E & F1 & _ & _ & F4).
    rewrite E. simpl. split; congruence. }
  destruct (Z.eq_dec (register_shutdown_rc e) 0) as [Hrc | Hrc].
  2: { destruct (init_hook_refused e fuel w cpu descr phys Hcpu Hp Hnz Hrc)
         as (w1 & E & F1 & _ & _ & F4).
       rewrite E. simpl. split; congruence. }
  destruct (init_setup e fuel w cpu descr phys Hcpu Hp Hnz Hrc)
    as (w1 & E & F1 & _ & _ & _ & F5 & _).
  rewrite E.
  assert (X : framed (drain_fifo fuel ;;; register_spi_master ;;; ret (A:=Z) 0)).
  { apply framed_bind; [apply framed_drain |]. intros _.
    apply framed_bind; [apply framed_register_spi_master |]. intros _.
    apply framed_ret. }
  destruct (X w1) as [Xb _ _ _ Xp _]. split; congruence.
Qed.

Lemma setup_events_at (va : Z) (d : regblock) :
  Forall (at_register va) (setup_events va d).
Proof.
  unfold setup_events, at_register.
  repeat (apply Forall_cons; [simpl ev_addr; apply offset_in; auto with frame |]).
  apply Forall_nil.
Qed.

(** The guarded body of [loongson3_spi_shutdown] runs when the handle
    is null: 0x0 goes to Soft-Chip-Select and the enable bit of
    Read-Engine-Enable is set by read-modify-write, all through the null
    handle. *)
Lemma shutdown_with_null_handle (w : world) :
  spictrl_base w = 0 ->
  exists r w',
    loongson3_spi_shutdown w = Done 0 w' /\
    trace w' = trace w
      ++ [ Wr 0x0 (spictrl_base w + SPICTRL_SOFTCS);
           Rd (spictrl_base w + SPICTRL_SFCP) r;
           Wr (u8 (Z.lor r SFCP_MEMEN)) (spictrl_base w + SPICTRL_SFCP) ].
Proof.
  intros Hz. unfold loongson3_spi_shutdown.
  rewrite (bind_step _ _ _ _ _ (get_base_eq w)).
  destruct (Z.eqb_spec (spictrl_base w) 0) as [_ | Hnz]; [| contradiction].
  destruct (mmio_writeb_total 0x0 (spictrl_base w + SPICTRL_SOFTCS) w)
    as [w1 E1].
  destruct (mmio_readb_total (spictrl_base w1 + SPICTRL_SFCP) w1)
    as (r & w2 & E2).
  destruct (mmio_writeb_total (u8 (Z.lor r SFCP_MEMEN))
              (spictrl_base w2 + SPICTRL_SFCP) w2) as [w3 E3].
  exists r, w3. split.
  - eapply bind_intro; [| reflexivity].
    eapply bind_intro; [apply reg_eq |].
    eapply bind_intro; [exact E1 |].
    eapply bind_intro; [apply reg_eq |].
    eapply bind_intro; [exact E2 |].
    eapply bind_intro; [apply reg_eq |].
    exact E3.
  - apply mmio_writeb_done in E1 as [T1 B1].
    apply mmio_readb_done in E2 as [T2 B2].
    apply mmio_writeb_done in E3 as [T3 B3].
    rewrite T3, T2, T1, B2, B1, u8_idem. simpl.
    repeat rewrite <- app_assoc. reflexivity.
Qed.

(** The loop that drains the read FIFO, cut short by a budget that the
    non-empty polls use up: it has popped one byte per poll, and nothing
    else has happened. *)
Lemma drain_short (fuel : nat) :
  forall w, mapped_at w = spictrl_base w -> spictrl_base w <> 0 ->
    (forall j, (j < fuel)%nat ->
       rf_empty (u8 (spsr_feed (hw w) (spsr_reads (hw w) + j))) = false) ->
    exists w',
      drain_fifo fuel w = Spin w' /\
      trace w' = trace w ++ drain_pairs (spictrl_base w) (hw w) fuel /\
      fifo_reads (hw w') = (fifo_reads (hw w) + fuel)%nat /\
      shutdown_hooks w' = shutdown_hooks w /\
      spi_masters w' = spi_masters w.
Proof.
  induction fuel as [| f IH]; intros w Hm Hb Hbusy.
  - exists w. split; [reflexivity |]. simpl.
    repeat split; [symmetry; apply app_nil_r | lia].
  - assert (H0 := Hbusy 0%nat ltac:(lia)). rewrite Nat.add_0_r in H0.
    destruct (IH (popped_one (polled w))) as (w' & E & F1 & F2 & F3 & F4);
      try assumption.
    { intros j Hj. simpl. specialize (Hbusy (S j) ltac:(lia)).
      rewrite Nat.add_succ_r in Hbusy. exact Hbusy. }
    exists w'. split.
    + rewrite drain_unfold by assumption. rewrite H0. exact E.
    + simpl in F1, F2, F3, F4.
      split; [| split; [| split]]; try assumption.
      * rewrite F1. simpl. rewrite <- !app_assoc. reflexivity.
      * rewrite F2. lia.
Qed.

(** ** Bits, counts and the simulated hardware *)

Lemma u8_testbit (x i : Z) : 0 <= i < 8 -> Z.testbit (u8 x) i = Z.testbit x i.
Proof. intros Hi. unfold u8. apply Z.mod_pow2_bits_low. lia. Qed.

Lemma small_index (i : Z) :
  0 <= i < 8 ->
  i = 0 \/ i = 1 \/ i = 2 \/ i = 3 \/ i = 4 \/ i = 5 \/ i = 6 \/ i = 7.
Proof. lia. Qed.

Lemma enable_mask_bits (i : Z) :
  0 <= i < 8 ->
  Z.testbit (Z.lor SPCR_MSTR SPCR_SPE) i = (i =? 4) || (i =? 6).
Proof.
  intros Hi.
  destruct (small_index i Hi) as [-> | [-> | [-> | [-> | [-> | [-> | [-> | ->]]]]]]];
    reflexivity.
Qed.

Lemma memen_mask_bits (i : Z) :
  0 <= i < 8 -> Z.testbit (Z.lnot SFCP_MEMEN) i = negb (i =? 0).
Proof.
  intros Hi.
  destruct (small_index i Hi) as [-> | [-> | [-> | [-> | [-> | [-> | [-> | ->]]]]]]];
    reflexivity.
Qed.

Lemma configured_spcr_bit (d : regblock) (i : Z) :
  0 <= i < 8 ->
  Z.testbit (spcr (configured d)) i
  = Z.testbit (spcr d) i || ((i =? 4) || (i =? 6)).
Proof.
  intros Hi. unfold configured. cbn [spcr].
  rewrite u8_testbit, Z.lor_spec, u8_testbit, enable_mask_bits by assumption.
  reflexivity.
Qed.

Lemma configured_sfcp_bit (d : regblock) (i : Z) :
  0 <= i < 8 ->
  Z.testbit (sfcp (configured d)) i = Z.testbit (sfcp d) i && negb (i =? 0).
Proof.
  intros Hi. unfold configured. cbn [sfcp].
  rewrite u8_testbit, Z.land_spec, u8_testbit, memen_mask_bits by assumption.
  reflexivity.
Qed.

Lemma fifo_pops_setup (va : Z) (d : regblock) :
  fifo_pops va (setup_events va d) = 0%nat.
Proof.
  unfold fifo_pops, setup_events. cbn [filter].
  replace (va + SPICTRL_SFCP =? va + SPICTRL_FIFO) with false
    by (symmetry; apply Z.eqb_neq; unfold SPICTRL_SFCP, SPICTRL_FIFO; lia).
  replace (va + SPICTRL_SPCR =? va + SPICTRL_FIFO) with false
    by (symmetry; apply Z.eqb_neq; unfold SPICTRL_SPCR, SPICTRL_FIFO; lia).
  reflexivity.
Qed.

Lemma fifo_pops_drain (base : Z) (K : nat) :
  forall d, fifo_pops base (drain_events base d K) = K.
Proof.
  assert (Hs : (base + SPICTRL_SPSR =? base + SPICTRL_FIFO) = false)
    by (apply Z.eqb_neq; unfold SPICTRL_SPSR, SPICTRL_FIFO; lia).
  induction K as [| K IH]; intros d; unfold fifo_pops in *; cbn [drain_events filter].
  - rewrite Hs. reflexivity.
  - rewrite Hs, Z.eqb_refl. cbn [length]. rewrite IH. reflexivity.
Qed.

Lemma fifo_pops_pairs (base : Z) (n : nat) :
  forall d, fifo_pops base (drain_pairs base d n) = n.
Proof.
  assert (Hs : (base + SPICTRL_SPSR =? base + SPICTRL_FIFO) = false)
    by (apply Z.eqb_neq; unfold SPICTRL_SPSR, SPICTRL_FIFO; lia).
  induction n as [| n IH]; intros d; unfold fifo_pops in *;
    cbn [drain_pairs filter].
  - reflexivity.
  - rewrite Hs, Z.eqb_refl. cbn [length]. rewrite IH. reflexivity.
Qed.

Lemma length_readable_at (array : list Z) (after : nat -> Z) (n : nat) :
  length (readable_at array after n) = Nat.max (length array) n.
Proof.
  unfold readable_at. rewrite length_app, length_map, length_seq. lia.
Qed.

Lemma firstn_readable_at_array (array : list Z) (after : nat -> Z) (k n : nat) :
  (k <= length array)%nat ->
  firstn k (readable_at array after n) = firstn k array.
Proof.
  intros Hk. unfold readable_at. rewrite firstn_app.
  replace (k - length array)%nat with 0%nat by lia.
  simpl. apply app_nil_r.
Qed.

Lemma firstn_readable_at_all (array : list Z) (after : nat -> Z) (n : nat) :
  (length array <= n)%nat ->
  firstn n (readable_at array after n) = readable_at array after n.
Proof.
  intros Hn. apply firstn_all2. rewrite length_readable_at. lia.
Qed.

Lemma fifo_reads_drained (K : nat) :
  forall d, fifo_reads (drained d K) = (fifo_reads d + K)%nat.
Proof.
  induction K as [| K IH]; intros d; simpl.
  - lia.
  - rewrite IH. simpl. lia.
Qed.

Lemma paced_unblocks (busy : nat) (spcr0 sfcp0 : Z) :
  unblocks (sim_block (paced busy) spcr0 sfcp0).
Proof.
  intros n. exists (busy + n * busy)%nat. simpl. unfold paced.
  replace (n + (busy + n * busy))%nat with (busy + n * S busy)%nat by lia.
  rewrite Nat.Div0.mod_add, Nat.mod_small by lia.
  rewrite Nat.eqb_refl. reflexivity.
Qed.

Lemma live_sim (base : Z) (busy : nat) (spcr0 sfcp0 : Z) :
  live (sim_world base (sim_block (paced busy) spcr0 sfcp0)).
Proof. split; [reflexivity | apply paced_unblocks]. Qed.

(** * The specification's claims *)

(** ** Read-phase indexing *)

(** C1. The read phase does not push [writearr[writecnt + i]].
    (a) Four write bytes and a read count of 2, from an array of exactly
    four bytes: the call returns 0 and the six bytes written to FIFO are
    the array and then [writearr[0]], [writearr[1]] again; nothing is
    read at index 4.  (b) One write byte and a read count of 3 from the
    four-byte array: the read phase pushes [writearr[0..2]], not
    [writearr[1..3]]. *)
Lemma read_phase_restarts_at_index_zero :
  (returned (loongson3_spi_send_command 2 4 2 long_buffer [0; 0] bench_world)
   = Some (0, [0xC4; 0xC5]) /\
   fifo_writes 0x1000
     (trace (final (loongson3_spi_send_command 2 4 2 long_buffer [0; 0]
                      bench_world)))
   = [0x9F; 0x11; 0x22; 0x33; 0x9F; 0x11] /\
   nth_error long_buffer (4 + 0) = None) /\
  (returned (loongson3_spi_send_command 2 1 3 long_buffer [0; 0; 0] bench_world)
   = Some (0, [0xC1; 0xC2; 0xC3]) /\
   fifo_writes 0x1000
     (trace (final (loongson3_spi_send_command 2 1 3 long_buffer [0; 0; 0]
                      bench_world)))
   = [0x9F; 0x9F; 0x11; 0x22] /\
   spec_fifo_writes 1 3 long_buffer = [0x9F; 0x11; 0x22; 0x33] /\
   fifo_writes 0x1000
     (trace (final (loongson3_spi_send_command 2 1 3 long_buffer [0; 0; 0]
                      bench_world)))
   <> spec_fifo_writes 1 3 long_buffer).
Proof.
  split.
  - repeat split; vm_compute; reflexivity.
  - split; [vm_compute; reflexivity |].
    split; [vm_compute; reflexivity |].
    split; [vm_compute; reflexivity |].
    vm_compute. intros H. discriminate H.
Qed.

(** C1, amended. In every finished transaction, iteration [i] of the
    read phase (for each [i < readcnt]) writes [writearr[i]] to FIFO, the
    byte at the iteration's own index, taken again from index 0 of the
    write array; it then polls Status until the read FIFO is non-empty,
    reads FIFO once and stores that byte as [readarr[i]]. *)
Theorem read_phase_resends_writearr :
  forall (fuel writecnt readcnt : nat) (writearr readarr readarr' : list Z)
         (rc : Z) (w w' : world),
    loongson3_spi_send_command fuel writecnt readcnt writearr readarr w
    = Done (rc, readarr') w' ->
    exists discarded popped wevs revs,
      length popped = readcnt /\
      transfers (spictrl_base w) (map u8 (firstn writecnt writearr)) discarded wevs /\
      transfers (spictrl_base w) (map u8 (firstn readcnt writearr)) popped revs /\
      trace w' = trace w
        ++ [Wr SOFTCS_ASSERT (spictrl_base w + SPICTRL_SOFTCS)]
        ++ wevs ++ revs
        ++ [Wr SOFTCS_DESSERT (spictrl_base w + SPICTRL_SOFTCS)] /\
      forall i, (i < readcnt)%nat ->
        nth_error (map u8 (firstn readcnt writearr)) i
        = option_map u8 (nth_error writearr i) /\
        nth_error readarr' i = nth_error popped i.
Proof.
  intros fuel writecnt readcnt writearr readarr readarr' rc w w' H.
  apply send_command_done in H
    as (_ & disc & pop & wevs & revs & _ & Hl & T1 & T2 & Ht & _ & Hin & _).
  exists disc, pop, wevs, revs.
  repeat match goal with |- _ /\ _ => split end; try assumption.
  intros i Hi. split.
  - rewrite nth_error_map, nth_error_firstn.
    destruct (Nat.ltb_spec i readcnt); [reflexivity | lia].
  - apply Hin. assumption.
Qed.

Lemma read_phase_resends_writearr_witness :
  exists discarded popped wevs revs,
    length popped = 3%nat /\
    transfers (spictrl_base bench_world) (map u8 (firstn 1 long_buffer))
              discarded wevs /\
    transfers (spictrl_base bench_world) (map u8 (firstn 3 long_buffer))
              popped revs /\
    trace (final (loongson3_spi_send_command 2 1 3 long_buffer [0; 0; 0]
                    bench_world))
    = trace bench_world
        ++ [Wr SOFTCS_ASSERT (spictrl_base bench_world + SPICTRL_SOFTCS)]
        ++ wevs ++ revs
        ++ [Wr SOFTCS_DESSERT (spictrl_base bench_world + SPICTRL_SOFTCS)] /\
    forall i, (i < 3)%nat ->
      nth_error (map u8 (firstn 3 long_buffer)) i
      = option_map u8 (nth_error long_buffer i) /\
      nth_error [0xC1; 0xC2; 0xC3] i = nth_error popped i.
Proof.
  apply (read_phase_resends_writearr 2 1 3 long_buffer [0; 0; 0]
           [0xC1; 0xC2; 0xC3] 0 bench_world).
  vm_compute. reflexivity.
Defined.

(** ** Tear-down after bring-up *)

(** C2 (as the code has it). With the controller handle set, which is
    the case in every state a successful bring-up leaves behind,
    [loongson3_spi_shutdown] performs no register access at all: the guard
    [if (!spictrl_base)] skips both writes, so Soft-Chip-Select and
    Read-Engine-Enable keep their values. *)
Theorem shutdown_after_init_skips_teardown :
  forall (e : env) (fuel : nat) (w w' : world),
    loongson3_spi_init e fuel w = Done 0 w' ->
    spictrl_base w' <> 0 /\ loongson3_spi_shutdown w' = Done 0 w'.
Proof.
  intros e fuel w w' H.
  destruct (init_success_shape e fuel w w' H)
    as (cpu & descr & phys & w1 & w2 & _ & _ & Hva & _ & F1 & _ & _ & _ & _
        & X & F2 & _).
  assert (Hb : spictrl_base w' <> 0).
  { rewrite F2, (ext_base _ _ X), F1. exact Hva. }
  split; [exact Hb |].
  unfold loongson3_spi_shutdown.
  rewrite (bind_step _ _ _ _ _ (get_base_eq w')).
  destruct (Z.eqb_spec (spictrl_base w') 0); [contradiction | reflexivity].
Qed.

Lemma shutdown_after_init_skips_teardown_witness :
  spictrl_base (final (loongson3_spi_init boot_env 3 boot_world)) <> 0 /\
  loongson3_spi_shutdown (final (loongson3_spi_init boot_env 3 boot_world))
  = Done 0 (final (loongson3_spi_init boot_env 3 boot_world)).
Proof.
  apply (shutdown_after_init_skips_teardown boot_env 3 boot_world).
  vm_compute. reflexivity.
Defined.

(** ** Reads past the write array *)

(** C3. The read phase indexes the write array at 0, 1, ...,
    [readcnt - 1]: in a finished call its exchanges push the bytes found
    at these indices.  A read count beyond the length of the array takes
    it past the array's end.  Where nothing can be read there, no run
    finishes, and on hardware whose busy-waits end the run asserts
    chip-select, completes the write phase, exchanges every byte of the
    array once more in read iterations 0, ..., [length writearr - 1], and
    then takes the out-of-range branch of the indexing, in the read phase,
    at index [length writearr].  Where memory goes on behind the array,
    the run finishes (with status 0), and after the bytes of the array the
    read phase has pushed the bytes that follow it in memory. *)
Theorem read_phase_runs_past_writearr :
  forall (writecnt readcnt : nat) (writearr readarr : list Z) (w : world),
    (forall fuel rc readarr' w',
        loongson3_spi_send_command fuel writecnt readcnt writearr readarr w
        = Done (rc, readarr') w' ->
        exists discarded popped wevs revs,
          length popped = readcnt /\
          transfers (spictrl_base w) (map u8 (firstn writecnt writearr))
                    discarded wevs /\
          transfers (spictrl_base w) (map u8 (firstn readcnt writearr))
                    popped revs /\
          trace w' = trace w
            ++ [Wr SOFTCS_ASSERT (spictrl_base w + SPICTRL_SOFTCS)]
            ++ wevs ++ revs
            ++ [Wr SOFTCS_DESSERT (spictrl_base w + SPICTRL_SOFTCS)]) /\
    ((length writearr < readcnt)%nat ->
     (forall fuel r w',
         loongson3_spi_send_command fuel writecnt readcnt writearr readarr w
         <> Done r w') /\
     ((writecnt <= length writearr)%nat -> (readcnt <= length readarr)%nat ->
      live w ->
      exists f0 w' discarded popped wevs revs,
        (forall fuel, (f0 <= fuel)%nat ->
           loongson3_spi_send_command fuel writecnt readcnt writearr readarr w
           = Fault (BadIndex Writearr ReadPhase (length writearr)) w') /\
        length popped = length writearr /\
        transfers (spictrl_base w) (map u8 (firstn writecnt writearr))
                  discarded wevs /\
        transfers (spictrl_base w) (map u8 writearr) popped revs /\
        trace w' = trace w
          ++ [Wr SOFTCS_ASSERT (spictrl_base w + SPICTRL_SOFTCS)]
          ++ wevs ++ revs)) /\
    (forall after : nat -> Z,
        (length writearr < readcnt)%nat ->
        (writecnt <= length writearr)%nat -> (readcnt <= length readarr)%nat ->
        live w ->
        exists f0 readarr' w' discarded popped wevs revs,
          (forall fuel, (f0 <= fuel)%nat ->
             loongson3_spi_send_command fuel writecnt readcnt
               (readable_at writearr after readcnt) readarr w
             = Done (0, readarr') w') /\
          length popped = readcnt /\
          transfers (spictrl_base w) (map u8 (firstn writecnt writearr))
                    discarded wevs /\
          transfers (spictrl_base w)
                    (map u8 writearr
                     ++ map (fun j => u8 (after j))
                            (seq 0 (readcnt - length writearr)))
                    popped revs /\
          trace w' = trace w
            ++ [Wr SOFTCS_ASSERT (spictrl_base w + SPICTRL_SOFTCS)]
            ++ wevs ++ revs
            ++ [Wr SOFTCS_DESSERT (spictrl_base w + SPICTRL_SOFTCS)]).
Proof.
  intros writecnt readcnt writearr readarr w. split; [| split].
  - intros fuel rc readarr' w' H.
    apply send_command_done in H
      as (_ & disc & pop & wevs & revs & _ & Hl & T1 & T2 & Ht & _).
    exists disc, pop, wevs, revs. auto.
  - intros Hover. split.
    + intros fuel r w' H.
      apply send_command_done_in_range in H as (_ & Hr & _). lia.
    + intros Hw Hr Hl. apply send_command_fault_trace; assumption.
  - intros after Hover Hw Hr Hl.
    destruct (send_command_live writecnt readcnt
                (readable_at writearr after readcnt) readarr w)
      as (f0 & ra & w' & E); try assumption;
      try (rewrite length_readable_at; lia).
    destruct (send_command_done _ _ _ _ _ _ _ _ _ (E f0 (Nat.le_refl f0)))
      as (_ & disc & pop & wevs & revs & _ & Hl2 & T1 & T2 & Ht & _).
    rewrite firstn_readable_at_array in T1 by assumption.
    rewrite firstn_readable_at_all in T2 by lia.
    unfold readable_at in T2. rewrite map_app, map_map in T2.
    exists f0, ra, w', disc, pop, wevs, revs. auto.
Qed.

(** A one-byte identify command with a three-byte read, from an array
    behind which nothing can be read. *)
Lemma read_phase_runs_past_writearr_witness :
  exists f0 w' discarded popped wevs revs,
    (forall fuel, (f0 <= fuel)%nat ->
       loongson3_spi_send_command fuel 1 3 [0x9F] [0; 0; 0] bench_world
       = Fault (BadIndex Writearr ReadPhase 1) w') /\
    length popped = 1%nat /\
    transfers (spictrl_base bench_world) (map u8 (firstn 1 [0x9F]))
              discarded wevs /\
    transfers (spictrl_base bench_world) (map u8 [0x9F]) popped revs /\
    trace w' = trace bench_world
      ++ [Wr SOFTCS_ASSERT (spictrl_base bench_world + SPICTRL_SOFTCS)]
      ++ wevs ++ revs.
Proof.
  destruct (read_phase_runs_past_writearr 1 3 [0x9F] [0; 0; 0] bench_world)
    as (_ & H & _).
  destruct H as [_ H]; [simpl; lia |].
  apply H; [simpl; lia | simpl; lia | apply live_sim].
Defined.

(** ** Platform selection *)

(** C4. For every platform identifier of the 64C group (3b1500,
    3a2000, 3b2000, 3a3000, 3b3000) [loongson3_spi_init] maps the
    16-byte register block at 0x1fe00220 and takes the result as its
    handle; for every identifier of the 64G group (3a4000, 3b4000) it maps
    at 0x1fe001f0; for any other string, the empty one included, and for
    an absent [cpu] parameter it returns a non-zero status without mapping
    anything and without a single register read or write. *)
Theorem init_selects_base_by_platform :
  forall (e : env) (fuel : nat) (w : world),
    LOONGSON64C_SPI_BASE = 0x1fe00220 /\ LOONGSON64G_SPI_BASE = 0x1fe001f0 /\
    (forall cpu, cpu_param e = Some cpu -> In cpu names_64c ->
       physmaps (final (loongson3_spi_init e fuel w))
       = physmaps w ++ [mkPhysmapCall "Loongson64C SPICTRL" LOONGSON64C_SPI_BASE
                                      LOONGSON3_SPI_REG_SIZE] /\
       spictrl_base (final (loongson3_spi_init e fuel w))
       = rphysmap_result e "Loongson64C SPICTRL" LOONGSON64C_SPI_BASE
                         LOONGSON3_SPI_REG_SIZE) /\
    (forall cpu, cpu_param e = Some cpu -> In cpu names_64g ->
       physmaps (final (loongson3_spi_init e fuel w))
       = physmaps w ++ [mkPhysmapCall "Loongson64G SPICTRL" LOONGSON64G_SPI_BASE
                                      LOONGSON3_SPI_REG_SIZE] /\
       spictrl_base (final (loongson3_spi_init e fuel w))
       = rphysmap_result e "Loongson64G SPICTRL" LOONGSON64G_SPI_BASE
                         LOONGSON3_SPI_REG_SIZE) /\
    ((cpu_param e = None \/
      exists cpu, cpu_param e = Some cpu /\
                  ~ In cpu names_64c /\ ~ In cpu names_64g) ->
     exists rc w',
       loongson3_spi_init e fuel w = Done rc w' /\ rc <> 0 /\
       trace w' = trace w /\ hw w' = hw w /\ physmaps w' = physmaps w /\
       spictrl_base w' = spictrl_base w).
Proof.
  intros e fuel w.
  split; [reflexivity |]. split; [reflexivity |]. split; [| split].
  - intros cpu Hcpu Hin.
    apply (init_final_mapped e fuel w cpu _ _ Hcpu (platform_64c cpu Hin)).
  - intros cpu Hcpu Hin.
    apply (init_final_mapped e fuel w cpu _ _ Hcpu (platform_64g cpu Hin)).
  - intros [Hnone | (cpu & Hcpu & Hc & Hg)].
    + destruct (init_no_cpu e fuel w Hnone) as (w' & E & F).
      exists 1, w'. split; [exact E |]. split; [discriminate | exact F].
    + destruct (init_unknown_cpu e fuel w cpu Hcpu (platform_other cpu Hc Hg))
        as (w' & E & F).
      exists 1, w'. split; [exact E |]. split; [discriminate | exact F].
Qed.

Lemma init_selects_base_by_platform_witness :
  physmaps (final (loongson3_spi_init boot_env 3 boot_world))
  = [mkPhysmapCall "Loongson64G SPICTRL" LOONGSON64G_SPI_BASE
                   LOONGSON3_SPI_REG_SIZE] /\
  exists rc w',
    loongson3_spi_init (sim_env (Some ""%string) 0x1000 0) 3 boot_world
    = Done rc w' /\ rc <> 0 /\ trace w' = trace boot_world.
Proof.
  destruct (init_selects_base_by_platform boot_env 3 boot_world)
    as (_ & _ & _ & Hg & _).
  destruct (init_selects_base_by_platform (sim_env (Some ""%string) 0x1000 0)
              3 boot_world)
    as (_ & _ & _ & _ & Ho).
  split.
  - apply (Hg "3a4000"%string); [reflexivity | simpl; auto].
  - destruct Ho as (rc & w' & E & Hrc & Ht & _).
    + right. exists ""%string. split; [reflexivity |].
      split; simpl; intros H; decompose [or] H; discriminate || contradiction.
    + exists rc, w'. auto.
Defined.

(** ** Enable bits and their neighbours *)

(** C5. For every initial register state, after a successful bring-up
    the master-mode and SPI-enable bits of Control are set, the enable
    bit of Read-Engine-Enable is clear, and every other bit of the two
    byte-wide registers has the value it had before: the read-modify-write
    sequences keep the unrelated bits. *)
Theorem init_sets_enables_and_keeps_other_bits :
  forall (e : env) (fuel : nat) (w w' : world),
    loongson3_spi_init e fuel w = Done 0 w' ->
    SPCR_MSTR = 2 ^ 4 /\ SPCR_SPE = 2 ^ 6 /\ SFCP_MEMEN = 2 ^ 0 /\
    Z.testbit (spcr (hw w')) 4 = true /\
    Z.testbit (spcr (hw w')) 6 = true /\
    Z.testbit (sfcp (hw w')) 0 = false /\
    (forall i, 0 <= i < 8 -> i <> 4 -> i <> 6 ->
       Z.testbit (spcr (hw w')) i = Z.testbit (spcr (hw w)) i) /\
    (forall i, 0 < i < 8 ->
       Z.testbit (sfcp (hw w')) i = Z.testbit (sfcp (hw w)) i).
Proof.
  intros e fuel w w' H.
  destruct (init_success_shape e fuel w w' H)
    as (cpu & descr & phys & w1 & w2 & _ & _ & Hva & _ & F1 & F2 & F3 & _ & Ed
        & _ & _ & _ & F7 & _).
  destruct (drain_keeps fuel w1 w2 tt) as (K1 & K2 & _);
    [congruence | congruence | exact Ed |].
  rewrite F7, K1, K2, F3.
  split; [reflexivity |]. split; [reflexivity |]. split; [reflexivity |].
  split; [rewrite configured_spcr_bit by lia; apply orb_true_r |].
  split; [rewrite configured_spcr_bit by lia; apply orb_true_r |].
  split; [rewrite configured_sfcp_bit by lia; apply andb_false_r |].
  split.
  - intros i Hi H4 H6. rewrite configured_spcr_bit by assumption.
    destruct (Z.eqb_spec i 4); [contradiction |].
    destruct (Z.eqb_spec i 6); [contradiction |].
    apply orb_false_r.
  - intros i Hi. rewrite configured_sfcp_bit by lia.
    destruct (Z.eqb_spec i 0); [lia |]. apply andb_true_r.
Qed.

Lemma init_sets_enables_and_keeps_other_bits_witness :
  Z.testbit (spcr (hw (final (loongson3_spi_init boot_env 3 boot_world)))) 4 = true /\
  Z.testbit (sfcp (hw (final (loongson3_spi_init boot_env 3 boot_world)))) 0 = false /\
  Z.testbit (spcr (hw (final (loongson3_spi_init boot_env 3 boot_world)))) 7
  = Z.testbit (spcr (hw boot_world)) 7 /\
  Z.testbit (sfcp (hw (final (loongson3_spi_init boot_env 3 boot_world)))) 5
  = Z.testbit (sfcp (hw boot_world)) 5.
Proof.
  destruct (init_sets_enables_and_keeps_other_bits boot_env 3 boot_world
              (final (loongson3_spi_init boot_env 3 boot_world)))
    as (_ & _ & _ & H4 & _ & H0 & Hc & Hf).
  - vm_compute. reflexivity.
  - split; [exact H4 |]. split; [exact H0 |]. split.
    + apply Hc; lia.
    + apply Hf; lia.
Defined.

(** ** Draining the read FIFO *)

(** C6. If Status shows the read FIFO non-empty on the first [K] polls
    of the drain loop and empty on the next one, bring-up pops FIFO
    exactly [K] times, each pop right after one of those polls, and only
    then registers the transport; with [K = 0] it pops nothing.  A run
    with a budget above [K] polls returns 0 with the [K] pops and the
    closing poll in its trace and the transport registered.  A run cut
    short by a budget of [fuel <= K] polls is still in the drain loop: it
    has made [fuel] pops and the transport is not registered. *)
Theorem init_drains_exactly_the_stale_bytes :
  forall (e : env) (w : world) (cpu descr : string) (phys va : Z) (K : nat),
    cpu_param e = Some cpu -> platform cpu = Some (descr, phys) ->
    rphysmap_result e descr phys LOONGSON3_SPI_REG_SIZE = va -> va <> 0 ->
    register_shutdown_rc e = 0 ->
    (forall j, (j < K)%nat ->
       rf_empty (u8 (spsr_feed (hw w) (spsr_reads (hw w) + j))) = false) ->
    rf_empty (u8 (spsr_feed (hw w) (spsr_reads (hw w) + K))) = true ->
    (forall fuel, (K < fuel)%nat ->
       exists w',
         loongson3_spi_init e fuel w = Done 0 w' /\
         trace w' = trace w ++ setup_events va (hw w)
                            ++ drain_events va (configured (hw w)) K /\
         fifo_pops va (setup_events va (hw w)) = 0%nat /\
         fifo_pops va (drain_events va (configured (hw w)) K) = K /\
         fifo_reads (hw w') = (fifo_reads (hw w) + K)%nat /\
         spi_masters w' = S (spi_masters w)) /\
    (forall fuel, (fuel <= K)%nat ->
       exists w'',
         loongson3_spi_init e fuel w = Spin w'' /\
         trace w'' = trace w ++ setup_events va (hw w)
                             ++ drain_pairs va (configured (hw w)) fuel /\
         fifo_pops va (drain_pairs va (configured (hw w)) fuel) = fuel /\
         fifo_reads (hw w'') = (fifo_reads (hw w) + fuel)%nat /\
         spi_masters w'' = spi_masters w).
Proof.
  intros e w cpu descr phys va K Hcpu Hp Hva Hnz Hrc Hbusy Hempty.
  subst va. split.
  - intros fuel Hfuel.
    destruct (init_setup e fuel w cpu descr phys Hcpu Hp Hnz Hrc)
      as (w1 & E & F1 & F2 & F3 & F4 & _ & _ & F7).
    destruct (drain_exact K w1)
      as (w2 & Ed & G1 & G2 & G3 & G4 & _ & _ & G7).
    { congruence. }
    { congruence. }
    { rewrite F3. exact Hbusy. }
    { rewrite F3. exact Hempty. }
    eexists. split; [| split; [| split; [| split; [| split]]]].
    + rewrite E. rewrite (bind_step _ _ _ _ _ (Ed fuel Hfuel)). reflexivity.
    + cbn [trace]. rewrite G4, F4, F1, F3. symmetry. apply app_assoc.
    + apply fifo_pops_setup.
    + apply fifo_pops_drain.
    + cbn [hw]. rewrite G3, F3, fifo_reads_drained. reflexivity.
    + cbn [spi_masters]. congruence.
  - intros fuel Hfuel.
    destruct (init_setup e fuel w cpu descr phys Hcpu Hp Hnz Hrc)
      as (w1 & E & F1 & F2 & F3 & F4 & _ & _ & F7).
    destruct (drain_short fuel w1) as (w2 & Ed & G1 & G2 & _ & G4).
    { congruence. }
    { congruence. }
    { intros j Hj. rewrite F3. apply Hbusy. lia. }
    exists w2. split; [| split; [| split; [| split]]].
    + rewrite E. unfold bind at 1. rewrite Ed. reflexivity.
    + rewrite G1, F4, F1, F3. symmetry. apply app_assoc.
    + apply fifo_pops_pairs.
    + rewrite G2, F3. reflexivity.
    + congruence.
Qed.

(** Two stale bytes: budgets 0, 1 and 2 leave bring-up in the drain
    loop, any larger one lets it finish. *)
Lemma init_drains_exactly_the_stale_bytes_witness :
  (forall fuel, (2 < fuel)%nat ->
     exists w',
       loongson3_spi_init boot_env fuel boot_world = Done 0 w' /\
       trace w' = trace boot_world ++ setup_events 0x1000 (hw boot_world)
                    ++ drain_events 0x1000 (configured (hw boot_world)) 2 /\
       fifo_pops 0x1000 (setup_events 0x1000 (hw boot_world)) = 0%nat /\
       fifo_pops 0x1000 (drain_events 0x1000 (configured (hw boot_world)) 2)
       = 2%nat /\
       fifo_reads (hw w') = (fifo_reads (hw boot_world) + 2)%nat /\
       spi_masters w' = S (spi_masters boot_world)) /\
  (forall fuel, (fuel <= 2)%nat ->
     exists w'',
       loongson3_spi_init boot_env fuel boot_world = Spin w'' /\
       trace w'' = trace boot_world ++ setup_events 0x1000 (hw boot_world)
                     ++ drain_pairs 0x1000 (configured (hw boot_world)) fuel /\
       fifo_pops 0x1000 (drain_pairs 0x1000 (configured (hw boot_world)) fuel)
       = fuel /\
       fifo_reads (hw w'') = (fifo_reads (hw boot_world) + fuel)%nat /\
       spi_masters w'' = spi_masters boot_world).
Proof.
  apply (init_drains_exactly_the_stale_bytes boot_env boot_world
           "3a4000"%string "Loongson64G SPICTRL"%string LOONGSON64G_SPI_BASE
           0x1000 2).
  - reflexivity.
  - reflexivity.
  - reflexivity.
  - lia.
  - reflexivity.
  - intros j Hj. destruct j as [| [| j]]; [reflexivity | reflexivity | lia].
  - reflexivity.
Defined.

(** ** Status of a transaction *)

(** C7. [loongson3_spi_send_command] has no status but 0: a call that
    returns, returns 0, whatever the arrays, the counts and the
    hardware's answers.  And it does return: on hardware whose busy-waits
    end, for any array, any write count and any read count, with the
    bytes that follow the array in memory read where a loop indexes past
    the array's end, and a result array that holds [readcnt] bytes, the
    call returns 0 once the polling budget is large enough. *)
Theorem send_command_returns_success :
  forall (writecnt readcnt : nat) (writearr readarr : list Z) (w : world),
    (forall fuel rc readarr' w',
        loongson3_spi_send_command fuel writecnt readcnt writearr readarr w
        = Done (rc, readarr') w' -> rc = 0) /\
    (live w ->
     (writecnt <= length writearr)%nat -> (readcnt <= length writearr)%nat ->
     (readcnt <= length readarr)%nat ->
     exists f0 readarr' w',
       forall fuel, (f0 <= fuel)%nat ->
         loongson3_spi_send_command fuel writecnt readcnt writearr readarr w
         = Done (0, readarr') w') /\
    (forall after : nat -> Z,
        live w -> (readcnt <= length readarr)%nat ->
        exists f0 readarr' w',
          forall fuel, (f0 <= fuel)%nat ->
            loongson3_spi_send_command fuel writecnt readcnt
              (readable_at writearr after (Nat.max writecnt readcnt)) readarr w
            = Done (0, readarr') w').
Proof.
  intros writecnt readcnt writearr readarr w. split; [| split].
  - intros fuel rc readarr' w' H. apply send_command_done in H as [H _].
    exact H.
  - intros Hl Hw Hr Hr'. apply send_command_live; assumption.
  - intros after Hl Hr'.
    apply send_command_live; try assumption;
      rewrite length_readable_at; lia.
Qed.

(** The identify exchange: one command byte, 0x9F, in a one-byte array,
    and a read count of 3. *)
Lemma send_command_returns_success_witness :
  exists f0 readarr' w',
    forall fuel, (f0 <= fuel)%nat ->
      loongson3_spi_send_command fuel 1 3
        (readable_at [0x9F] (fun n => 0x11 * (1 + Z.of_nat n)) (Nat.max 1 3))
        [0; 0; 0] bench_world
      = Done (0, readarr') w'.
Proof.
  destruct (send_command_returns_success 1 3 [0x9F] [0; 0; 0] bench_world)
    as (_ & _ & H).
  apply H; [apply live_sim | simpl; lia].
Defined.

(** ** Status of tear-down *)




(** ** The empty transaction *)

(** C9. A transaction with no write bytes and a read count of 0 writes
    the assert encoding to Soft-Chip-Select and then at once the deassert
    encoding; the two writes are its whole register traffic (FIFO is
    neither written nor read) and the result array comes back as it was
    passed. *)
Theorem empty_transaction_toggles_chip_select :
  forall (fuel : nat) (writearr readarr : list Z) (w : world),
  exists w',
    loongson3_spi_send_command fuel 0 0 writearr readarr w
    = Done (0, readarr) w' /\
    trace w' = trace w
      ++ [ Wr SOFTCS_ASSERT (spictrl_base w + SPICTRL_SOFTCS);
           Wr SOFTCS_DESSERT (spictrl_base w + SPICTRL_SOFTCS) ].
Proof.
  intros fuel writearr readarr w. unfold loongson3_spi_send_command.
  rewrite (bind_step _ _ _ _ _ (msg_eq _ w)).
  set (w0 := add_msg (MsgCounts 0 0) w).
  rewrite (bind_step _ _ _ _ _ (reg_eq SPICTRL_SOFTCS w0)).
  destruct (mmio_writeb_total SOFTCS_ASSERT (spictrl_base w0 + SPICTRL_SOFTCS) w0)
    as [w1 E1].
  rewrite (bind_step _ _ _ _ _ E1). simpl write_phase. simpl read_phase.
  unfold bind at 1. unfold ret at 1. unfold bind at 1. unfold ret at 1.
  rewrite (bind_step _ _ _ _ _ (reg_eq SPICTRL_SOFTCS w1)).
  destruct (mmio_writeb_total SOFTCS_DESSERT (spictrl_base w1 + SPICTRL_SOFTCS) w1)
    as [w2 E2].
  rewrite (bind_step _ _ _ _ _ E2).
  exists w2. split; [reflexivity |].
  apply mmio_writeb_done in E1 as [T1 B1].
  apply mmio_writeb_done in E2 as [T2 B2].
  rewrite T2, T1, B1. simpl. rewrite <- app_assoc. reflexivity.
Qed.

(** ** The handle and the register offsets *)

(** C10. Whenever [loongson3_spi_init] returns 0 the controller handle
    is non-null, and every register access is addressed at the handle
    plus one of the offsets 0x0, 0x1, 0x2, 0x4, 0x5: those of bring-up
    itself, and those of any later run of [loongson3_spi_send_command]
    or [loongson3_spi_shutdown] on that handle, finished or not; both
    leave the handle as it is. *)
Theorem accesses_are_offsets_from_handle :
  forall (e : env) (fuel : nat) (w w' : world),
    loongson3_spi_init e fuel w = Done 0 w' ->
    spictrl_base w' <> 0 /\
    offsets = [0x0; 0x1; 0x2; 0x4; 0x5] /\
    (exists evs, trace w' = trace w ++ evs /\
                 Forall (at_register (spictrl_base w')) evs) /\
    (forall fuel' writecnt readcnt writearr readarr w2,
        spictrl_base w2 = spictrl_base w' ->
        let w3 := final (loongson3_spi_send_command fuel' writecnt readcnt
                           writearr readarr w2) in
        spictrl_base w3 = spictrl_base w' /\
        exists evs, trace w3 = trace w2 ++ evs /\
                    Forall (at_register (spictrl_base w')) evs) /\
    (forall w2,
        spictrl_base w2 = spictrl_base w' ->
        let w3 := final (loongson3_spi_shutdown w2) in
        spictrl_base w3 = spictrl_base w' /\
        exists evs, trace w3 = trace w2 ++ evs /\
                    Forall (at_register (spictrl_base w')) evs).
Proof.
  intros e fuel w w' H.
  destruct (init_success_shape e fuel w w' H)
    as (cpu & descr & phys & w1 & w2 & _ & _ & Hva & _ & F1 & _ & _ & F4 & _
        & X & F5 & _ & _ & F8).
  destruct X as [Xb _ _ _ _ (evs2 & Xt & Xa)].
  assert (Hb : spictrl_base w' = rphysmap_result e descr phys LOONGSON3_SPI_REG_SIZE)
    by congruence.
  split; [congruence |]. split; [reflexivity |]. split; [| split].
  - exists (setup_events (spictrl_base w') (hw w) ++ evs2). split.
    + rewrite F8, Xt, F4, Hb. symmetry. apply app_assoc.
    + apply Forall_app. split; [apply setup_events_at |].
      rewrite Hb, <- F1. exact Xa.
  - intros fuel' writecnt readcnt writearr readarr w0 Hw0 w3.
    destruct (framed_send_command fuel' writecnt readcnt writearr readarr w0)
      as [Yb _ _ _ _ (evs & Yt & Ya)].
    fold w3 in Yb, Yt. split; [congruence |].
    exists evs. split; [exact Yt |]. rewrite <- Hw0. exact Ya.
  - intros w0 Hw0 w3.
    destruct (framed_shutdown w0) as [Yb _ _ _ _ (evs & Yt & Ya)].
    fold w3 in Yb, Yt. split; [congruence |].
    exists evs. split; [exact Yt |]. rewrite <- Hw0. exact Ya.
Qed.

Lemma accesses_are_offsets_from_handle_witness :
  spictrl_base (final (loongson3_spi_init boot_env 3 boot_world)) <> 0 /\
  exists evs,
    trace (final (loongson3_spi_init boot_env 3 boot_world))
    = trace boot_world ++ evs /\
    Forall (at_register
              (spictrl_base (final (loongson3_spi_init boot_env 3 boot_world))))
           evs.
Proof.
  destruct (accesses_are_offsets_from_handle boot_env 3 boot_world
              (final (loongson3_spi_init boot_env 3 boot_world)))
    as (H1 & _ & H2 & _).
  - vm_compute. reflexivity.
  - split; [exact H1 | exact H2].
Defined.

(** * Further properties of the driver *)

(** ** The result array *)

(** X1. A finished transaction writes [readarr[0..readcnt-1]] and nothing
    else of the result array: the array keeps its length and every entry
    from index [readcnt] on; with a read count of 0 it comes back
    unchanged, whatever was written. *)
Theorem send_command_keeps_rest_of_readarr :
  forall (fuel writecnt readcnt : nat) (writearr readarr readarr' : list Z)
         (rc : Z) (w w' : world),
    loongson3_spi_send_command fuel writecnt readcnt writearr readarr w
    = Done (rc, readarr') w' ->
    length readarr' = length readarr /\
    skipn readcnt readarr' = skipn readcnt readarr /\
    (readcnt = 0%nat -> readarr' = readarr).
Proof.
  intros fuel writecnt readcnt writearr readarr readarr' rc w w' H.
  apply send_command_done in H
    as (_ & disc & pop & wevs & revs & _ & _ & _ & _ & _ & Hlen & _ & Hout).
  assert (Hskip : skipn readcnt readarr' = skipn readcnt readarr).
  { apply nth_error_ext. intros j. rewrite !nth_error_skipn.
    apply Hout. lia. }
  split; [exact Hlen |]. split; [exact Hskip |].
  intros ->. exact Hskip.
Qed.

Lemma send_command_keeps_rest_of_readarr_witness :
  length [0xC4; 0xC5; 0x77] = length [0; 0; 0x77] /\
  skipn 2 [0xC4; 0xC5; 0x77] = skipn 2 [0; 0; 0x77] /\
  (2%nat = 0%nat -> [0xC4; 0xC5; 0x77] = [0; 0; 0x77]).
Proof.
  apply (send_command_keeps_rest_of_readarr 2 4 2 long_buffer [0; 0; 0x77]
           [0xC4; 0xC5; 0x77] 0 bench_world
           (final (loongson3_spi_send_command 2 4 2 long_buffer [0; 0; 0x77]
                     bench_world))).
  vm_compute. reflexivity.
Defined.

(** ** The bytes that cross the FIFO *)

Lemma fifo_pops_app (base : Z) (l1 l2 : list event) :
  fifo_pops base (l1 ++ l2) = (fifo_pops base l1 + fifo_pops base l2)%nat.
Proof. unfold fifo_pops. rewrite filter_app, length_app. reflexivity. Qed.

Lemma fifo_writes_app (base : Z) (l1 l2 : list event) :
  fifo_writes base (l1 ++ l2) = fifo_writes base l1 ++ fifo_writes base l2.
Proof. unfold fifo_writes. apply flat_map_app. Qed.

Lemma spsr_is_not_fifo (base : Z) :
  (base + SPICTRL_SPSR =? base + SPICTRL_FIFO) = false.
Proof. apply Z.eqb_neq. unfold SPICTRL_SPSR, SPICTRL_FIFO. lia. Qed.

Lemma softcs_is_not_fifo (base : Z) :
  (base + SPICTRL_SOFTCS =? base + SPICTRL_FIFO) = false.
Proof. apply Z.eqb_neq. unfold SPICTRL_SOFTCS, SPICTRL_FIFO. lia. Qed.

Lemma waited_no_fifo (base : Z) (polls : list event) :
  waited base polls ->
  fifo_pops base polls = 0%nat /\ fifo_writes base polls = [].
Proof.
  induction 1 as [s Hs | s evs Hs Hw [IH1 IH2]].
  - unfold fifo_pops, fifo_writes. simpl. rewrite spsr_is_not_fifo.
    split; reflexivity.
  - unfold fifo_pops, fifo_writes in *. simpl. rewrite spsr_is_not_fifo.
    split; assumption.
Qed.

Lemma transfers_fifo (base : Z) (bs vs : list Z) (evs : list event) :
  transfers base bs vs evs ->
  fifo_pops base evs = length bs /\ fifo_writes base evs = bs.
Proof.
  induction 1 as [| b v bs vs polls rest Hw Ht [IH1 IH2]].
  - split; reflexivity.
  - destruct (waited_no_fifo base polls Hw) as [P1 P2].
    change (Wr b (base + SPICTRL_FIFO) :: polls ++ Rd (base + SPICTRL_FIFO) v :: rest)
      with ([Wr b (base + SPICTRL_FIFO)] ++ polls
            ++ [Rd (base + SPICTRL_FIFO) v] ++ rest).
    rewrite !fifo_pops_app, !fifo_writes_app, P1, P2, IH1, IH2.
    unfold fifo_pops, fifo_writes. simpl. rewrite Z.eqb_refl.
    split; reflexivity.
Qed.

(** X2. In a finished transaction the bytes written to FIFO are, in
    order, the first [writecnt] bytes of [writearr] followed by its first
    [readcnt] bytes, and FIFO is read exactly [writecnt + readcnt] times:
    one pop for every push. *)
Theorem send_command_pushes_and_pops_balance :
  forall (fuel writecnt readcnt : nat) (writearr readarr readarr' : list Z)
         (rc : Z) (w w' : world),
    loongson3_spi_send_command fuel writecnt readcnt writearr readarr w
    = Done (rc, readarr') w' ->
    exists evs,
      trace w' = trace w ++ evs /\
      fifo_writes (spictrl_base w) evs
      = map u8 (firstn writecnt writearr) ++ map u8 (firstn readcnt writearr) /\
      length (fifo_writes (spictrl_base w) evs) = (writecnt + readcnt)%nat /\
      fifo_pops (spictrl_base w) evs = (writecnt + readcnt)%nat.
Proof.
  intros fuel writecnt readcnt writearr readarr readarr' rc w w' H.
  apply send_command_done in H
    as (_ & disc & pop & wevs & revs & Hl1 & Hl2 & T1 & T2 & Ht & _).
  destruct (transfers_fifo _ _ _ _ T1) as [P1 W1].
  destruct (transfers_fifo _ _ _ _ T2) as [P2 W2].
  assert (L1 := transfers_length _ _ _ _ T1).
  assert (L2 := transfers_length _ _ _ _ T2).
  eexists. split; [exact Ht |].
  rewrite !fifo_writes_app, !fifo_pops_app, W1, W2, P1, P2.
  unfold fifo_writes, fifo_pops. simpl. rewrite softcs_is_not_fifo. simpl.
  rewrite !app_nil_r.
  split; [reflexivity |]. split.
  - rewrite length_app. lia.
  - lia.
Qed.

Lemma send_command_pushes_and_pops_balance_witness :
  exists evs,
    trace (final (loongson3_spi_send_command 2 1 3 long_buffer [0; 0; 0]
                    bench_world))
    = trace bench_world ++ evs /\
    fifo_writes (spictrl_base bench_world) evs
    = map u8 (firstn 1 long_buffer) ++ map u8 (firstn 3 long_buffer) /\
    length (fifo_writes (spictrl_base bench_world) evs) = (1 + 3)%nat /\
    fifo_pops (spictrl_base bench_world) evs = (1 + 3)%nat.
Proof.
  apply (send_command_pushes_and_pops_balance 2 1 3 long_buffer [0; 0; 0]
           [0xC1; 0xC2; 0xC3] 0 bench_world).
  vm_compute. reflexivity.
Defined.

(** ** Chip-select around a transaction *)

Lemma data_only_ret {A} (a : A) : data_only (ret a).
Proof.
  intros w. split; [reflexivity |].
  exists []. split; [symmetry; apply app_nil_r | constructor].
Qed.

Lemma data_only_bind {A B} (m : M A) (k : A -> M B) :
  data_only m -> (forall a, data_only (k a)) -> data_only (bind m k).
Proof.
  intros Hm Hk w. unfold bind. destruct (Hm w) as [Hb (e1 & Ht & Ha)].
  destruct (m w) as [a w1 | f w1 | w1]; simpl in *.
  - destruct (Hk a w1) as [Hb' (e2 & Ht' & Ha')].
    split; [congruence |].
    exists (e1 ++ e2). split.
    + rewrite Ht', Ht. symmetry. apply app_assoc.
    + apply Forall_app. split; [exact Ha |]. rewrite Hb in Ha'. exact Ha'.
  - split; [exact Hb |]. exists e1. auto.
  - split; [exact Hb |]. exists e1. auto.
Qed.

Lemma data_only_one {A} (o : outcome A) (w : world) (e : event) :
  spictrl_base (final o) = spictrl_base w ->
  trace (final o) = trace w ++ [e] ->
  data_access (spictrl_base w) e ->
  spictrl_base (final o) = spictrl_base w /\
  exists evs,
    trace (final o) = trace w ++ evs /\
    Forall (data_access (spictrl_base w)) evs.
Proof.
  intros Hb Ht Ha. split; [exact Hb |].
  exists [e]. split; [exact Ht | constructor; [exact Ha | constructor]].
Qed.

Lemma data_only_read {B} (off : Z) (k : Z -> M B) :
  off = SPICTRL_SPSR \/ off = SPICTRL_FIFO ->
  (forall v, data_only (k v)) ->
  data_only (a <- reg off ;; v <- mmio_readb a ;; k v).
Proof.
  intros Hoff Hk w.
  destruct (mmio_readb_total (spictrl_base w + off) w) as (v & w1 & E).
  destruct (mmio_readb_done _ _ _ _ E) as [Ht Hb].
  assert (Heq : (a <- reg off ;; v <- mmio_readb a ;; k v) w = k v w1).
  { rewrite (bind_step _ _ _ _ _ (reg_eq off w)). apply bind_step. exact E. }
  rewrite Heq.
  destruct (Hk v w1) as [Hb' (e2 & Ht' & Ha')].
  split; [congruence |].
  exists (Rd (spictrl_base w + off) v :: e2). split.
  - rewrite Ht', Ht, <- app_assoc. reflexivity.
  - constructor.
    + unfold data_access. simpl. destruct Hoff as [-> | ->]; auto.
    + rewrite Hb in Ha'. exact Ha'.
Qed.

Lemma data_only_write {B} (off v : Z) (k : M B) :
  off = SPICTRL_SPSR \/ off = SPICTRL_FIFO ->
  data_only k ->
  data_only (a <- reg off ;; mmio_writeb v a ;;; k).
Proof.
  intros Hoff Hk w.
  destruct (mmio_writeb_total v (spictrl_base w + off) w) as (w1 & E).
  destruct (mmio_writeb_done _ _ _ _ _ E) as [Ht Hb].
  assert (Heq : (a <- reg off ;; mmio_writeb v a ;;; k) w = k w1).
  { rewrite (bind_step _ _ _ _ _ (reg_eq off w)).
    apply (bind_step _ (fun _ => k) _ _ _ E). }
  rewrite Heq.
  destruct (Hk w1) as [Hb' (e2 & Ht' & Ha')].
  split; [congruence |].
  exists (Wr (u8 v) (spictrl_base w + off) :: e2). split.
  - rewrite Ht', Ht, <- app_assoc. reflexivity.
  - constructor.
    + unfold data_access. simpl. destruct Hoff as [-> | ->]; auto.
    + rewrite Hb in Ha'. exact Ha'.
Qed.

Lemma data_only_wait (fuel : nat) : data_only (wait_rf_not_empty fuel).
Proof.
  induction fuel as [| f IH]; simpl.
  - intros w. simpl. split; [reflexivity |].
    exists []. split; [symmetry; apply app_nil_r | constructor].
  - apply data_only_read; [auto |].
    intros v. destruct (Z.land v SPSR_RFEMPTY =? 0);
      [apply data_only_ret | exact IH].
Qed.

Lemma data_only_load (p : phase) (l : list Z) (i : nat) : data_only (load p l i).
Proof.
  intros w. unfold load.
  destruct (nth_error l i); simpl; (split; [reflexivity |]);
    exists []; (split; [symmetry; apply app_nil_r | constructor]).
Qed.

Lemma data_only_store (l : list Z) (i : nat) (v : Z) : data_only (store l i v).
Proof.
  intros w. unfold store.
  destruct (update l i v); simpl; (split; [reflexivity |]);
    exists []; (split; [symmetry; apply app_nil_r | constructor]).
Qed.

Lemma data_only_write_phase (fuel : nat) (writearr : list Z) (n i : nat) :
  data_only (write_phase fuel writearr i n).
Proof.
  revert i. induction n as [| n IH]; intros i; simpl.
  - apply data_only_ret.
  - apply data_only_bind; [apply data_only_load |]. intros b.
    apply data_only_write; [auto |].
    apply data_only_bind; [apply data_only_wait |]. intros _.
    apply data_only_read; [auto |]. intros _. apply IH.
Qed.

Lemma data_only_read_phase (fuel : nat) (writearr : list Z) (n i : nat)
    (readarr : list Z) :
  data_only (read_phase fuel writearr i n readarr).
Proof.
  revert i readarr. induction n as [| n IH]; intros i readarr; simpl.
  - apply data_only_ret.
  - apply data_only_bind; [apply data_only_load |]. intros b.
    apply data_only_write; [auto |].
    apply data_only_bind; [apply data_only_wait |]. intros _.
    apply data_only_read; [auto |]. intros v.
    apply data_only_bind; [apply data_only_store |]. intros ra. apply IH.
Qed.

(** X3. Every run of a transaction, finished or not, opens with the
    assert write to Soft-Chip-Select and goes on with accesses to Status
    and FIFO only.  The deassert write comes last and only when the run
    finishes: a run that stops at an index outside an array, or that is
    still polling, leaves chip-select asserted. *)
Theorem send_command_brackets_with_chip_select :
  forall (fuel writecnt readcnt : nat) (writearr readarr : list Z) (w : world),
  exists evs,
    Forall (data_access (spictrl_base w)) evs /\
    (forall e, data_access (spictrl_base w) e ->
               ev_addr e <> spictrl_base w + SPICTRL_SOFTCS) /\
    match loongson3_spi_send_command fuel writecnt readcnt writearr readarr w with
    | Done _ w' =>
        trace w' = trace w
          ++ Wr SOFTCS_ASSERT (spictrl_base w + SPICTRL_SOFTCS) :: evs
          ++ [Wr SOFTCS_DESSERT (spictrl_base w + SPICTRL_SOFTCS)]
    | Fault _ w' | Spin w' =>
        trace w' = trace w
          ++ Wr SOFTCS_ASSERT (spictrl_base w + SPICTRL_SOFTCS) :: evs
    end.
Proof.
  intros fuel writecnt readcnt writearr readarr w.
  unfold loongson3_spi_send_command.
  rewrite (bind_step _ _ _ _ _ (msg_eq _ w)).
  set (w0 := add_msg (MsgCounts writecnt readcnt) w).
  rewrite (bind_step _ _ _ _ _ (reg_eq SPICTRL_SOFTCS w0)).
  destruct (mmio_writeb_total SOFTCS_ASSERT (spictrl_base w0 + SPICTRL_SOFTCS) w0)
    as [w1 E1].
  rewrite (bind_step _ _ _ _ _ E1).
  apply mmio_writeb_done in E1 as [T1 B1].
  change (spictrl_base w0) with (spictrl_base w) in T1, B1.
  change (trace w0) with (trace w) in T1.
  assert (Hcs : forall e, data_access (spictrl_base w) e ->
                          ev_addr e <> spictrl_base w + SPICTRL_SOFTCS).
  { intros e [-> | ->]; unfold SPICTRL_SPSR, SPICTRL_FIFO, SPICTRL_SOFTCS; lia. }
  unfold bind at 1.
  destruct (data_only_write_phase fuel writearr writecnt 0 w1)
    as [B2 (e2 & T2 & A2)].
  rewrite B1 in A2.
  destruct (write_phase fuel writearr 0 writecnt w1) as [u w2 | f w2 | w2];
    simpl in B2, T2.
  2: { exists e2. split; [exact A2 |]. split; [exact Hcs |].
       rewrite T2, T1, <- app_assoc. reflexivity. }
  2: { exists e2. split; [exact A2 |]. split; [exact Hcs |].
       rewrite T2, T1, <- app_assoc. reflexivity. }
  unfold bind at 1.
  destruct (data_only_read_phase fuel writearr readcnt 0 readarr w2)
    as [B3 (e3 & T3 & A3)].
  rewrite B2, B1 in A3.
  destruct (read_phase fuel writearr 0 readcnt readarr w2) as [ra w3 | f w3 | w3];
    simpl in B3, T3.
  2: { exists (e2 ++ e3). split; [apply Forall_app; auto |].
       split; [exact Hcs |].
       rewrite T3, T2, T1, <- !app_assoc. reflexivity. }
  2: { exists (e2 ++ e3). split; [apply Forall_app; auto |].
       split; [exact Hcs |].
       rewrite T3, T2, T1, <- !app_assoc. reflexivity. }
  rewrite (bind_step _ _ _ _ _ (reg_eq SPICTRL_SOFTCS w3)).
  destruct (mmio_writeb_total SOFTCS_DESSERT (spictrl_base w3 + SPICTRL_SOFTCS) w3)
    as [w4 E4].
  rewrite (bind_step _ _ _ _ _ E4).
  apply mmio_writeb_done in E4 as [T4 B4].
  exists (e2 ++ e3). split; [apply Forall_app; auto |].
  split; [exact Hcs |].
  unfold ret. rewrite T4, T3, T2, T1, B3, B2, B1, <- !app_assoc.
  reflexivity.
Qed.

(** ** What a transaction does to the controller *)

Lemma same_controller_refl (w : world) : same_controller w w.
Proof. constructor; reflexivity. Qed.

Lemma same_controller_trans (w1 w2 w3 : world) :
  same_controller w1 w2 -> same_controller w2 w3 -> same_controller w1 w3.
Proof. intros [] []. constructor; congruence. Qed.

Lemma mapped_handle_same (w w' : world) :
  mapped_handle w -> same_controller w w' -> mapped_handle w'.
Proof. intros [Hm Hb] [E1 E2 _ _ _ _]. split; congruence. Qed.

Lemma push_effect (b : Z) (w w' : world) (u : unit) :
  mapped_handle w ->
  mmio_writeb b (spictrl_base w + SPICTRL_FIFO) w = Done u w' ->
  same_controller w w' /\ softcs (hw w') = softcs (hw w) /\
  fifo_reads (hw w') = fifo_reads (hw w) /\
  fifo_pushed (hw w') = fifo_pushed (hw w) ++ [u8 b].
Proof.
  intros [Hm Hb] E.
  rewrite mmio_writeb_hit in E by auto using in_offsets_fifo.
  inversion E; subst w'. repeat split.
Qed.

Lemma pop_effect (v : Z) (w w' : world) :
  mapped_handle w ->
  mmio_readb (spictrl_base w + SPICTRL_FIFO) w = Done v w' ->
  same_controller w w' /\ softcs (hw w') = softcs (hw w) /\
  v = u8 (fifo_feed (hw w) (fifo_reads (hw w))) /\
  fifo_reads (hw w') = S (fifo_reads (hw w)) /\
  fifo_pushed (hw w') = fifo_pushed (hw w).
Proof.
  intros [Hm Hb] E. rewrite pop_hit in E by assumption.
  inversion E; subst v w'. repeat split.
Qed.

Lemma chip_select_effect (v : Z) (w w' : world) (u : unit) :
  mapped_handle w ->
  mmio_writeb v (spictrl_base w + SPICTRL_SOFTCS) w = Done u w' ->
  same_controller w w' /\ softcs (hw w') = u8 v /\
  fifo_reads (hw w') = fifo_reads (hw w) /\
  fifo_pushed (hw w') = fifo_pushed (hw w).
Proof.
  intros [Hm Hb] E.
  rewrite mmio_writeb_hit in E by auto using in_offsets_softcs.
  inversion E; subst w'. repeat split.
Qed.

Lemma wait_effect (fuel : nat) :
  forall (w w' : world) (u : unit),
    mapped_handle w -> wait_rf_not_empty fuel w = Done u w' ->
    same_controller w w' /\ softcs (hw w') = softcs (hw w) /\
    fifo_reads (hw w') = fifo_reads (hw w) /\
    fifo_pushed (hw w') = fifo_pushed (hw w).
Proof.
  induction fuel as [| f IH]; intros w w' u Hmh H.
  - discriminate H.
  - destruct Hmh as [Hm Hb].
    rewrite wait_unfold, poll_hit in H by assumption.
    destruct (Z.land (u8 (spsr_feed (hw w) (spsr_reads (hw w)))) SPSR_RFEMPTY =? 0).
    + inversion H; subst w'. repeat split.
    + apply IH in H; [| split; assumption].
      destruct H as (S1 & S2 & S3 & S4). simpl in S2, S3, S4.
      split; [| auto].
      eapply same_controller_trans; [| exact S1]. constructor; reflexivity.
Qed.

(** One loop iteration's push, wait and pop on a mapped controller. *)
Lemma exchange_effect (fuel : nat) (b v : Z) (w w1 w2 w3 : world) (u1 u2 : unit) :
  mapped_handle w ->
  mmio_writeb b (spictrl_base w + SPICTRL_FIFO) w = Done u1 w1 ->
  wait_rf_not_empty fuel w1 = Done u2 w2 ->
  mmio_readb (spictrl_base w2 + SPICTRL_FIFO) w2 = Done v w3 ->
  mapped_handle w3 /\ same_controller w w3 /\
  softcs (hw w3) = softcs (hw w) /\
  v = u8 (fifo_feed (hw w) (fifo_reads (hw w))) /\
  fifo_reads (hw w3) = S (fifo_reads (hw w)) /\
  fifo_pushed (hw w3) = fifo_pushed (hw w) ++ [u8 b].
Proof.
  intros M0 E1 E2 E3.
  destruct (push_effect _ _ _ _ M0 E1) as (S1 & C1 & R1 & P1).
  assert (M1 := mapped_handle_same _ _ M0 S1).
  destruct (wait_effect _ _ _ _ M1 E2) as (S2 & C2 & R2 & P2).
  assert (M2 := mapped_handle_same _ _ M1 S2).
  destruct (pop_effect _ _ _ M2 E3) as (S3 & C3 & V3 & R3 & P3).
  assert (S03 := same_controller_trans _ _ _
                   (same_controller_trans _ _ _ S1 S2) S3).
  split; [exact (mapped_handle_same _ _ M2 S3) |].
  split; [exact S03 |]. split; [congruence |]. split.
  - rewrite V3, R2, R1.
    rewrite (sc_ffeed _ _ (same_controller_trans _ _ _ S1 S2)). reflexivity.
  - split; congruence.
Qed.

Lemma write_phase_effect (fuel : nat) (writearr : list Z) (n : nat) :
  forall (i : nat) (w w' : world) (u : unit),
    mapped_handle w -> write_phase fuel writearr i n w = Done u w' ->
    mapped_handle w' /\ same_controller w w' /\
    softcs (hw w') = softcs (hw w) /\
    fifo_reads (hw w') = (fifo_reads (hw w) + n)%nat /\
    fifo_pushed (hw w')
    = fifo_pushed (hw w) ++ map u8 (firstn n (skipn i writearr)).
Proof.
  induction n as [| n IH]; intros i w w' u M0 H; simpl in H.
  - inversion H; subst w'. split; [exact M0 |].
    split; [apply same_controller_refl |]. split; [reflexivity |].
    split; [lia |]. simpl. symmetry. apply app_nil_r.
  - inv_bind H as b w1 E1. apply load_done in E1 as [Hnth ->].
    inv_bind H as a w2 E2. apply reg_done in E2 as [-> ->].
    inv_bind H as u1 w3 E3.
    inv_bind H as u2 w4 E4.
    inv_bind H as a' w5 E5. apply reg_done in E5 as [-> ->].
    inv_bind H as v w6 E6.
    destruct (exchange_effect _ _ _ _ _ _ _ _ _ M0 E3 E4 E6)
      as (M6 & S6 & C6 & _ & R6 & P6).
    apply IH in H; [| exact M6].
    destruct H as (M' & S' & C' & R' & P').
    split; [exact M' |].
    split; [exact (same_controller_trans _ _ _ S6 S') |].
    split; [congruence |]. split; [lia |].
    rewrite (nth_error_skipn_cons _ _ _ Hnth). simpl.
    rewrite P', P6, <- app_assoc. reflexivity.
Qed.

Lemma read_phase_effect (fuel : nat) (writearr : list Z) (n : nat) :
  forall (i : nat) (readarr readarr' : list Z) (w w' : world),
    mapped_handle w ->
    read_phase fuel writearr i n readarr w = Done readarr' w' ->
    mapped_handle w' /\ same_controller w w' /\
    softcs (hw w') = softcs (hw w) /\
    fifo_reads (hw w') = (fifo_reads (hw w) + n)%nat /\
    fifo_pushed (hw w')
    = fifo_pushed (hw w) ++ map u8 (firstn n (skipn i writearr)) /\
    forall k, (k < n)%nat ->
      nth_error readarr' (i + k)
      = Some (u8 (fifo_feed (hw w) (fifo_reads (hw w) + k))).
Proof.
  induction n as [| n IH]; intros i readarr readarr' w w' M0 H; simpl in H.
  - inversion H; subst w'. split; [exact M0 |].
    split; [apply same_controller_refl |]. split; [reflexivity |].
    split; [lia |]. split; [simpl; symmetry; apply app_nil_r |].
    intros k Hk. lia.
  - inv_bind H as b w1 E1. apply load_done in E1 as [Hnth ->].
    inv_bind H as a w2 E2. apply reg_done in E2 as [-> ->].
    inv_bind H as u1 w3 E3.
    inv_bind H as u2 w4 E4.
    inv_bind H as a' w5 E5. apply reg_done in E5 as [-> ->].
    inv_bind H as v w6 E6.
    inv_bind H as ra1 w7 E7. apply store_done in E7 as [Hupd ->].
    destruct (exchange_effect _ _ _ _ _ _ _ _ _ M0 E3 E4 E6)
      as (M6 & S6 & C6 & V6 & R6 & P6).
    apply update_spec in Hupd as (Hi & Hl1 & Hv & Hoth).
    pose proof (read_phase_done _ _ _ _ _ _ _ _ H)
      as (_ & _ & _ & _ & _ & _ & _ & _ & Hout).
    apply IH in H; [| exact M6].
    destruct H as (M' & S' & C' & R' & P' & Hin).
    split; [exact M' |].
    split; [exact (same_controller_trans _ _ _ S6 S') |].
    split; [congruence |]. split; [lia |]. split.
    + rewrite (nth_error_skipn_cons _ _ _ Hnth). simpl.
      rewrite P', P6, <- app_assoc. reflexivity.
    + intros [| k] Hk.
      * rewrite !Nat.add_0_r. rewrite Hout by lia. rewrite Hv, V6. reflexivity.
      * replace (i + S k)%nat with (S i + k)%nat by lia.
        rewrite (Hin k) by lia.
        rewrite (sc_ffeed _ _ S6), R6. f_equal. f_equal. f_equal. lia.
Qed.

(** X4. On a controller mapped at the handle, a finished transaction
    returns as [readarr[k]] the byte popped from FIFO after the
    [writecnt] bytes echoed in the write phase (pop number
    [writecnt + k] of the call); it has queued the write bytes and then
    the first [readcnt] of them again, popped
    [writecnt + readcnt] bytes, left Soft-Chip-Select at the deassert
    encoding, and not touched Control or Read-Engine-Enable. *)
Theorem send_command_on_mapped_controller :
  forall (fuel writecnt readcnt : nat) (writearr readarr readarr' : list Z)
         (rc : Z) (w w' : world),
    mapped_handle w ->
    loongson3_spi_send_command fuel writecnt readcnt writearr readarr w
    = Done (rc, readarr') w' ->
    (forall k, (k < readcnt)%nat ->
       nth_error readarr' k
       = Some (u8 (fifo_feed (hw w) (fifo_reads (hw w) + writecnt + k)))) /\
    fifo_pushed (hw w')
    = fifo_pushed (hw w) ++ map u8 (firstn writecnt writearr)
                         ++ map u8 (firstn readcnt writearr) /\
    fifo_reads (hw w') = (fifo_reads (hw w) + writecnt + readcnt)%nat /\
    softcs (hw w') = SOFTCS_DESSERT /\
    spcr (hw w') = spcr (hw w) /\ sfcp (hw w') = sfcp (hw w) /\
    mapped_handle w'.
Proof.
  intros fuel writecnt readcnt writearr readarr readarr' rc w w' M0 H.
  unfold loongson3_spi_send_command in H.
  inv_bind H as u0 w0 E0.
  assert (Hw0 : w0 = add_msg (MsgCounts writecnt readcnt) w).
  { rewrite msg_eq in E0. inversion E0. reflexivity. }
  subst w0. clear E0.
  set (w0 := add_msg (MsgCounts writecnt readcnt) w) in *.
  assert (Mw0 : mapped_handle w0) by exact M0.
  inv_bind H as a w1 E1. apply reg_done in E1 as [-> ->].
  inv_bind H as u1 w2 E2.
  destruct (chip_select_effect _ _ _ _ Mw0 E2) as (S2 & _ & R2 & P2).
  assert (M2 := mapped_handle_same _ _ Mw0 S2).
  inv_bind H as u2 w3 E3.
  destruct (write_phase_effect _ _ _ _ _ _ _ M2 E3) as (M3 & S3 & _ & R3 & P3).
  inv_bind H as ra w4 E4.
  destruct (read_phase_effect _ _ _ _ _ _ _ _ M3 E4)
    as (M4 & S4 & _ & R4 & P4 & Hin).
  inv_bind H as a' w5 E5. apply reg_done in E5 as [-> ->].
  inv_bind H as u3 w6 E6.
  destruct (chip_select_effect _ _ _ _ M4 E6) as (S6 & C6 & R6 & P6).
  inversion H; subst rc readarr' w6. clear H.
  assert (S06 := same_controller_trans _ _ _
                   (same_controller_trans _ _ _
                      (same_controller_trans _ _ _ S2 S3) S4) S6).
  simpl skipn in P3, P4.
  change (hw w0) with (hw w) in *.
  split.
  { intros k Hk. specialize (Hin k Hk). simpl in Hin. rewrite Hin.
    rewrite (sc_ffeed _ _ (same_controller_trans _ _ _ S2 S3)), R3, R2.
    reflexivity. }
  split; [rewrite P6, P4, P3, P2, <- app_assoc; reflexivity |].
  split; [rewrite R6, R4, R3, R2; lia |].
  split; [exact C6 |].
  split; [exact (sc_spcr _ _ S06) |].
  split; [exact (sc_sfcp _ _ S06) |].
  exact (mapped_handle_same _ _ M4 S6).
Qed.

Lemma send_command_on_mapped_controller_witness :
  nth_error [0xC1; 0xC2; 0xC3] 2
  = Some (u8 (fifo_feed (hw bench_world) (fifo_reads (hw bench_world) + 1 + 2))) /\
  softcs (hw (final (loongson3_spi_send_command 2 1 3 long_buffer [0; 0; 0]
                       bench_world)))
  = SOFTCS_DESSERT.
Proof.
  destruct (send_command_on_mapped_controller 2 1 3 long_buffer [0; 0; 0]
              [0xC1; 0xC2; 0xC3] 0 bench_world
              (final (loongson3_spi_send_command 2 1 3 long_buffer [0; 0; 0]
                        bench_world)))
    as (H1 & _ & _ & H4 & _).
  - split; [reflexivity | discriminate].
  - vm_compute. reflexivity.
  - split; [apply H1; lia | exact H4].
Defined.

(** ** Bring-up: every way out *)

Lemma mmio_readb_bookkeeping (a v : Z) (w w' : world) :
  mmio_readb a w = Done v w' ->
  msgs w' = msgs w /\ shutdown_hooks w' = shutdown_hooks w /\
  spi_masters w' = spi_masters w.
Proof.
  unfold mmio_readb. destruct (on_block w a); intros H; inversion H;
    repeat split.
Qed.

Lemma drain_bookkeeping (fuel : nat) :
  forall w,
    msgs (final (drain_fifo fuel w)) = msgs w /\
    shutdown_hooks (final (drain_fifo fuel w)) = shutdown_hooks w /\
    spi_masters (final (drain_fifo fuel w)) = spi_masters w.
Proof.
  induction fuel as [| f IH]; intros w; simpl.
  - repeat split.
  - rewrite (bind_step _ _ _ _ _ (reg_eq SPICTRL_SPSR w)).
    destruct (mmio_readb_total (spictrl_base w + SPICTRL_SPSR) w)
      as (s & w1 & E1).
    rewrite (bind_step _ _ _ _ _ E1).
    destruct (mmio_readb_bookkeeping _ _ _ _ E1) as (A1 & A2 & A3).
    destruct (Z.land s SPSR_RFEMPTY =? 0).
    + rewrite (bind_step _ _ _ _ _ (reg_eq SPICTRL_FIFO w1)).
      destruct (mmio_readb_total (spictrl_base w1 + SPICTRL_FIFO) w1)
        as (v & w2 & E2).
      rewrite (bind_step _ _ _ _ _ E2).
      destruct (mmio_readb_bookkeeping _ _ _ _ E2) as (B1 & B2 & B3).
      destruct (IH w2) as (C1 & C2 & C3).
      repeat split; congruence.
    + simpl. repeat split; assumption.
Qed.

(** The last access of a finished drain loop: a Status read that shows
    the read FIFO empty. *)
Lemma drain_done_last (fuel : nat) :
  forall (w w' : world) (u : unit),
    drain_fifo fuel w = Done u w' ->
    exists evs s,
      trace w' = trace w ++ evs ++ [Rd (spictrl_base w + SPICTRL_SPSR) s] /\
      rf_empty s = true.
Proof.
  induction fuel as [| f IH]; intros w w' u H; simpl in H.
  - discriminate H.
  - inv_bind H as a w1 E1. apply reg_done in E1 as [-> ->].
    inv_bind H as s w2 E2. apply mmio_readb_done in E2 as [T2 B2].
    destruct (Z.land s SPSR_RFEMPTY =? 0) eqn:Es.
    + inv_bind H as a' w3 E3. apply reg_done in E3 as [-> ->].
      inv_bind H as v w4 E4. apply mmio_readb_done in E4 as [T4 B4].
      apply IH in H as (evs & s' & T & Hs').
      exists (Rd (spictrl_base w + SPICTRL_SPSR) s
              :: Rd (spictrl_base w2 + SPICTRL_FIFO) v :: evs), s'.
      split; [| exact Hs'].
      rewrite T, T4, T2, B4, B2. rewrite <- !app_assoc. reflexivity.
    + inversion H; subst w'. exists [], s. split; [exact T2 |].
      unfold rf_empty. rewrite Es. reflexivity.
Qed.

Lemma init_none_eq (e : env) (fuel : nat) (w : world) :
  cpu_param e = None ->
  loongson3_spi_init e fuel w = Done 1 (add_msg MsgNoCpu w).
Proof.
  intros Hcpu. unfold loongson3_spi_init.
  unfold bind at 1. unfold extract_programmer_param. rewrite Hcpu.
  reflexivity.
Qed.

Lemma init_unknown_eq (e : env) (fuel : nat) (w : world) (cpu : string) :
  cpu_param e = Some cpu -> platform cpu = None ->
  loongson3_spi_init e fuel w = Done 1 (add_msg MsgInvalidCpu w).
Proof.
  intros Hcpu Hp. unfold loongson3_spi_init.
  unfold bind at 1. unfold extract_programmer_param. rewrite Hcpu.
  unfold platform in Hp.
  destruct (negb (cpu_is_loongson64c cpu =? 0)); [discriminate Hp |].
  destruct (negb (cpu_is_loongson64g cpu =? 0)); [discriminate Hp |].
  reflexivity.
Qed.

(** The platform message that goes with a mapping. *)
Lemma init_mapped_msg (e : env) (fuel : nat) (w : world) (cpu descr : string)
    (phys : Z) :
  cpu_param e = Some cpu -> platform cpu = Some (descr, phys) ->
  exists m,
    (m = Msg64c \/ m = Msg64g) /\
    loongson3_spi_init e fuel w
    = init_configure e fuel
        (mapped_world (rphysmap_result e descr phys LOONGSON3_SPI_REG_SIZE)
                      (mkPhysmapCall descr phys LOONGSON3_SPI_REG_SIZE) m w).
Proof.
  intros Hcpu Hp. unfold loongson3_spi_init.
  unfold bind at 1. unfold extract_programmer_param. rewrite Hcpu.
  unfold platform in Hp.
  destruct (negb (cpu_is_loongson64c cpu =? 0)).
  - inversion Hp; subst descr phys. exists Msg64c. split; [auto |].
    rewrite (bind_step _ _ _ _ _ (map_branch _ _ _ _ _ _)). reflexivity.
  - destruct (negb (cpu_is_loongson64g cpu =? 0)); [| discriminate Hp].
    inversion Hp; subst descr phys. exists Msg64g. split; [auto |].
    rewrite (bind_step _ _ _ _ _ (map_branch _ _ _ _ _ _)). reflexivity.
Qed.

Lemma warned_msgs (r : Z) (w : world) :
  msgs (warned r w) = msgs w ++ warning_for r.
Proof.
  unfold warned, warning_for. destruct (Z.land r SFCP_MEMEN =? 0); simpl.
  - reflexivity.
  - symmetry. apply app_nil_r.
Qed.

(** The configuration part of bring-up when the hook is refused,
    field by field. *)
Lemma configure_refused_full (e : env) (fuel : nat) (w : world) :
  mapped_at w = spictrl_base w -> spictrl_base w <> 0 ->
  register_shutdown_rc e <> 0 ->
  exists w1,
    init_configure e fuel w = Done 1 w1 /\
    spictrl_base w1 = spictrl_base w /\ mapped_at w1 = mapped_at w /\
    hw w1 = hw w /\
    trace w1 = trace w
      ++ [Rd (spictrl_base w + SPICTRL_SFCP) (u8 (sfcp (hw w)))] /\
    msgs w1 = msgs w ++ warning_for (u8 (sfcp (hw w))) /\
    physmaps w1 = physmaps w /\
    shutdown_hooks w1 = shutdown_hooks w /\ spi_masters w1 = spi_masters w.
Proof.
  intros Hm Hb Hrc. unfold init_configure.
  rewrite (bind_step _ _ _ _ _ (get_base_eq w)).
  destruct (Z.eqb_spec (spictrl_base w) 0) as [Hz | _]; [contradiction |].
  run_read. rewrite dev_readb_sfcp. cbn [fst snd].
  rewrite (bind_step _ _ _ _ _ (warn_eq _ _)).
  rewrite (bind_step _ _ _ _ _ (register_shutdown_refused e _ Hrc)).
  destruct (Z.eqb_spec (register_shutdown_rc e) 0) as [Hz | _]; [contradiction |].
  cbn [negb].
  match goal with
  | |- context [warned ?r ?W] =>
      destruct (warned_fields r W) as (F1 & F2 & F3 & F4 & F5 & F6 & F7);
      pose proof (warned_msgs r W) as F8
  end.
  eexists. split; [reflexivity |].
  rewrite F1, F2, F3, F4, F5, F6, F7, F8. repeat split.
Qed.

(** The configuration part of bring-up when the hook is accepted: the
    messages and the bookkeeping before the drain loop. *)
Lemma configure_ok_msgs (e : env) (fuel : nat) (w : world) :
  mapped_at w = spictrl_base w -> spictrl_base w <> 0 ->
  register_shutdown_rc e = 0 ->
  exists w1,
    init_configure e fuel w
    = (drain_fifo fuel ;;; register_spi_master ;;; ret 0) w1 /\
    msgs w1 = msgs w ++ warning_for (u8 (sfcp (hw w))).
Proof.
  intros Hm Hb Hrc. unfold init_configure.
  rewrite (bind_step _ _ _ _ _ (get_base_eq w)).
  destruct (Z.eqb_spec (spictrl_base w) 0) as [Hz | _]; [contradiction |].
  run_read. rewrite dev_readb_sfcp. cbn [fst snd].
  rewrite (bind_step _ _ _ _ _ (warn_eq _ _)).
  rewrite (bind_step _ _ _ _ _ (register_shutdown_ok e _ Hrc)).
  change (negb (0 =? 0)) with false. cbv iota.
  match goal with
  | |- context [warned ?r ?W] =>
      destruct (warned_fields r W) as (F1 & F2 & F3 & F4 & F5 & F6 & F7);
      pose proof (warned_msgs r W) as F8;
      generalize dependent (warned r W)
  end.
  intros W F1 F2 F3 F4 F5 F6 F7 F8.
  simpl in F1, F2, F3, F4, F5, F6, F7, F8.
  unfold hooked.
  run_write. run_read. rewrite dev_readb_spcr. cbn [fst snd].
  run_write. run_read. rewrite dev_readb_sfcp. cbn [fst snd].
  run_write.
  eexists. split; [reflexivity |].
  cbn [msgs log_event set_hw]. exact F8.
Qed.

Lemma bind_spin {A B} (m : M A) (k : A -> M B) (w w1 : world) :
  m w = Spin w1 -> bind m k w = Spin w1.
Proof. unfold bind. intros ->. reflexivity. Qed.

Lemma drain_no_fault (fuel : nat) :
  forall w f w', drain_fifo fuel w <> Fault f w'.
Proof.
  induction fuel as [| f0 IH]; intros w f w'; simpl.
  - discriminate.
  - rewrite (bind_step _ _ _ _ _ (reg_eq SPICTRL_SPSR w)).
    destruct (mmio_readb_total (spictrl_base w + SPICTRL_SPSR) w)
      as (s & w1 & E1).
    rewrite (bind_step _ _ _ _ _ E1).
    destruct (Z.land s SPSR_RFEMPTY =? 0).
    + rewrite (bind_step _ _ _ _ _ (reg_eq SPICTRL_FIFO w1)).
      destruct (mmio_readb_total (spictrl_base w1 + SPICTRL_FIFO) w1)
        as (v & w2 & E2).
      rewrite (bind_step _ _ _ _ _ E2). apply IH.
    + discriminate.
Qed.

Lemma init_rejected (e : env) (fuel : nat) (w : world) :
  ~ accepts e ->
  exists w',
    loongson3_spi_init e fuel w = Done 1 w' /\
    shutdown_hooks w' = shutdown_hooks w /\ spi_masters w' = spi_masters w.
Proof.
  intros Hna.
  destruct (cpu_param e) as [cpu |] eqn:Hcpu.
  2: { rewrite (init_none_eq e fuel w Hcpu). eexists. repeat split. }
  destruct (platform cpu) as [[descr phys] |] eqn:Hp.
  2: { rewrite (init_unknown_eq e fuel w cpu Hcpu Hp). eexists. repeat split. }
  destruct (init_mapped e fuel w cpu descr phys Hcpu Hp) as [m ->].
  destruct (Z.eq_dec (rphysmap_result e descr phys LOONGSON3_SPI_REG_SIZE) 0)
    as [Hz | Hnz].
  { rewrite Hz. rewrite configure_null by reflexivity.
    eexists. repeat split. }
  destruct (Z.eq_dec (register_shutdown_rc e) 0) as [Hrc | Hrc].
  { exfalso. apply Hna. exists cpu, descr, phys. auto. }
  destruct (configure_refused_full e fuel
              (mapped_world (rphysmap_result e descr phys LOONGSON3_SPI_REG_SIZE)
                 (mkPhysmapCall descr phys LOONGSON3_SPI_REG_SIZE) m w))
    as (w1 & E & _ & _ & _ & _ & _ & _ & F7 & F8);
    try assumption; try reflexivity.
  exists w1. split; [exact E |]. simpl in F7, F8. auto.
Qed.

Lemma init_accepted (e : env) (fuel : nat) (w : world) :
  accepts e ->
  (exists w', loongson3_spi_init e fuel w = Done 0 w' /\
              shutdown_hooks w' = S (shutdown_hooks w) /\
              spi_masters w' = S (spi_masters w)) \/
  (exists w', loongson3_spi_init e fuel w = Spin w' /\
              shutdown_hooks w' = S (shutdown_hooks w) /\
              spi_masters w' = spi_masters w).
Proof.
  intros (cpu & descr & phys & Hcpu & Hp & Hva & Hrc).
  destruct (init_setup e fuel w cpu descr phys Hcpu Hp Hva Hrc)
    as (w1 & E & _ & _ & _ & _ & _ & F6 & F7).
  rewrite E.
  destruct (drain_bookkeeping fuel w1) as (_ & D2 & D3).
  pose proof (drain_no_fault fuel w1) as NF.
  destruct (drain_fifo fuel w1) as [u w2 | f w2 | w2] eqn:Ed; simpl in D2, D3.
  - left. rewrite (bind_step _ _ _ _ _ Ed).
    eexists. split; [reflexivity |]. simpl. split; congruence.
  - exfalso. apply (NF f w2). reflexivity.
  - right. rewrite (bind_spin _ _ _ _ Ed).
    exists w2. split; [reflexivity |]. split; congruence.
Qed.

(** X5. Bring-up returns 0 exactly when the platform identifier is
    recognised, the mapping succeeds and the shutdown hook is accepted;
    it then has registered the hook and the transport once each.  In
    every other case it returns 1, for any polling budget, with nothing
    registered.  No other status exists, and the only way not to return
    is the drain loop, entered with the hook registered and the transport
    not yet. *)
Theorem init_status_and_registrations :
  forall (e : env) (fuel : nat) (w : world),
    (accepts e ->
     (exists w', loongson3_spi_init e fuel w = Done 0 w' /\
                 shutdown_hooks w' = S (shutdown_hooks w) /\
                 spi_masters w' = S (spi_masters w)) \/
     (exists w', loongson3_spi_init e fuel w = Spin w' /\
                 shutdown_hooks w' = S (shutdown_hooks w) /\
                 spi_masters w' = spi_masters w)) /\
    (~ accepts e ->
     exists w', loongson3_spi_init e fuel w = Done 1 w' /\
                shutdown_hooks w' = shutdown_hooks w /\
                spi_masters w' = spi_masters w) /\
    (forall rc w', loongson3_spi_init e fuel w = Done rc w' ->
                   (rc = 0 /\ accepts e) \/ (rc = 1 /\ ~ accepts e)).
Proof.
  intros e fuel w. split; [apply init_accepted |].
  split; [apply init_rejected |].
  intros rc w' H.
  destruct (cpu_param e) as [cpu |] eqn:Hcpu.
  2: { right. rewrite (init_none_eq e fuel w Hcpu) in H. inversion H.
       split; [reflexivity |].
       intros (c & d & p & Hc & _). congruence. }
  destruct (platform cpu) as [[descr phys] |] eqn:Hp.
  2: { right. rewrite (init_unknown_eq e fuel w cpu Hcpu Hp) in H.
       inversion H. split; [reflexivity |].
       intros (c & d & p & Hc & Hp' & _). congruence. }
  destruct (Z.eq_dec (rphysmap_result e descr phys LOONGSON3_SPI_REG_SIZE) 0)
    as [Hz | Hnz].
  { right.
    destruct (init_map_failed e fuel w cpu descr phys Hcpu Hp Hz) as (w1 & E & _).
    rewrite E in H. inversion H. split; [reflexivity |].
    intros (c & d & p & Hc & Hp' & Hva & _).
    assert (c = cpu) by congruence. subst c.
    rewrite Hp in Hp'. inversion Hp'; subst d p. contradiction. }
  destruct (Z.eq_dec (register_shutdown_rc e) 0) as [Hrc | Hrc].
  2: { right.
       destruct (init_hook_refused e fuel w cpu descr phys Hcpu Hp Hnz Hrc)
         as (w1 & E & _).
       rewrite E in H. inversion H. split; [reflexivity |].
       intros (c & d & p & _ & _ & _ & Hrc'). contradiction. }
  left.
  assert (Hacc : accepts e) by (exists cpu, descr, phys; auto).
  split; [| exact Hacc].
  destruct (init_accepted e fuel w Hacc) as [(w1 & E & _) | (w1 & E & _)];
    rewrite E in H; [inversion H; reflexivity | discriminate H].
Qed.

Lemma init_status_and_registrations_witness :
  (exists w', loongson3_spi_init boot_env 3 boot_world = Done 0 w' /\
              shutdown_hooks w' = S (shutdown_hooks boot_world) /\
              spi_masters w' = S (spi_masters boot_world)) \/
  (exists w', loongson3_spi_init boot_env 3 boot_world = Spin w' /\
              shutdown_hooks w' = S (shutdown_hooks boot_world) /\
              spi_masters w' = spi_masters boot_world).
Proof.
  destruct (init_status_and_registrations boot_env 3 boot_world) as [H _].
  apply H.
  exists "3a4000"%string, "Loongson64G SPICTRL"%string, LOONGSON64G_SPI_BASE.
  repeat split. simpl. lia.
Defined.

(** The platform message of each group of identifiers. *)
Lemma init_mapped_group (e : env) (fuel : nat) (w : world) (cpu descr : string)
    (phys : Z) :
  cpu_param e = Some cpu -> platform cpu = Some (descr, phys) ->
  exists m,
    (m = Msg64c \/ m = Msg64g) /\
    (In cpu names_64c -> m = Msg64c) /\
    (In cpu names_64g -> m = Msg64g) /\
    loongson3_spi_init e fuel w
    = init_configure e fuel
        (mapped_world (rphysmap_result e descr phys LOONGSON3_SPI_REG_SIZE)
                      (mkPhysmapCall descr phys LOONGSON3_SPI_REG_SIZE) m w).
Proof.
  intros Hcpu Hp. unfold loongson3_spi_init.
  unfold bind at 1. unfold extract_programmer_param. rewrite Hcpu.
  unfold platform in Hp.
  destruct (negb (cpu_is_loongson64c cpu =? 0)) eqn:Ec.
  - inversion Hp; subst descr phys. exists Msg64c.
    split; [auto |]. split; [reflexivity |]. split.
    + unfold names_64g. simpl. intros [<- | [<- | []]]; discriminate Ec.
    + rewrite (bind_step _ _ _ _ _ (map_branch _ _ _ _ _ _)). reflexivity.
  - destruct (negb (cpu_is_loongson64g cpu =? 0)); [| discriminate Hp].
    inversion Hp; subst descr phys. exists Msg64g.
    split; [auto |]. split; [| split; [reflexivity |]].
    + unfold names_64c. simpl.
      intros [<- | [<- | [<- | [<- | [<- | []]]]]]; discriminate Ec.
    + rewrite (bind_step _ _ _ _ _ (map_branch _ _ _ _ _ _)). reflexivity.
Qed.

(** X6. When the mapping fails, bring-up returns 1 without a single
    register access: the handle is null, the registers are as they were,
    the mapping request is on record, the message that the mapping failed
    follows the platform message (the one for 64C after an identifier of
    the 64C group, the one for 64G after an identifier of the 64G
    group), and neither the shutdown hook nor the transport is
    registered. *)
Theorem init_stops_at_failed_mapping :
  forall (e : env) (fuel : nat) (w : world) (cpu descr : string) (phys : Z),
    cpu_param e = Some cpu -> platform cpu = Some (descr, phys) ->
    rphysmap_result e descr phys LOONGSON3_SPI_REG_SIZE = 0 ->
    exists w' m,
      loongson3_spi_init e fuel w = Done 1 w' /\
      spictrl_base w' = 0 /\ trace w' = trace w /\ hw w' = hw w /\
      physmaps w'
      = physmaps w ++ [mkPhysmapCall descr phys LOONGSON3_SPI_REG_SIZE] /\
      msgs w' = msgs w ++ [m; MsgMapFailed] /\
      (m = Msg64c \/ m = Msg64g) /\
      (In cpu names_64c -> m = Msg64c) /\
      (In cpu names_64g -> m = Msg64g) /\
      shutdown_hooks w' = shutdown_hooks w /\ spi_masters w' = spi_masters w.
Proof.
  intros e fuel w cpu descr phys Hcpu Hp Hva.
  destruct (init_mapped_group e fuel w cpu descr phys Hcpu Hp)
    as (m & Hm & Hc & Hg & E).
  rewrite Hva in E. rewrite configure_null in E by reflexivity.
  eexists. exists m. split; [exact E |]. simpl.
  repeat match goal with |- _ /\ _ => split end;
    try reflexivity; try assumption.
  rewrite <- app_assoc. reflexivity.
Qed.

Lemma init_stops_at_failed_mapping_witness :
  exists w' m,
    loongson3_spi_init (sim_env (Some "3b1500"%string) 0 0) 3 boot_world
    = Done 1 w' /\
    spictrl_base w' = 0 /\ trace w' = trace boot_world /\
    hw w' = hw boot_world /\
    physmaps w'
    = physmaps boot_world
      ++ [mkPhysmapCall "Loongson64C SPICTRL" LOONGSON64C_SPI_BASE
                        LOONGSON3_SPI_REG_SIZE] /\
    msgs w' = msgs boot_world ++ [m; MsgMapFailed] /\
    (m = Msg64c \/ m = Msg64g) /\
    (In "3b1500"%string names_64c -> m = Msg64c) /\
    (In "3b1500"%string names_64g -> m = Msg64g) /\
    shutdown_hooks w' = shutdown_hooks boot_world /\
    spi_masters w' = spi_masters boot_world.
Proof.
  apply (init_stops_at_failed_mapping (sim_env (Some "3b1500"%string) 0 0) 3
           boot_world "3b1500"%string);
    reflexivity.
Defined.

(** X7. When the shutdown hook is refused, bring-up returns 1 after one
    register access, the read of Read-Engine-Enable: the controller has
    been probed but not reconfigured.  The registers are as they were,
    the handle stays set to the mapping, and the transport is not
    registered. *)
Theorem init_stops_at_refused_hook :
  forall (e : env) (fuel : nat) (w : world) (cpu descr : string) (phys va : Z),
    cpu_param e = Some cpu -> platform cpu = Some (descr, phys) ->
    rphysmap_result e descr phys LOONGSON3_SPI_REG_SIZE = va -> va <> 0 ->
    register_shutdown_rc e <> 0 ->
    exists w',
      loongson3_spi_init e fuel w = Done 1 w' /\
      trace w' = trace w ++ [Rd (va + SPICTRL_SFCP) (u8 (sfcp (hw w)))] /\
      hw w' = hw w /\
      spictrl_base w' = va /\ mapped_at w' = va /\
      shutdown_hooks w' = shutdown_hooks w /\ spi_masters w' = spi_masters w.
Proof.
  intros e fuel w cpu descr phys va Hcpu Hp Hva Hnz Hrc. subst va.
  destruct (init_mapped e fuel w cpu descr phys Hcpu Hp) as [m E].
  destruct (configure_refused_full e fuel
              (mapped_world (rphysmap_result e descr phys LOONGSON3_SPI_REG_SIZE)
                 (mkPhysmapCall descr phys LOONGSON3_SPI_REG_SIZE) m w))
    as (w1 & E1 & F1 & F2 & F3 & F4 & _ & _ & F7 & F8);
    try assumption; try reflexivity.
  exists w1. split; [rewrite E; exact E1 |].
  simpl in F1, F2, F3, F4, F7, F8. auto 8.
Qed.

Lemma init_stops_at_refused_hook_witness :
  exists w',
    loongson3_spi_init (sim_env (Some "3a4000"%string) 0x1000 1) 3 boot_world
    = Done 1 w' /\
    trace w' = trace boot_world
                 ++ [Rd (0x1000 + SPICTRL_SFCP) (u8 (sfcp (hw boot_world)))] /\
    hw w' = hw boot_world /\
    spictrl_base w' = 0x1000 /\ mapped_at w' = 0x1000 /\
    shutdown_hooks w' = shutdown_hooks boot_world /\
    spi_masters w' = spi_masters boot_world.
Proof.
  apply (init_stops_at_refused_hook (sim_env (Some "3a4000"%string) 0x1000 1)
           3 boot_world "3a4000"%string "Loongson64G SPICTRL"%string
           LOONGSON64G_SPI_BASE 0x1000).
  - reflexivity.
  - reflexivity.
  - reflexivity.
  - lia.
  - simpl. lia.
Defined.

(** ** Bring-up: what it leaves behind *)

(** The three ways out of bring-up, with what each has registered. *)
Lemma init_outcomes (e : env) (fuel : nat) (w : world) :
  (exists w', loongson3_spi_init e fuel w = Done 0 w' /\
              spi_masters w' = S (spi_masters w)) \/
  (exists w', loongson3_spi_init e fuel w = Spin w' /\
              spi_masters w' = spi_masters w) \/
  (exists w', loongson3_spi_init e fuel w = Done 1 w' /\
              spi_masters w' = spi_masters w).
Proof.
  destruct (cpu_param e) as [cpu |] eqn:Hcpu.
  2: { right. right. rewrite (init_none_eq e fuel w Hcpu).
       eexists. split; reflexivity. }
  destruct (platform cpu) as [[descr phys] |] eqn:Hp.
  2: { right. right. rewrite (init_unknown_eq e fuel w cpu Hcpu Hp).
       eexists. split; reflexivity. }
  destruct (Z.eq_dec (rphysmap_result e descr phys LOONGSON3_SPI_REG_SIZE) 0)
    as [Hz | Hnz].
  { right. right.
    destruct (init_map_failed e fuel w cpu descr phys Hcpu Hp Hz) as (w1 & E & _).
    assert (Hna : ~ accepts e).
    { intros (c & d & p & Hc & Hp' & Hva & _).
      assert (c = cpu) by congruence. subst c.
      rewrite Hp in Hp'. inversion Hp'; subst d p. contradiction. }
    destruct (init_rejected e fuel w Hna) as (w2 & E2 & _ & M).
    exists w2. split; assumption. }
  destruct (Z.eq_dec (register_shutdown_rc e) 0) as [Hrc | Hrc].
  2: { right. right.
       assert (Hna : ~ accepts e).
       { intros (c & d & p & _ & _ & _ & Hrc'). contradiction. }
       destruct (init_rejected e fuel w Hna) as (w2 & E2 & _ & M).
       exists w2. split; assumption. }
  assert (Hacc : accepts e) by (exists cpu, descr, phys; auto).
  destruct (init_accepted e fuel w Hacc) as [(w1 & E & _ & M) | (w1 & E & _ & M)].
  - left. exists w1. split; assumption.
  - right. left. exists w1. split; assumption.
Qed.

(** X9. The transport is registered only after the read FIFO has been
    seen drained.  Whatever the hardware answers, the last register access
    of a successful bring-up is a read of Status that shows the read FIFO
    empty.  And a run of bring-up in which the transport has been
    registered, however it ended, is such a run: it has returned 0, it has
    registered the transport once, and its last access is that read.  In
    particular a run that is still in the drain loop when its polling
    budget ends has not registered the transport. *)
Theorem init_ends_on_empty_read_fifo :
  forall (e : env) (fuel : nat) (w : world),
    (forall w',
        loongson3_spi_init e fuel w = Done 0 w' ->
        exists evs s,
          trace w' = trace w ++ evs ++ [Rd (spictrl_base w' + SPICTRL_SPSR) s] /\
          rf_empty s = true) /\
    (spi_masters (final (loongson3_spi_init e fuel w)) <> spi_masters w ->
     exists w' evs s,
       loongson3_spi_init e fuel w = Done 0 w' /\
       spi_masters w' = S (spi_masters w) /\
       trace w' = trace w ++ evs ++ [Rd (spictrl_base w' + SPICTRL_SPSR) s] /\
       rf_empty s = true) /\
    (forall w'',
        loongson3_spi_init e fuel w = Spin w'' ->
        spi_masters w'' = spi_masters w).
Proof.
  intros e fuel w.
  assert (Hlast : forall w',
             loongson3_spi_init e fuel w = Done 0 w' ->
             exists evs s,
               trace w' = trace w ++ evs
                 ++ [Rd (spictrl_base w' + SPICTRL_SPSR) s] /\
               rf_empty s = true).
  { intros w' H.
    destruct (init_success_shape e fuel w w' H)
      as (cpu & descr & phys & w1 & w2 & _ & _ & _ & _ & F1 & _ & _ & F4 & Ed
          & X & F5 & _ & _ & F8).
    destruct (drain_done_last fuel w1 w2 tt Ed) as (evs & s & T & Hs).
    exists (setup_events (rphysmap_result e descr phys LOONGSON3_SPI_REG_SIZE)
              (hw w) ++ evs), s.
    split; [| exact Hs].
    rewrite F8, T, F4, F5, (ext_base _ _ X), <- !app_assoc. reflexivity. }
  split; [exact Hlast |]. split.
  - intros Hreg.
    destruct (init_outcomes e fuel w)
      as [(w1 & E & M) | [(w1 & E & M) | (w1 & E & M)]].
    + destruct (Hlast w1 E) as (evs & s & T & Hs).
      exists w1, evs, s. auto.
    + rewrite E in Hreg. simpl in Hreg. contradiction.
    + rewrite E in Hreg. simpl in Hreg. contradiction.
  - intros w'' H.
    destruct (init_outcomes e fuel w)
      as [(w1 & E & M) | [(w1 & E & M) | (w1 & E & M)]];
      rewrite E in H; inversion H; subst; assumption.
Qed.

Lemma init_ends_on_empty_read_fifo_witness :
  exists w' evs s,
    loongson3_spi_init boot_env 3 boot_world = Done 0 w' /\
    spi_masters w' = S (spi_masters boot_world) /\
    trace w' = trace boot_world ++ evs
      ++ [Rd (spictrl_base w' + SPICTRL_SPSR) s] /\
    rf_empty s = true.
Proof.
  destruct (init_ends_on_empty_read_fifo boot_env 3 boot_world) as (_ & H & _).
  apply H. vm_compute. lia.
Defined.

Lemma land_memen_bit (x : Z) :
  (Z.land (u8 x) SFCP_MEMEN =? 0) = negb (Z.testbit x 0).
Proof.
  change SFCP_MEMEN with (Z.ones 1).
  rewrite Z.land_ones by lia. change (2 ^ 1) with 2.
  rewrite <- Z.bit0_mod, u8_testbit by lia.
  destruct (Z.testbit x 0); reflexivity.
Qed.

(** X10. A successful bring-up emits one platform message ("64c" or
    "64g") and, after it, the read-engine warning exactly when bit 0 of
    Read-Engine-Enable was clear on entry; the warning changes neither the
    status nor anything else. *)
Theorem init_warns_when_read_engine_is_off :
  forall (e : env) (fuel : nat) (w w' : world),
    loongson3_spi_init e fuel w = Done 0 w' ->
    exists m,
      (m = Msg64c \/ m = Msg64g) /\
      msgs w' = msgs w ++ m :: (if Z.testbit (sfcp (hw w)) 0 then []
                                else [MsgReadEngineOff]).
Proof.
  intros e fuel w w' H.
  destruct (init_success_inv e fuel w w' H)
    as (cpu & descr & phys & Hcpu & Hp & Hva & Hrc).
  destruct (init_mapped_msg e fuel w cpu descr phys Hcpu Hp) as (m & Hm & E).
  destruct (configure_ok_msgs e fuel
              (mapped_world (rphysmap_result e descr phys LOONGSON3_SPI_REG_SIZE)
                 (mkPhysmapCall descr phys LOONGSON3_SPI_REG_SIZE) m w))
    as (w1 & E1 & F); try assumption; try reflexivity.
  rewrite E, E1 in H.
  inv_bind H as u w2 Ed.
  inv_bind H as u' w3 Er. inversion H; subst w3. clear H.
  unfold register_spi_master in Er. inversion Er; subst w'. clear Er.
  destruct (drain_bookkeeping fuel w1) as (D1 & _ & _).
  rewrite Ed in D1. simpl in D1.
  exists m. split; [exact Hm |].
  cbn [msgs]. rewrite D1, F. unfold mapped_world, warning_for. cbn [msgs hw].
  rewrite land_memen_bit, <- app_assoc.
  destruct (Z.testbit (sfcp (hw w)) 0); reflexivity.
Qed.

Lemma init_warns_when_read_engine_is_off_witness :
  exists m,
    (m = Msg64c \/ m = Msg64g) /\
    msgs (final (loongson3_spi_init boot_env 3
                   (sim_world 0 (sim_block (stale 2) 0x8F 0xFE))))
    = msgs (sim_world 0 (sim_block (stale 2) 0x8F 0xFE))
      ++ m :: (if Z.testbit (sfcp (hw (sim_world 0 (sim_block (stale 2) 0x8F 0xFE)))) 0
               then [] else [MsgReadEngineOff]).
Proof.
  apply (init_warns_when_read_engine_is_off boot_env 3
           (sim_world 0 (sim_block (stale 2) 0x8F 0xFE))).
  vm_compute. reflexivity.
Defined.

(** X11. Bring-up establishes what the transaction engine needs: after
    a successful bring-up on hardware whose busy-waits end, the handle is
    the mapping and every transaction whose indices stay inside its arrays
    returns 0, given a large enough polling budget. *)
Theorem transactions_run_after_init :
  forall (e : env) (fuel : nat) (w w' : world)
         (writecnt readcnt : nat) (writearr readarr : list Z),
    loongson3_spi_init e fuel w = Done 0 w' ->
    unblocks (hw w) ->
    (writecnt <= length writearr)%nat -> (readcnt <= length writearr)%nat ->
    (readcnt <= length readarr)%nat ->
    mapped_handle w' /\
    exists f0 readarr' w'',
      forall fuel', (f0 <= fuel')%nat ->
        loongson3_spi_send_command fuel' writecnt readcnt writearr readarr w'
        = Done (0, readarr') w''.
Proof.
  intros e fuel w w' writecnt readcnt writearr readarr H Hu Hw Hr Hr'.
  destruct (init_success_shape e fuel w w' H)
    as (cpu & descr & phys & w1 & w2 & _ & _ & Hva & _ & F1 & F2 & F3 & _ & _
        & X & F5 & F6 & F7 & _).
  assert (Hb : spictrl_base w' = rphysmap_result e descr phys LOONGSON3_SPI_REG_SIZE).
  { rewrite F5, (ext_base _ _ X). exact F1. }
  assert (Hm : mapped_at w' = spictrl_base w').
  { rewrite F6, (ext_map _ _ X), F2, Hb. reflexivity. }
  split; [split; [exact Hm | congruence] |].
  apply send_command_live; try assumption.
  split; [exact Hm |].
  unfold unblocks in *. rewrite F7, (ext_sfeed _ _ X), F3. exact Hu.
Qed.

Lemma transactions_run_after_init_witness :
  mapped_handle (final (loongson3_spi_init boot_env 3
                          (sim_world 0 (sim_block (paced 1) 0 0)))) /\
  exists f0 readarr' w'',
    forall fuel', (f0 <= fuel')%nat ->
      loongson3_spi_send_command fuel' 1 3 long_buffer [0; 0; 0]
        (final (loongson3_spi_init boot_env 3
                  (sim_world 0 (sim_block (paced 1) 0 0))))
      = Done (0, readarr') w''.
Proof.
  apply (transactions_run_after_init boot_env 3
           (sim_world 0 (sim_block (paced 1) 0 0))).
  - vm_compute. reflexivity.
  - apply paced_unblocks.
  - simpl. lia.
  - simpl. lia.
  - simpl. lia.
Defined.

Lemma u8_testbit_high (x i : Z) : 8 <= i -> Z.testbit (u8 x) i = false.
Proof. intros Hi. unfold u8. apply Z.mod_pow2_bits_high. lia. Qed.

Lemma configured_twice (d : regblock) :
  spcr (configured (configured d)) = spcr (configured d) /\
  sfcp (configured (configured d)) = sfcp (configured d) /\
  softcs (configured (configured d)) = softcs (configured d).
Proof.
  split; [| split; [| reflexivity]].
  - apply Z.bits_inj'. intros n Hn.
    destruct (Z.lt_ge_cases n 8) as [Hlt | Hge].
    + rewrite (configured_spcr_bit (configured d)) by lia.
      rewrite configured_spcr_bit by lia.
      destruct (Z.testbit (spcr d) n), ((n =? 4) || (n =? 6)); reflexivity.
    + unfold configured. cbn [spcr]. rewrite !u8_testbit_high by lia.
      reflexivity.
  - apply Z.bits_inj'. intros n Hn.
    destruct (Z.lt_ge_cases n 8) as [Hlt | Hge].
    + rewrite (configured_sfcp_bit (configured d)) by lia.
      rewrite configured_sfcp_bit by lia.
      destruct (Z.testbit (sfcp d) n), (negb (n =? 0)); reflexivity.
    + unfold configured. cbn [sfcp]. rewrite !u8_testbit_high by lia.
      reflexivity.
Qed.

(** X12. Bring-up is idempotent on the controller's configuration: a
    second successful bring-up, from the state the first one left and
    under any environment, leaves Control, Read-Engine-Enable and
    Soft-Chip-Select with the values they already had. *)
Theorem init_twice_keeps_configuration :
  forall (e1 e2 : env) (fuel1 fuel2 : nat) (w w1 w2 : world),
    loongson3_spi_init e1 fuel1 w = Done 0 w1 ->
    loongson3_spi_init e2 fuel2 w1 = Done 0 w2 ->
    spcr (hw w2) = spcr (hw w1) /\ sfcp (hw w2) = sfcp (hw w1) /\
    softcs (hw w2) = softcs (hw w1) /\ softcs (hw w1) = SOFTCS_DESSERT.
Proof.
  intros e1 e2 fuel1 fuel2 w w1 w2 H1 H2.
  assert (shape : forall e fuel a b,
             loongson3_spi_init e fuel a = Done 0 b ->
             spcr (hw b) = spcr (configured (hw a)) /\
             sfcp (hw b) = sfcp (configured (hw a)) /\
             softcs (hw b) = softcs (configured (hw a))).
  { intros e fuel a b H.
    destruct (init_success_shape e fuel a b H)
      as (cpu & descr & phys & x1 & x2 & _ & _ & Hva & _ & F1 & F2 & F3 & _
          & Ed & _ & _ & _ & F7 & _).
    destruct (drain_keeps fuel x1 x2 tt) as (K1 & K2 & K3);
      [congruence | congruence | exact Ed |].
    rewrite F7, K1, K2, K3, F3. repeat split. }
  destruct (shape _ _ _ _ H1) as (A1 & A2 & A3).
  destruct (shape _ _ _ _ H2) as (B1 & B2 & B3).
  destruct (configured_twice (hw w)) as (C1 & C2 & C3).
  assert (same : forall d d', spcr d' = spcr d -> sfcp d' = sfcp d ->
                              spcr (configured d') = spcr (configured d) /\
                              sfcp (configured d') = sfcp (configured d)).
  { intros d d' E1 E2. unfold configured. cbn [spcr sfcp].
    rewrite E1, E2. split; reflexivity. }
  destruct (same (configured (hw w)) (hw w1) A1 A2) as (D1 & D2).
  split; [congruence |]. split; [congruence |].
  split; [rewrite B3, A3; reflexivity | rewrite A3; reflexivity].
Qed.

Lemma init_twice_keeps_configuration_witness :
  spcr (hw (final (loongson3_spi_init boot_env 3
                     (final (loongson3_spi_init boot_env 3 boot_world)))))
  = spcr (hw (final (loongson3_spi_init boot_env 3 boot_world))) /\
  sfcp (hw (final (loongson3_spi_init boot_env 3
                     (final (loongson3_spi_init boot_env 3 boot_world)))))
  = sfcp (hw (final (loongson3_spi_init boot_env 3 boot_world))) /\
  softcs (hw (final (loongson3_spi_init boot_env 3
                       (final (loongson3_spi_init boot_env 3 boot_world)))))
  = softcs (hw (final (loongson3_spi_init boot_env 3 boot_world))) /\
  softcs (hw (final (loongson3_spi_init boot_env 3 boot_world)))
  = SOFTCS_DESSERT.
Proof.
  apply (init_twice_keeps_configuration boot_env boot_env 3 3 boot_world).
  - vm_compute. reflexivity.
  - vm_compute. reflexivity.
Defined.

(** ** The platform tests *)

(** X13. Each platform test returns 1 on the names of its group, 0 on
    every other string, and no string passes both tests, so the order of
    the two branches of bring-up does not matter. *)
Theorem platform_tests_are_exact_and_exclusive :
  forall cpu : string,
    (cpu_is_loongson64c cpu = 1 <-> In cpu names_64c) /\
    (cpu_is_loongson64c cpu = 0 <-> ~ In cpu names_64c) /\
    (cpu_is_loongson64g cpu = 1 <-> In cpu names_64g) /\
    (cpu_is_loongson64g cpu = 0 <-> ~ In cpu names_64g) /\
    ~ (cpu_is_loongson64c cpu <> 0 /\ cpu_is_loongson64g cpu <> 0).
Proof.
  intros cpu.
  assert (Hc : (In cpu names_64c /\ cpu_is_loongson64c cpu = 1
                /\ cpu_is_loongson64g cpu = 0)
               \/ (~ In cpu names_64c /\ cpu_is_loongson64c cpu = 0)).
  { unfold cpu_is_loongson64c, names_64c. simpl.
    repeat match goal with
           | |- context [String.eqb cpu ?s] =>
               destruct (String.eqb_spec cpu s) as [-> | ?];
               [left; split; [tauto | split; reflexivity] |]
           end.
    right. split; [| reflexivity].
    intros H. decompose [or] H; congruence. }
  assert (Hg : (In cpu names_64g /\ cpu_is_loongson64g cpu = 1)
               \/ (~ In cpu names_64g /\ cpu_is_loongson64g cpu = 0)).
  { unfold cpu_is_loongson64g, names_64g. simpl.
    repeat match goal with
           | |- context [String.eqb cpu ?s] =>
               destruct (String.eqb_spec cpu s) as [-> | ?];
               [left; split; [tauto | reflexivity] |]
           end.
    right. split; [| reflexivity].
    intros H. decompose [or] H; congruence. }
  destruct Hc as [(C1 & C2 & C3) | (C1 & C2)];
    destruct Hg as [(G1 & G2) | (G1 & G2)];
    rewrite ?C2, ?G2;
    repeat split; try tauto; try congruence; try discriminate;
    intros; try tauto; try congruence.
Qed.

(** ** Loops that never end *)

Lemma dev_writeb_fifo (v : Z) (d : regblock) :
  dev_writeb v SPICTRL_FIFO d
  = mkRegblock (spcr d) (sfcp d) (softcs d) (spsr_feed d) (spsr_reads d)
               (fifo_feed d) (fifo_reads d) (fifo_pushed d ++ [v]).
Proof. reflexivity. Qed.

Lemma wait_stuck (fuel : nat) :
  forall w,
    mapped_handle w ->
    (forall n, rf_empty (u8 (spsr_feed (hw w) n)) = true) ->
    exists w' polls,
      wait_rf_not_empty fuel w = Spin w' /\
      trace w' = trace w ++ polls /\ length polls = fuel /\
      Forall (busy_poll (spictrl_base w)) polls /\
      softcs (hw w') = softcs (hw w).
Proof.
  induction fuel as [| f IH]; intros w [Hm Hb] Hbusy.
  - exists w, []. simpl. repeat split; [symmetry; apply app_nil_r | constructor].
  - rewrite wait_unfold, poll_hit by assumption.
    pose proof (Hbusy (spsr_reads (hw w))) as H0.
    unfold rf_empty in H0. apply negb_true_iff in H0. rewrite H0.
    destruct (IH (polled w)) as (w' & polls & E & T & L & F & C).
    { split; assumption. }
    { exact Hbusy. }
    exists w', (Rd (spictrl_base w + SPICTRL_SPSR)
                   (u8 (spsr_feed (hw w) (spsr_reads (hw w)))) :: polls).
    split; [exact E |]. split; [rewrite T; simpl; rewrite <- app_assoc; reflexivity |].
    split; [simpl; congruence |]. split; [| exact C].
    constructor; [| exact F].
    eexists. split; [reflexivity |]. apply Hbusy.
Qed.

(** X14. The busy-waits have no time-out: on a mapped controller whose
    Status shows the read FIFO empty at every read, a transaction that
    moves at least one byte does not return, whatever the polling budget.
    It asserts chip-select, pushes [writearr[0]], and then only polls
    Status, as many times as the budget allows, with chip-select still
    asserted. *)
Theorem send_command_blocks_while_read_fifo_is_empty :
  forall (fuel writecnt readcnt : nat) (writearr readarr : list Z) (b : Z)
         (w : world),
    mapped_handle w ->
    (forall n, rf_empty (u8 (spsr_feed (hw w) n)) = true) ->
    nth_error writearr 0 = Some b -> (0 < writecnt + readcnt)%nat ->
    exists w' polls,
      loongson3_spi_send_command fuel writecnt readcnt writearr readarr w
      = Spin w' /\
      trace w' = trace w
        ++ [ Wr SOFTCS_ASSERT (spictrl_base w + SPICTRL_SOFTCS);
             Wr (u8 b) (spictrl_base w + SPICTRL_FIFO) ]
        ++ polls /\
      length polls = fuel /\
      Forall (busy_poll (spictrl_base w)) polls /\
      softcs (hw w') = SOFTCS_ASSERT.
Proof.
  intros fuel writecnt readcnt writearr readarr b w [Hm Hb] Hbusy Hnth Hpos.
  unfold loongson3_spi_send_command.
  rewrite (bind_step _ _ _ _ _ (msg_eq _ w)).
  set (w0 := add_msg (MsgCounts writecnt readcnt) w).
  rewrite (bind_step _ _ _ _ _ (reg_eq SPICTRL_SOFTCS w0)).
  rewrite (bind_step _ _ _ _ _
             (mmio_writeb_hit SOFTCS_ASSERT SPICTRL_SOFTCS w0 Hm Hb
                in_offsets_softcs)).
  set (w1 := log_event _ _).
  assert (M1 : mapped_at w1 = spictrl_base w1) by exact Hm.
  assert (B1 : spictrl_base w1 <> 0) by exact Hb.
  assert (Eload : forall p, load p writearr 0 w1 = Done b w1).
  { intros p. unfold load. rewrite Hnth. reflexivity. }
  set (w2 := log_event (Wr (u8 b) (spictrl_base w1 + SPICTRL_FIFO))
               (set_hw (dev_writeb (u8 b) SPICTRL_FIFO (hw w1)) w1)).
  destruct (wait_stuck fuel w2) as (w3 & polls & E3 & T3 & L3 & F3 & C3).
  { split; [exact M1 | exact B1]. }
  { intros n. apply Hbusy. }
  assert (Hstep : forall (B : Type) (k : M B),
             (a <- reg SPICTRL_FIFO ;;
              mmio_writeb b a ;;;
              wait_rf_not_empty fuel ;;;
              k) w1 = Spin w3).
  { intros B k.
    rewrite (bind_step _ _ _ _ _ (reg_eq SPICTRL_FIFO w1)).
    rewrite (bind_step _ _ _ _ _
               (mmio_writeb_hit b SPICTRL_FIFO w1 M1 B1 in_offsets_fifo)).
    apply bind_spin. exact E3. }
  exists w3, polls.
  split.
  { destruct writecnt as [| n].
    - destruct readcnt as [| n]; [lia |].
      simpl write_phase. rewrite (bind_step _ _ _ _ _ (eq_refl : ret tt w1 = Done tt w1)).
      apply bind_spin. simpl read_phase.
      rewrite (bind_step _ _ _ _ _ (Eload ReadPhase)). apply Hstep.
    - apply bind_spin. simpl write_phase.
      rewrite (bind_step _ _ _ _ _ (Eload WritePhase)). apply Hstep. }
  split; [rewrite T3; simpl; rewrite <- !app_assoc; reflexivity |].
  split; [exact L3 |]. split; [exact F3 |].
  rewrite C3. reflexivity.
Qed.

Lemma send_command_blocks_while_read_fifo_is_empty_witness :
  exists w' polls,
    loongson3_spi_send_command 5 1 3 [0x9F] [0; 0; 0] silent_world = Spin w' /\
    trace w' = trace silent_world
      ++ [ Wr SOFTCS_ASSERT (spictrl_base silent_world + SPICTRL_SOFTCS);
           Wr (u8 0x9F) (spictrl_base silent_world + SPICTRL_FIFO) ]
      ++ polls /\
    length polls = 5%nat /\
    Forall (busy_poll (spictrl_base silent_world)) polls /\
    softcs (hw w') = SOFTCS_ASSERT.
Proof.
  apply (send_command_blocks_while_read_fifo_is_empty 5 1 3 [0x9F] [0; 0; 0]
           0x9F silent_world).
  - split; [reflexivity | discriminate].
  - intros n. reflexivity.
  - reflexivity.
  - lia.
Defined.

Lemma drain_stuck (fuel : nat) :
  forall w,
    mapped_handle w ->
    (forall n, rf_empty (u8 (spsr_feed (hw w) n)) = false) ->
    exists w' evs,
      drain_fifo fuel w = Spin w' /\
      trace w' = trace w ++ evs /\
      fifo_pops (spictrl_base w) evs = fuel /\
      fifo_reads (hw w') = (fifo_reads (hw w) + fuel)%nat.
Proof.
  induction fuel as [| f IH]; intros w [Hm Hb] Hfull.
  - exists w, []. simpl. split; [reflexivity |].
    split; [symmetry; apply app_nil_r |]. split; [reflexivity | lia].
  - rewrite drain_unfold by assumption. rewrite Hfull.
    destruct (IH (popped_one (polled w))) as (w' & evs & E & T & P & R).
    { split; assumption. }
    { exact Hfull. }
    exists w'.
    exists (Rd (spictrl_base w + SPICTRL_SPSR)
               (u8 (spsr_feed (hw w) (spsr_reads (hw w))))
            :: Rd (spictrl_base w + SPICTRL_FIFO)
                  (u8 (fifo_feed (hw w) (fifo_reads (hw w))))
            :: evs).
    split; [exact E |]. split.
    { rewrite T. simpl. rewrite <- !app_assoc. reflexivity. }
    simpl in P, R. split; [| lia].
    unfold fifo_pops in *. cbn [filter].
    rewrite spsr_is_not_fifo, Z.eqb_refl. cbn [length]. rewrite P. reflexivity.
Qed.

(** X15. The drain loop has no bound either: when the environment lets
    bring-up through but Status never shows the read FIFO empty, bring-up
    does not return, whatever the polling budget; it pops one byte per
    poll and never gets to register the transport. *)
Theorem init_blocks_while_read_fifo_is_never_empty :
  forall (e : env) (fuel : nat) (w : world),
    accepts e ->
    (forall n, rf_empty (u8 (spsr_feed (hw w) n)) = false) ->
    exists w' evs,
      loongson3_spi_init e fuel w = Spin w' /\
      trace w' = trace w ++ setup_events (spictrl_base w') (hw w) ++ evs /\
      fifo_pops (spictrl_base w') evs = fuel /\
      fifo_reads (hw w') = (fifo_reads (hw w) + fuel)%nat /\
      spi_masters w' = spi_masters w.
Proof.
  intros e fuel w (cpu & descr & phys & Hcpu & Hp & Hva & Hrc) Hfull.
  destruct (init_setup e fuel w cpu descr phys Hcpu Hp Hva Hrc)
    as (w1 & E & F1 & F2 & F3 & F4 & _ & _ & F7).
  destruct (drain_stuck fuel w1) as (w2 & evs & Ed & T & P & R).
  { split; congruence. }
  { rewrite F3. exact Hfull. }
  destruct (drain_bookkeeping fuel w1) as (_ & _ & D3).
  rewrite Ed in D3. simpl in D3.
  pose proof (framed_drain fuel w1) as X. rewrite Ed in X. simpl in X.
  exists w2, evs.
  split; [rewrite E; apply bind_spin; exact Ed |].
  rewrite (ext_base _ _ X).
  split; [rewrite T, F4, F1, <- app_assoc; reflexivity |].
  split; [exact P |].
  split; [rewrite R, F3; reflexivity | congruence].
Qed.

Lemma init_blocks_while_read_fifo_is_never_empty_witness :
  exists w' evs,
    loongson3_spi_init boot_env 4 flooded_world = Spin w' /\
    trace w' = trace flooded_world
                 ++ setup_events (spictrl_base w') (hw flooded_world) ++ evs /\
    fifo_pops (spictrl_base w') evs = 4%nat /\
    fifo_reads (hw w') = (fifo_reads (hw flooded_world) + 4)%nat /\
    spi_masters w' = spi_masters flooded_world.
Proof.
  apply (init_blocks_while_read_fifo_is_never_empty boot_env 4 flooded_world).
  - exists "3a4000"%string, "Loongson64G SPICTRL"%string, LOONGSON64G_SPI_BASE.
    repeat split. simpl. lia.
  - intros n. reflexivity.
Defined.

(** ** The busy-wait, poll by poll *)

Lemma polls_from_S (base : Z) (d : regblock) (r n : nat) :
  polls_from base d r (S n)
  = Rd (base + SPICTRL_SPSR) (u8 (spsr_feed d r)) :: polls_from base d (S r) n.
Proof.
  unfold polls_from. simpl. rewrite Nat.add_0_r. f_equal.
  rewrite <- seq_shift, map_map. apply map_ext. intros j.
  rewrite Nat.add_succ_r. reflexivity.
Qed.

Lemma wait_exact (m : nat) :
  forall w,
    mapped_handle w ->
    (forall j, (j < m)%nat ->
       rf_empty (u8 (spsr_feed (hw w) (spsr_reads (hw w) + j))) = true) ->
    rf_empty (u8 (spsr_feed (hw w) (spsr_reads (hw w) + m))) = false ->
    (forall fuel, (fuel <= m)%nat -> exists w', wait_rf_not_empty fuel w = Spin w') /\
    exists w',
      (forall fuel, (m < fuel)%nat -> wait_rf_not_empty fuel w = Done tt w') /\
      trace w' = trace w
        ++ polls_from (spictrl_base w) (hw w) (spsr_reads (hw w)) (S m) /\
      spsr_reads (hw w') = (spsr_reads (hw w) + S m)%nat /\
      fifo_reads (hw w') = fifo_reads (hw w) /\
      fifo_pushed (hw w') = fifo_pushed (hw w).
Proof.
  induction m as [| m IH]; intros w [Hm Hb] Hbusy Hready.
  - rewrite Nat.add_0_r in Hready. split.
    + intros fuel Hf. assert (fuel = 0%nat) by lia. subst fuel.
      exists w. reflexivity.
    + exists (polled w). split.
      * intros [| f] Hf; [lia |].
        rewrite wait_unfold, poll_hit by assumption.
        unfold rf_empty in Hready. apply negb_false_iff in Hready.
        rewrite Hready. reflexivity.
      * rewrite polls_from_S. simpl. repeat split. lia.
  - assert (H0 := Hbusy 0%nat ltac:(lia)). rewrite Nat.add_0_r in H0.
    assert (H0' := H0). unfold rf_empty in H0'. apply negb_true_iff in H0'.
    destruct (IH (polled w)) as (Hspin & w' & E & T & R & Fr & Fp).
    { split; assumption. }
    { intros j Hj. simpl. specialize (Hbusy (S j) ltac:(lia)).
      rewrite Nat.add_succ_r in Hbusy. exact Hbusy. }
    { simpl. rewrite Nat.add_succ_r in Hready. exact Hready. }
    split.
    + intros [| f] Hf; [exists w; reflexivity |].
      rewrite wait_unfold, poll_hit by assumption. rewrite H0'.
      apply Hspin. lia.
    + exists w'. split.
      * intros [| f] Hf; [lia |].
        rewrite wait_unfold, poll_hit by assumption. rewrite H0'.
        apply E. lia.
      * simpl in T, R, Fr, Fp.
        split; [rewrite T, (polls_from_S _ _ _ (S m)), <- app_assoc; reflexivity |].
        split; [lia |]. split; assumption.
Qed.

(** X8. One busy-wait on a mapped controller: if Status shows the read
    FIFO empty on its next [m] reads and non-empty on the one after, the
    wait ends after exactly [m + 1] Status reads and no other access, for
    every polling budget above [m]; with a budget of [m] or less it is
    still polling.  The FIFO is not read or written meanwhile. *)
Theorem wait_polls_until_first_non_empty :
  forall (m : nat) (w : world),
    mapped_handle w ->
    (forall j, (j < m)%nat ->
       rf_empty (u8 (spsr_feed (hw w) (spsr_reads (hw w) + j))) = true) ->
    rf_empty (u8 (spsr_feed (hw w) (spsr_reads (hw w) + m))) = false ->
    (forall fuel, (fuel <= m)%nat ->
       exists w', wait_rf_not_empty fuel w = Spin w') /\
    exists w',
      (forall fuel, (m < fuel)%nat -> wait_rf_not_empty fuel w = Done tt w') /\
      trace w' = trace w
        ++ polls_from (spictrl_base w) (hw w) (spsr_reads (hw w)) (S m) /\
      length (polls_from (spictrl_base w) (hw w) (spsr_reads (hw w)) (S m))
      = S m /\
      spsr_reads (hw w') = (spsr_reads (hw w) + S m)%nat /\
      fifo_reads (hw w') = fifo_reads (hw w) /\
      fifo_pushed (hw w') = fifo_pushed (hw w).
Proof.
  intros m w Hmh Hbusy Hready.
  destruct (wait_exact m w Hmh Hbusy Hready)
    as (Hspin & w' & E & T & R & Fr & Fp).
  split; [exact Hspin |].
  exists w'. repeat split; try assumption.
  unfold polls_from. rewrite length_map, length_seq. reflexivity.
Qed.

Lemma wait_polls_until_first_non_empty_witness :
  exists w',
    (forall fuel, (1 < fuel)%nat ->
       wait_rf_not_empty fuel bench_world = Done tt w') /\
    spsr_reads (hw w') = (spsr_reads (hw bench_world) + 2)%nat.
Proof.
  destruct (wait_polls_until_first_non_empty 1 bench_world)
    as (_ & w' & E & _ & _ & R & _).
  - split; [reflexivity | discriminate].
  - intros j Hj. assert (j = 0%nat) by lia. subst j. reflexivity.
  - reflexivity.
  - exists w'. split; [exact E | exact R].
Defined.

(** ** The writes of bring-up *)

Lemma drain_reads_only (fuel : nat) :
  forall w,
    exists evs,
      trace (final (drain_fifo fuel w)) = trace w ++ evs /\
      filter is_write evs = [].
Proof.
  induction fuel as [| f IH]; intros w; simpl.
  - exists []. split; [symmetry; apply app_nil_r | reflexivity].
  - rewrite (bind_step _ _ _ _ _ (reg_eq SPICTRL_SPSR w)).
    destruct (mmio_readb_total (spictrl_base w + SPICTRL_SPSR) w)
      as (s & w1 & E1).
    rewrite (bind_step _ _ _ _ _ E1).
    apply mmio_readb_done in E1 as [T1 _].
    destruct (Z.land s SPSR_RFEMPTY =? 0).
    + rewrite (bind_step _ _ _ _ _ (reg_eq SPICTRL_FIFO w1)).
      destruct (mmio_readb_total (spictrl_base w1 + SPICTRL_FIFO) w1)
        as (v & w2 & E2).
      rewrite (bind_step _ _ _ _ _ E2).
      apply mmio_readb_done in E2 as [T2 _].
      destruct (IH w2) as (evs & T & F).
      eexists. split.
      * rewrite T, T2, T1, <- !app_assoc. reflexivity.
      * simpl. exact F.
    + simpl. eexists. split; [exact T1 | reflexivity].
Qed.

(** X16. Bring-up never writes to FIFO or to Status.  Whatever its
    outcome, its register writes are either none at all (it stopped
    before or at the registration of the shutdown hook) or exactly three,
    in this order: the deassert encoding to Soft-Chip-Select, Control with
    the two enable bits or-ed in, Read-Engine-Enable with bit 0 masked
    out. *)
Theorem init_writes_three_registers_or_none :
  forall (e : env) (fuel : nat) (w : world),
  exists evs,
    trace (final (loongson3_spi_init e fuel w)) = trace w ++ evs /\
    fifo_writes (spictrl_base (final (loongson3_spi_init e fuel w))) evs = [] /\
    ((~ accepts e /\ filter is_write evs = []) \/
     (accepts e /\
      filter is_write evs
      = setup_writes (spictrl_base (final (loongson3_spi_init e fuel w))) (hw w))).
Proof.
  intros e fuel w.
  destruct (cpu_param e) as [cpu |] eqn:Hcpu.
  2: { rewrite (init_none_eq e fuel w Hcpu). exists []. simpl.
       split; [symmetry; apply app_nil_r |]. split; [reflexivity |].
       left. split; [| reflexivity]. intros (c & d & p & Hc & _). congruence. }
  destruct (platform cpu) as [[descr phys] |] eqn:Hp.
  2: { rewrite (init_unknown_eq e fuel w cpu Hcpu Hp). exists []. simpl.
       split; [symmetry; apply app_nil_r |]. split; [reflexivity |].
       left. split; [| reflexivity].
       intros (c & d & p & Hc & Hp' & _). congruence. }
  destruct (Z.eq_dec (rphysmap_result e descr phys LOONGSON3_SPI_REG_SIZE) 0)
    as [Hz | Hnz].
  { destruct (init_map_failed e fuel w cpu descr phys Hcpu Hp Hz)
      as (w1 & E & _ & _ & T & _).
    rewrite E. exists []. simpl. rewrite T.
    split; [symmetry; apply app_nil_r |]. split; [reflexivity |].
    left. split; [| reflexivity].
    intros (c & d & p & Hc & Hp' & Hva & _).
    assert (c = cpu) by congruence. subst c.
    rewrite Hp in Hp'. inversion Hp'; subst d p. contradiction. }
  destruct (Z.eq_dec (register_shutdown_rc e) 0) as [Hrc | Hrc].
  2: { destruct (init_hook_refused e fuel w cpu descr phys Hcpu Hp Hnz Hrc)
         as (w1 & E & B & _ & T & _).
       rewrite E. eexists. simpl. split; [exact T |].
       split.
       - unfold fifo_writes. reflexivity.
       - left. split; [| reflexivity].
         intros (c & d & p & _ & _ & _ & Hrc'). contradiction. }
  destruct (init_setup e fuel w cpu descr phys Hcpu Hp Hnz Hrc)
    as (w1 & E & F1 & _ & _ & F4 & _).
  assert (X : framed (drain_fifo fuel ;;; register_spi_master ;;; ret (A:=Z) 0)).
  { apply framed_bind; [apply framed_drain |]. intros _.
    apply framed_bind; [apply framed_register_spi_master |]. intros _.
    apply framed_ret. }
  destruct (X w1) as [Xb _ _ _ _ _].
  assert (Hfin : trace (final ((drain_fifo fuel ;;; register_spi_master ;;; ret 0) w1))
                 = trace (final (drain_fifo fuel w1))).
  { unfold bind at 1.
    destruct (drain_fifo fuel w1) as [u w2 | f w2 | w2]; reflexivity. }
  destruct (drain_reads_only fuel w1) as (evs & T & Fw).
  rewrite E, Xb, F1.
  set (va := rphysmap_result e descr phys LOONGSON3_SPI_REG_SIZE) in *.
  exists (setup_events va (hw w) ++ evs).
  split; [rewrite Hfin, T, F4; symmetry; apply app_assoc |].
  assert (Hnw : forall l, filter is_write l = [] -> fifo_writes va l = []).
  { induction l as [| [a v | v a] l IHl]; simpl; intros Hl.
    - reflexivity.
    - apply IHl. exact Hl.
    - discriminate Hl. }
  split.
  - rewrite fifo_writes_app, (Hnw evs Fw), app_nil_r.
    unfold fifo_writes, setup_events. simpl.
    rewrite softcs_is_not_fifo.
    replace (va + SPICTRL_SPCR =? va + SPICTRL_FIFO) with false
      by (symmetry; apply Z.eqb_neq; unfold SPICTRL_SPCR, SPICTRL_FIFO; lia).
    replace (va + SPICTRL_SFCP =? va + SPICTRL_FIFO) with false
      by (symmetry; apply Z.eqb_neq; unfold SPICTRL_SFCP, SPICTRL_FIFO; lia).
    reflexivity.
  - right. split; [exists cpu, descr, phys; auto |].
    rewrite filter_app, Fw, app_nil_r. reflexivity.
Qed.
